(** * RedditClone: the social engine, embedded and verified

    A shallow embedding of [engine/social_engine.go] and of
    [utils/common.go]: the in-memory store, its command handlers, the feed
    ranking and the maintenance sweep, followed by the properties of the
    store that the design document states.

    Conventions of the embedding:
    - Go's [int32]/[int64] are [Z] with the wrap-around written out;
    - Go's [float64] is IEEE-754 binary64, taken from the standard
      library's executable specification [SpecFloat];
    - Go maps are [gmap]s; reading a missing key gives the zero value;
    - [*proto.Content] and [*proto.Feedback] are shared between several
      tables and mutated in place, so they live in two heaps addressed by
      location; the tables hold locations;
    - what the handlers take from the outside world (the clock, the random
      bytes of [GenerateID]) is an explicit argument. *)

From Stdlib Require Import ZArith Bool.
From Stdlib Require Import Floats.SpecFloat.
From stdpp Require Import gmap strings list fin_maps sorting.

Local Open Scope Z_scope.

(** ** Machine integers *)

Module Int.

(** Two's complement wrap-around of a [w]-bit signed integer. *)
Definition wrap (w : Z) (z : Z) : Z :=
  (z + 2 ^ (w - 1)) mod 2 ^ w - 2 ^ (w - 1).

Definition wrap32 : Z -> Z := wrap 32.
Definition wrap64 : Z -> Z := wrap 64.

Definition in_int32 (z : Z) : Prop := - 2 ^ 31 <= z < 2 ^ 31.

End Int.

(** ** float64 *)

Module Float64.

Definition float64 : Type := spec_float.

Definition prec : Z := 53.
Definition emax : Z := 1024.

(** [math.Float64frombits]. *)
Definition Float64frombits (b : Z) : float64 :=
  let s := Z.testbit b 63 in
  let e := Z.land (Z.shiftr b 52) 0x7FF in
  let m := Z.land b 0xFFFFFFFFFFFFF in
  if e =? 0x7FF then (if m =? 0 then S754_infinity s else S754_nan)
  else if e =? 0 then
    match m with
    | Zpos p => S754_finite s p (-1074)
    | _ => S754_zero s
    end
  else
    match m + 2 ^ 52 with
    | Zpos p => S754_finite s p (e - 1075)
    | _ => S754_nan
    end.

(** The conversion [float64(n)] of an integer, rounding to nearest even. *)
Definition of_int (n : Z) : float64 := binary_normalize prec emax n 0 false.

Definition add : float64 -> float64 -> float64 := SFadd prec emax.
Definition sub : float64 -> float64 -> float64 := SFsub prec emax.
Definition mul : float64 -> float64 -> float64 := SFmul prec emax.
Definition div : float64 -> float64 -> float64 := SFdiv prec emax.
Definition ltb : float64 -> float64 -> bool := SFltb.
Definition leb : float64 -> float64 -> bool := SFleb.
Definition eqb : float64 -> float64 -> bool := SFeqb.
(** Go's [a > b]. *)
Definition gtb (a b : float64) : bool := SFltb b a.

Definition IsNaN (x : float64) : bool :=
  match x with S754_nan => true | _ => false end.

Definition IsInf (x : float64) (sign : Z) : bool :=
  match x with
  | S754_infinity s => (0 <=? sign) && negb s || (sign <=? 0) && s
  | _ => false
  end.

Definition Signbit (x : float64) : bool :=
  match x with
  | S754_zero s | S754_infinity s | S754_finite s _ _ => s
  | S754_nan => false
  end.

Definition zero : float64 := S754_zero false.
Definition one : float64 := of_int 1.
Definition half : float64 := Float64frombits 0x3FE0000000000000.

(** [math.Abs]. *)
Definition Abs (x : float64) : float64 := SFabs x.

(** [math.Max], with its special cases. *)
Definition Max (x y : float64) : float64 :=
  if IsInf x 1 || IsInf y 1 then S754_infinity false
  else if IsNaN x || IsNaN y then S754_nan
  else if eqb x zero && eqb x y then (if Signbit x then y else x)
  else if gtb x y then x else y.

(** [math.Frexp]: [f = frac * 2^exp] with [1/2 <= |frac| < 1]; zero,
    infinities and NaN are returned with exponent 0. *)
Definition Frexp (f : float64) : float64 * Z :=
  match f with
  | S754_finite _ _ _ => SFfrexp prec emax f
  | _ => (f, 0)
  end.

(** The constants of [math]: [1/Ln10] and [Sqrt2/2] are constant
    expressions, evaluated exactly and rounded once. *)
Definition inv_Ln10 : float64 := Float64frombits 0x3FDBCB7B1526E50E.
Definition Sqrt2_div_2 : float64 := Float64frombits 0x3FE6A09E667F3BCD.

(** The portable [math.log] of the Go distribution (the FreeBSD
    [e_log.c] algorithm). *)
Definition log (x : float64) : float64 :=
  let Ln2Hi := Float64frombits 0x3FE62E42FEE00000 in
  let Ln2Lo := Float64frombits 0x3DEA39EF35793C76 in
  let L1 := Float64frombits 0x3FE5555555555593 in
  let L2 := Float64frombits 0x3FD999999997FA04 in
  let L3 := Float64frombits 0x3FD2492494229359 in
  let L4 := Float64frombits 0x3FCC71C51D8E78AF in
  let L5 := Float64frombits 0x3FC7466496CB03DE in
  let L6 := Float64frombits 0x3FC39A09D078C69F in
  let L7 := Float64frombits 0x3FC2F112DF3E5244 in
  if IsNaN x || IsInf x 1 then x
  else if ltb x zero then S754_nan
  else if eqb x zero then S754_infinity true
  else
    let '(f1, ki) := Frexp x in
    let '(f1, ki) :=
      if ltb f1 Sqrt2_div_2 then (mul f1 (of_int 2), ki - 1) else (f1, ki) in
    let f := sub f1 one in
    let k := of_int ki in
    let s := div f (add (of_int 2) f) in
    let s2 := mul s s in
    let s4 := mul s2 s2 in
    let t1 := mul s2 (add L1 (mul s4 (add L3 (mul s4 (add L5 (mul s4 L7)))))) in
    let t2 := mul s4 (add L2 (mul s4 (add L4 (mul s4 L6)))) in
    let R := add t1 t2 in
    let hfsq := mul (mul half f) f in
    sub (mul k Ln2Hi)
        (sub (sub hfsq (add (mul s (add hfsq R)) (mul k Ln2Lo))) f).

(** The decimal logarithm as the examples compute it,
    [log(x) * (1/Ln10)]. [math.Log10] belongs to the library the program
    is linked with, not to the program: the score and the ranking below
    take it as a parameter, and this function is what the examples put
    in its place. *)
Definition log10 (x : float64) : float64 := mul (log x) inv_Ln10.

End Float64.

Import Float64.

(** ** [utils/common.go] *)

Module utils.

(** [GenerateID]: the prefix, an underscore and the hexadecimal encoding
    [hex] of eight bytes read from [crypto/rand]. *)
Definition GenerateID (prefix hex : string) : string :=
  prefix +:+ "_" +:+ hex.

Section HotScore.
(** [math.Log10], whichever function of [float64] the library provides. *)
Variable Log10 : float64 -> float64.

(** [CalculateHotScore]; [ups] and [downs] are Go [int]s and
    [timestamp] an [int64]. *)
Definition CalculateHotScore (ups downs timestamp : Z) : float64 :=
  let score := of_int (Int.wrap64 (ups - downs)) in
  let order := Log10 (Max (Abs score) one) in
  let sign := if ltb score zero then of_int (-1) else one in
  let seconds := of_int (Int.wrap64 (timestamp - 1577836800)) in
  add (mul sign order) (div seconds (of_int 45000)).
End HotScore.

(** [TimeNow]: the clock in seconds. *)
Definition TimeNow (now : Z) : Z := now / 1000000000.

(** [Contains]. *)
Fixpoint Contains (slice : list string) (str : string) : bool :=
  match slice with
  | [] => false
  | s :: slice' => if decide (s = str) then true else Contains slice' str
  end.

(** [RetryWithTimeout]. The function [fn] acts on a state and returns
    its error, [None] for [nil]; the calls of [time.Sleep] are logged with
    their argument. [retry_loop] is the loop from [i] on, with [n]
    iterations left and [err] the error so far. *)
Section Retry.
Context {S E : Type}.
Variable fn : S -> option E * S.

Fixpoint retry_loop (attempts delay : Z) (n : nat) (i : Z) (err : option E)
    (s : S) (sleeps : list Z) : option E * S * list Z :=
  match n with
  | O => (err, s, sleeps)
  | Datatypes.S n' =>
      let '(err, s) := fn s in
      match err with
      | None => (None, s, sleeps)
      | Some _ =>
          let sleeps :=
            if i <? attempts - 1 then sleeps ++ [delay] else sleeps in
          retry_loop attempts delay n' (i + 1) err s sleeps
      end
  end.

Definition RetryWithTimeout (attempts delay : Z) (s : S)
    : option E * S * list Z :=
  retry_loop attempts delay (Z.to_nat attempts) 0 None s [].

(** The state after [k] calls of [fn], and the error of the last. *)
Fixpoint calls (k : nat) (s : S) : option E * S :=
  match k with
  | O => (None, s)
  | Datatypes.S k' => fn (calls k' s).2
  end.
End Retry.

End utils.

(** ** The clock

    A [time.Time] is the number of nanoseconds since the Unix epoch. *)

Module time.
Definition Time : Type := Z.
Definition Second : Z := 1000000000.
Definition Minute : Z := 60 * Second.
Definition Unix (t : Time) : Z := t / Second.
Definition Add (t : Time) (d : Z) : Time := t + d.
Definition Before (t u : Time) : bool := t <? u.
(** [t.AddDate(0, 0, days)] where the offset of the local zone is the
    same at the two dates, as in UTC: the same time of day, [days] civil
    days of 86400 seconds later. Where the offset changes in between, the
    library's result differs from this one by the change. *)
Definition AddDate_days (t : Time) (days : Z) : Time :=
  t + days * 86400 * Second.
End time.

(** ** [proto]: the records of [messages.proto] *)

(** A location in one of the two heaps. *)
Abbreviation loc := nat (only parsing).

(** Reading a Go map at a key that may be missing: the zero value. *)
Definition index_bool (m : gmap string bool) (k : string) : bool :=
  default false (m !! k).
Definition index_int32 (m : gmap string Z) (k : string) : Z :=
  default 0 (m !! k).

Module Feedback.
Record t : Type := mk {
  FeedbackId : string;
  ContentId : string;
  Creator : string;
  Body : string;
  Timestamp : Z;
  ParentId : string;
  Replies : list loc;
  Reactions : gmap string Z;
  Points : Z
}.

Definition add_reply (r : loc) (f : t) : t :=
  mk (FeedbackId f) (ContentId f) (Creator f) (Body f) (Timestamp f)
     (ParentId f) (Replies f ++ [r]) (Reactions f) (Points f).

(** The three statements of [handleReaction] on a feedback. *)
Definition react (handle : string) (value : Z) (f : t) : t :=
  let previousValue := index_int32 (Reactions f) handle in
  mk (FeedbackId f) (ContentId f) (Creator f) (Body f) (Timestamp f)
     (ParentId f) (Replies f) (<[handle := value]> (Reactions f))
     (Int.wrap32 (Points f + Int.wrap32 (value - previousValue))).
End Feedback.

Module Content.
Record t : Type := mk {
  ContentId : string;
  Creator : string;
  Subreddit : string;
  Heading : string;
  Body : string;
  Timestamp : Z;
  Feedback : list loc;
  Reactions : gmap string Z;
  Points : Z;
  IsShare : bool;
  OriginalContentId : string
}.

Definition add_feedback (r : loc) (c : t) : t :=
  mk (ContentId c) (Creator c) (Subreddit c) (Heading c) (Body c)
     (Timestamp c) (Feedback c ++ [r]) (Reactions c) (Points c)
     (IsShare c) (OriginalContentId c).

(** The three statements of [handleReaction] on a content. *)
Definition react (handle : string) (value : Z) (c : t) : t :=
  let previousValue := index_int32 (Reactions c) handle in
  mk (ContentId c) (Creator c) (Subreddit c) (Heading c) (Body c)
     (Timestamp c) (Feedback c) (<[handle := value]> (Reactions c))
     (Int.wrap32 (Points c + Int.wrap32 (value - previousValue)))
     (IsShare c) (OriginalContentId c).
End Content.

Module DirectChat.
Record t : Type := mk {
  MessageId : string;
  Sender : string;
  Receiver : string;
  Content : string;
  Timestamp : Z;
  Seen : bool
}.

Definition mark_seen (m : t) : t :=
  mk (MessageId m) (Sender m) (Receiver m) (Content m) (Timestamp m) true.
End DirectChat.

(** Every response of [messages.proto] carries [success] and [message];
    [Data] is what the response carries besides. *)
Record Response (A : Type) : Type := mkResponse {
  Success : bool;
  Message : string;
  Data : A
}.
Arguments mkResponse {A} _ _ _.
Arguments Success {A} _.
Arguments Message {A} _.
Arguments Data {A} _.

(** The commands the actor receives, with the fields of their messages. *)
Inductive Command : Type :=
  | OnboardUser (UserHandle : string)
  | CreateForum (Name : string)
  | JoinForum (UserHandle Subreddit : string)
  | LeaveForum (UserHandle Subreddit : string)
  | CreateContent (UserHandle Subreddit Heading Body : string)
                  (IsShare : bool) (OriginalContentId : string)
  | CreateFeedback (UserHandle ContentId ParentId Body : string)
  | Reaction (UserHandle ItemId : string) (IsPositive IsContent : bool)
  | GetFeed (UserHandle SortMethod : string) (Limit : Z)
  | GetPost (ContentId : string)
  | GetForumDetails (ForumName : string)
  | SendDirectChat (Sender Receiver Content : string)
  | GetChats (UserHandle : string)
  | ActivityStatus (UserHandle : string) (IsOnline : bool).

(** ** [engine/social_engine.go]: the store *)

Module UserData.
Record t : Type := mk {
  Handle : string;
  Points : Z;
  Forums : gmap string bool;
  IsOnline : bool;
  LastSeen : time.Time
}.

Definition set_Forums (fs : gmap string bool) (u : t) : t :=
  mk (Handle u) (Points u) fs (IsOnline u) (LastSeen u).
Definition set_activity (online : bool) (seen : time.Time) (u : t) : t :=
  mk (Handle u) (Points u) (Forums u) online seen.
End UserData.

Module ForumData.
Record t : Type := mk {
  Name : string;
  Members : gmap string bool;
  Contents : list loc;
  Created : time.Time
}.

Definition set_Members (ms : gmap string bool) (f : t) : t :=
  mk (Name f) ms (Contents f) (Created f).
Definition add_content (l : loc) (f : t) : t :=
  mk (Name f) (Members f) (Contents f ++ [l]) (Created f).
End ForumData.

(** The five tables of the engine; [contents] and [feedbacks] hold
    pointers, whose targets are in [content_heap] and [feedback_heap]. An
    allocation appends to its heap, so a fresh location is the length of
    the heap. A [*proto.DirectChat] is referenced from one inbox only and
    is stored there by value. *)
Record SocialEngine : Type := mkEngine {
  users : gmap string UserData.t;
  forums : gmap string ForumData.t;
  contents : gmap string loc;
  feedbacks : gmap string loc;
  chats : gmap string (list DirectChat.t);
  content_heap : list Content.t;
  feedback_heap : list Feedback.t
}.

Definition set_users (u : gmap string UserData.t) (s : SocialEngine) :=
  mkEngine u (forums s) (contents s) (feedbacks s) (chats s)
           (content_heap s) (feedback_heap s).
Definition set_forums (f : gmap string ForumData.t) (s : SocialEngine) :=
  mkEngine (users s) f (contents s) (feedbacks s) (chats s)
           (content_heap s) (feedback_heap s).
Definition set_contents (c : gmap string loc) (s : SocialEngine) :=
  mkEngine (users s) (forums s) c (feedbacks s) (chats s)
           (content_heap s) (feedback_heap s).
Definition set_feedbacks (f : gmap string loc) (s : SocialEngine) :=
  mkEngine (users s) (forums s) (contents s) f (chats s)
           (content_heap s) (feedback_heap s).
Definition set_chats (c : gmap string (list DirectChat.t)) (s : SocialEngine) :=
  mkEngine (users s) (forums s) (contents s) (feedbacks s) c
           (content_heap s) (feedback_heap s).
Definition set_content_heap (h : list Content.t) (s : SocialEngine) :=
  mkEngine (users s) (forums s) (contents s) (feedbacks s) (chats s)
           h (feedback_heap s).
Definition set_feedback_heap (h : list Feedback.t) (s : SocialEngine) :=
  mkEngine (users s) (forums s) (contents s) (feedbacks s) (chats s)
           (content_heap s) h.

Definition NewSocialEngine : SocialEngine :=
  mkEngine ∅ ∅ ∅ ∅ ∅ [] [].

(** The inbox [s.chats[handle]]: empty when the key is missing. *)
Definition inbox (s : SocialEngine) (handle : string) : list DirectChat.t :=
  default [] (chats s !! handle).

Definition fail {A} (msg : string) (zero : A) : Response A :=
  mkResponse false msg zero.
Definition ok {A} (msg : string) (data : A) : Response A :=
  mkResponse true msg data.

(** ** [engine/social_engine.go]: the handlers

    A handler that takes the write lock returns the new store and its
    response; one that takes the read lock returns its response only. *)

Definition handleOnboarding (now : time.Time) (UserHandle : string)
    (s : SocialEngine) : SocialEngine * Response unit :=
  if decide (UserHandle = "") then (s, fail "Username cannot be empty" ())
  else match users s !! UserHandle with
  | Some _ => (s, fail "Username already exists" ())
  | None =>
      (set_users (<[UserHandle :=
                     UserData.mk UserHandle 0 ∅ true now]> (users s)) s,
       ok "User registered successfully" ())
  end.

Definition handleForumCreation (now : time.Time) (Name : string)
    (s : SocialEngine) : SocialEngine * Response unit :=
  if decide (Name = "") then (s, fail "Forum name cannot be empty" ())
  else match forums s !! Name with
  | Some _ => (s, fail "Forum already exists" ())
  | None =>
      (set_forums (<[Name := ForumData.mk Name ∅ [] now]> (forums s)) s,
       ok "Forum created successfully" ())
  end.

Definition handleForumJoin (UserHandle Subreddit : string)
    (s : SocialEngine) : SocialEngine * Response unit :=
  match users s !! UserHandle with
  | None => (s, fail "User not found" ())
  | Some user =>
    match forums s !! Subreddit with
    | None => (s, fail "Forum not found" ())
    | Some forum =>
      if index_bool (ForumData.Members forum) UserHandle
      then (s, fail "User already a member" ())
      else
        let forum' :=
          ForumData.set_Members
            (<[UserHandle := true]> (ForumData.Members forum)) forum in
        let user' :=
          UserData.set_Forums
            (<[Subreddit := true]> (UserData.Forums user)) user in
        (set_users (<[UserHandle := user']> (users s))
           (set_forums (<[Subreddit := forum']> (forums s)) s),
         ok "Joined forum successfully" ())
    end
  end.

Definition handleForumLeave (UserHandle Subreddit : string)
    (s : SocialEngine) : SocialEngine * Response unit :=
  match users s !! UserHandle, forums s !! Subreddit with
  | Some user, Some forum =>
      if negb (index_bool (ForumData.Members forum) UserHandle)
      then (s, fail "User is not a member" ())
      else
        let forum' :=
          ForumData.set_Members
            (delete UserHandle (ForumData.Members forum)) forum in
        let user' :=
          UserData.set_Forums
            (delete Subreddit (UserData.Forums user)) user in
        (set_users (<[UserHandle := user']> (users s))
           (set_forums (<[Subreddit := forum']> (forums s)) s),
         ok "Left forum successfully" ())
  | _, _ => (s, fail "User or forum not found" ())
  end.

(** The payload of [proto.ForumDetails]. *)
Record ForumDetails : Type := mkForumDetails {
  fd_Name : string;
  fd_MemberCount : Z;
  fd_Contents : list Content.t
}.

Definition handleGetForumDetails (ForumName : string) (s : SocialEngine)
    : Response ForumDetails :=
  match forums s !! ForumName with
  | None => fail "Forum not found" (mkForumDetails "" 0 [])
  | Some forum =>
      ok "Forum details retrieved successfully"
         (mkForumDetails (ForumData.Name forum)
            (Int.wrap32 (Z.of_nat (size (ForumData.Members forum))))
            (omap (λ l, content_heap s !! l) (ForumData.Contents forum)))
  end.

Definition handleContentCreation (now : time.Time) (hex : string)
    (UserHandle Subreddit Heading Body : string) (IsShare : bool)
    (OriginalContentId : string)
    (s : SocialEngine) : SocialEngine * Response string :=
  match users s !! UserHandle with
  | None => (s, fail "User not found" "")
  | Some _ =>
    match forums s !! Subreddit with
    | None => (s, fail "Forum not found" "")
    | Some forum =>
      let contentId := utils.GenerateID "cnt" hex in
      let content :=
        Content.mk contentId UserHandle Subreddit Heading Body
                   (time.Unix now) [] ∅ 0 IsShare OriginalContentId in
      let l := length (content_heap s) in
      (set_forums (<[Subreddit := ForumData.add_content l forum]> (forums s))
         (set_contents (<[contentId := l]> (contents s))
            (set_content_heap (content_heap s ++ [content]) s)),
       ok "Content created successfully" contentId)
    end
  end.

(** The feedback is entered in [s.feedbacks] before the parent is looked
    up, as in the source; the parent is therefore looked up in the table
    that already holds the new entry. *)
Definition handleFeedbackCreation (now : time.Time) (hex : string)
    (UserHandle ContentId ParentId Body : string)
    (s : SocialEngine) : SocialEngine * Response string :=
  match users s !! UserHandle with
  | None => (s, fail "User not found" "")
  | Some _ =>
    match contents s !! ContentId with
    | None => (s, fail "Content not found" "")
    | Some content =>
      let feedbackId := utils.GenerateID "fdb" hex in
      let feedback :=
        Feedback.mk feedbackId ContentId UserHandle Body (time.Unix now)
                    ParentId [] ∅ 0 in
      let l := length (feedback_heap s) in
      let s1 :=
        set_feedbacks (<[feedbackId := l]> (feedbacks s))
          (set_feedback_heap (feedback_heap s ++ [feedback]) s) in
      if decide (ParentId = "") then
        (set_content_heap
           (alter (Content.add_feedback l) content (content_heap s1)) s1,
         ok "Feedback created successfully" feedbackId)
      else match feedbacks s1 !! ParentId with
      | Some parent =>
          (set_feedback_heap
             (alter (Feedback.add_reply l) parent (feedback_heap s1)) s1,
           ok "Feedback created successfully" feedbackId)
      | None => (s1, fail "Parent feedback not found" "")
      end
    end
  end.

Definition handleReaction (UserHandle ItemId : string)
    (IsPositive IsContent : bool)
    (s : SocialEngine) : SocialEngine * Response unit :=
  match users s !! UserHandle with
  | None => (s, fail "User not found" ())
  | Some _ =>
    let value := if negb IsPositive then -1 else 1 in
    let found :=
      if IsContent then
        match contents s !! ItemId with
        | Some content =>
            Some (set_content_heap
                    (alter (Content.react UserHandle value) content
                           (content_heap s)) s)
        | None => None
        end
      else
        match feedbacks s !! ItemId with
        | Some feedback =>
            Some (set_feedback_heap
                    (alter (Feedback.react UserHandle value) feedback
                           (feedback_heap s)) s)
        | None => None
        end in
    match found with
    | None => (s, fail "Item not found" ())
    | Some s' => (s', ok "Reaction recorded successfully" ())
    end
  end.

Definition handleGetPost (ContentId : string) (s : SocialEngine)
    : Response (option Content.t) :=
  match contents s !! ContentId with
  | None => fail "Post not found" None
  | Some content =>
      ok "Post retrieved successfully" (content_heap s !! content)
  end.

Definition handleChatDelivery (now : time.Time) (hex : string)
    (Sender Receiver Content : string)
    (s : SocialEngine) : SocialEngine * Response unit :=
  match users s !! Sender with
  | None => (s, fail "Sender not found" ())
  | Some _ =>
    match users s !! Receiver with
    | None => (s, fail "Receiver not found" ())
    | Some _ =>
      let msg :=
        DirectChat.mk (utils.GenerateID "msg" hex) Sender Receiver Content
                      (time.Unix now) false in
      (set_chats (<[Receiver := inbox s Receiver ++ [msg]]> (chats s)) s,
       ok "Message delivered successfully" ())
    end
  end.

(** The messages are marked through their pointers, so the inbox and the
    response both see [Seen = true]. *)
Definition handleChatRetrieval (UserHandle : string)
    (s : SocialEngine) : SocialEngine * Response (list DirectChat.t) :=
  match users s !! UserHandle with
  | None => (s, fail "User not found" [])
  | Some _ =>
      let messages := DirectChat.mark_seen <$> inbox s UserHandle in
      (set_chats (alter (fmap DirectChat.mark_seen) UserHandle (chats s)) s,
       ok "Messages retrieved successfully" messages)
  end.

Definition handleActivityUpdate (now : time.Time) (UserHandle : string)
    (IsOnline : bool)
    (s : SocialEngine) : SocialEngine * Response unit :=
  match users s !! UserHandle with
  | None => (s, fail "User not found" ())
  | Some user =>
      (set_users
         (<[UserHandle := UserData.set_activity IsOnline now user]> (users s))
         s,
       ok "Activity status updated successfully" ())
  end.

(** [cleanup]; [now] and [now'] are its two readings of the clock. *)
Definition cleanup (now now' : time.Time) (s : SocialEngine) : SocialEngine :=
  let thirtyDaysAgo := time.Unix (time.AddDate_days now (-30)) in
  let chats' :=
    (λ messages : list DirectChat.t,
       filter (λ msg, DirectChat.Timestamp msg > thirtyDaysAgo) messages)
    <$> chats s in
  let fiveMinutesAgo := time.Add now' (-5 * time.Minute) in
  let users' :=
    (λ user,
       if UserData.IsOnline user
          && time.Before (UserData.LastSeen user) fiveMinutesAgo
       then UserData.set_activity false (UserData.LastSeen user) user
       else user)
    <$> users s in
  set_users users' (set_chats chats' s).

(** *** The feed

    Three things the feed takes from the Go runtime and library are left
    open: [math.Log10]; [sort.Slice], which sorts in place by a [less]
    function and promises no stability; and the order in which
    [for forumName := range user.Forums] visits the keys of the map. *)

(** The two counters of the [hot] comparison. *)
Definition count_ups (reactions : gmap string Z) : Z :=
  map_fold (λ _ value ups, if decide (value > 0) then ups + 1 else ups)
           0 reactions.
Definition count_downs (reactions : gmap string Z) : Z :=
  map_fold (λ _ value downs, if decide (value > 0) then downs else downs + 1)
           0 reactions.

Section Feed.
Variable Log10 : float64 -> float64.
Variable sort_Slice : ∀ A : Type, (A -> A -> bool) -> list A -> list A.
Variable range_keys : gmap string bool -> list string.

Definition hot_score (c : Content.t) : float64 :=
  utils.CalculateHotScore Log10
    (count_ups (Content.Reactions c)) (count_downs (Content.Reactions c))
    (Content.Timestamp c).

Definition less_hot (ci cj : Content.t) : bool :=
  gtb (hot_score ci) (hot_score cj).
Definition less_new (ci cj : Content.t) : bool :=
  Content.Timestamp ci >? Content.Timestamp cj.
Definition less_top (ci cj : Content.t) : bool :=
  Content.Points ci >? Content.Points cj.

(** The contents of the forums the user has joined, forum after forum. *)
Definition gather (user : UserData.t) (s : SocialEngine)
    : list Content.t :=
  forumName ← range_keys (UserData.Forums user);
  match forums s !! forumName with
  | Some forum =>
      omap (λ l, content_heap s !! l) (ForumData.Contents forum)
  | None => []
  end.

Definition rank (SortMethod : string) (contents : list Content.t)
    : list Content.t :=
  if decide (SortMethod = "hot") then sort_Slice _ less_hot contents
  else if decide (SortMethod = "new") then sort_Slice _ less_new contents
  else if decide (SortMethod = "top") then sort_Slice _ less_top contents
  else contents.

Definition truncate (Limit : Z) (contents : list Content.t)
    : list Content.t :=
  if (Limit >? 0) && (Z.of_nat (length contents) >? Limit)
  then take (Z.to_nat Limit) contents
  else contents.

Definition handleFeedRequest (UserHandle SortMethod : string) (Limit : Z)
    (s : SocialEngine) : Response (list Content.t) :=
  match users s !! UserHandle with
  | None => fail "User not found" []
  | Some user =>
      ok "Feed retrieved successfully"
         (truncate Limit (rank SortMethod (gather user s)))
  end.

(** The REST endpoint [getFeed] in front of the engine: it is there
    that a missing [sort] parameter becomes ["hot"], and the limit is
    always 50. A failure of the engine becomes an error; on success the
    endpoint names "Unknown" a content without id before it sends the
    contents. *)
Definition name_unknown (c : Content.t) : Content.t :=
  if decide (Content.ContentId c = "") then
    Content.mk "Unknown" (Content.Creator c) (Content.Subreddit c)
               (Content.Heading c) (Content.Body c) (Content.Timestamp c)
               (Content.Feedback c) (Content.Reactions c) (Content.Points c)
               (Content.IsShare c) (Content.OriginalContentId c)
  else c.

Definition getFeed (username sort : string) (s : SocialEngine)
    : Response (list Content.t) :=
  let sortMethod := if decide (sort = "") then "hot" else sort in
  let response := handleFeedRequest username sortMethod 50 s in
  if negb (Success response) then fail (Message response) []
  else ok (Message response) (name_unknown <$> Data response).
End Feed.

(** *** The actor *)

(** [Receive]: the dispatch on the type of the message. The three
    handlers under the read lock leave the store as it is. *)
Definition Receive (now : time.Time) (hex : string) (msg : Command)
    (s : SocialEngine) : SocialEngine :=
  match msg with
  | OnboardUser h => (handleOnboarding now h s).1
  | CreateForum n => (handleForumCreation now n s).1
  | JoinForum h f => (handleForumJoin h f s).1
  | LeaveForum h f => (handleForumLeave h f s).1
  | CreateContent h f t b sh o =>
      (handleContentCreation now hex h f t b sh o s).1
  | CreateFeedback h c p b => (handleFeedbackCreation now hex h c p b s).1
  | Reaction h i pos isc => (handleReaction h i pos isc s).1
  | GetFeed _ _ _ => s
  | GetPost _ => s
  | GetForumDetails _ => s
  | SendDirectChat a b c => (handleChatDelivery now hex a b c s).1
  | GetChats h => (handleChatRetrieval h s).1
  | ActivityStatus h o => (handleActivityUpdate now h o s).1
  end.

(** What happens to the store: a command is received, with the clock and
    the random bytes it finds, or the sweeper runs. *)
Inductive Event : Type :=
  | Received (now : time.Time) (hex : string) (msg : Command)
  | Swept (now now' : time.Time).

Definition exec (e : Event) (s : SocialEngine) : SocialEngine :=
  match e with
  | Received now hex msg => Receive now hex msg s
  | Swept now now' => cleanup now now' s
  end.

(** The events of a trace, the earliest first. *)
Definition run (tr : list Event) (s : SocialEngine) : SocialEngine :=
  foldl (λ s e, exec e s) s tr.

Definition reachable (s : SocialEngine) : Prop :=
  ∃ tr, s = run tr NewSocialEngine.

(** The receivers of the messages delivered along a trace. *)
Fixpoint receivers (tr : list Event) (s : SocialEngine) : list string :=
  match tr with
  | [] => []
  | e :: tr' =>
      match e with
      | Received now hex (SendDirectChat a b c) =>
          if Success (handleChatDelivery now hex a b c s).2
          then [b] else []
      | _ => []
      end ++ receivers tr' (exec e s)
  end.

(** *** Instances of the runtime

    Insertion sort stands for [sort.Slice] in the examples, [log10] for
    [math.Log10], and the canonical listing of a map for the order of its
    [range]. *)
Fixpoint insert_by {A} (less : A -> A -> bool) (x : A) (l : list A) : list A :=
  match l with
  | [] => [x]
  | y :: l' => if less y x then y :: insert_by less x l' else x :: y :: l'
  end.

Definition insertionSort (A : Type) (less : A -> A -> bool) (l : list A)
    : list A :=
  foldr (insert_by less) [] l.

(** The keys of a map in the order of its canonical listing. *)
Definition keys_in_order (m : gmap string bool) : list string :=
  (map_to_list m).*1.

(** ** What the properties are stated with *)

(** What [sort.Slice] asks of [less]: a strict weak ordering, here of the
    elements that are sorted. *)
Definition strict_weak_order_on {A} (less : A -> A -> bool) (l : list A)
    : Prop :=
  (∀ x, x ∈ l -> less x x = false) ∧
  (∀ x y z, x ∈ l -> y ∈ l -> z ∈ l ->
     less x y = true -> less y z = true -> less x z = true) ∧
  (∀ x y z, x ∈ l -> y ∈ l -> z ∈ l ->
     less x y = false -> less y z = false -> less x z = false).

(** What [sort.Slice] gives: the same elements, and no element that is
    [less] than one before it. *)
Definition sorted_by {A} (less : A -> A -> bool) (l : list A) : Prop :=
  StronglySorted (λ x y, less y x = false) l.

Record sort_Slice_spec
    (sort_Slice : ∀ A : Type, (A -> A -> bool) -> list A -> list A) : Prop := {
  sort_Slice_perm : ∀ A (less : A -> A -> bool) l, sort_Slice A less l ≡ₚ l;
  sort_Slice_sorted : ∀ A (less : A -> A -> bool) l,
    strict_weak_order_on less l -> sorted_by less (sort_Slice A less l)
}.

(** The order of the floats that are not NaN, as an order of keys: the
    class of the float, then its exponent, then its mantissa. *)
Module FloatOrder.
Definition cls (x : float64) : Z :=
  match x with
  | S754_infinity true => -2
  | S754_finite true _ _ => -1
  | S754_zero _ | S754_nan => 0
  | S754_finite false _ _ => 1
  | S754_infinity false => 2
  end.
Definition expo (x : float64) : Z :=
  match x with
  | S754_finite true _ e => - e
  | S754_finite false _ e => e
  | _ => 0
  end.
Definition mant (x : float64) : Z :=
  match x with
  | S754_finite true m _ => Z.neg m
  | S754_finite false m _ => Z.pos m
  | _ => 0
  end.
Definition lt (x y : float64) : Prop :=
  cls x < cls y ∨
  (cls x = cls y ∧ (expo x < expo y ∨ (expo x = expo y ∧ mant x < mant y))).
End FloatOrder.

(** The sum of the values of a reaction map. *)
Definition sum_reactions (reactions : gmap string Z) : Z :=
  map_fold (λ _ value acc, value + acc) 0 reactions.

(** A reaction map and the points beside it: every value is a vote, and
    the points are the [int32] sum of the votes. *)
Definition reactions_ok (reactions : gmap string Z) (points : Z) : Prop :=
  (∀ k v, reactions !! k = Some v -> v = 1 ∨ v = -1) ∧
  points = Int.wrap32 (sum_reactions reactions).

Definition points_inv (s : SocialEngine) : Prop :=
  Forall (λ c, reactions_ok (Content.Reactions c) (Content.Points c))
         (content_heap s) ∧
  Forall (λ f, reactions_ok (Feedback.Reactions f) (Feedback.Points f))
         (feedback_heap s).

(** The two sides of a membership: the handle is a key of the forum's
    [Members]; the forum is a key of the user's [Forums]. *)
Definition in_Members (s : SocialEngine) (handle forum : string) : Prop :=
  ∃ fd, forums s !! forum = Some fd ∧
        is_Some (ForumData.Members fd !! handle).
Definition in_Forums (s : SocialEngine) (handle forum : string) : Prop :=
  ∃ u, users s !! handle = Some u ∧
       is_Some (UserData.Forums u !! forum).

(** The invariant behind the symmetry, on the two families of sets: a
    stored flag is [true], and has its mirror on the other side. *)
Definition mirrored (U F : gmap string (gmap string bool)) : Prop :=
  (∀ h f ms b, F !! f = Some ms -> ms !! h = Some b ->
     b = true ∧ ∃ fs, U !! h = Some fs ∧ fs !! f = Some true) ∧
  (∀ h f fs b, U !! h = Some fs -> fs !! f = Some b ->
     b = true ∧ ∃ ms, F !! f = Some ms ∧ ms !! h = Some true).

Definition Forums_of (s : SocialEngine) : gmap string (gmap string bool) :=
  UserData.Forums <$> users s.
Definition Members_of (s : SocialEngine) : gmap string (gmap string bool) :=
  ForumData.Members <$> forums s.

Definition membership_inv (s : SocialEngine) : Prop :=
  mirrored (Forums_of s) (Members_of s).

(** ** A small history, on which the statements are tried

    Three users, one forum that two of them join, two posts forty-five thousand seconds apart (the
    first at the epoch of the hot score), a vote, a comment, a message. *)
Definition t0 : time.Time := 1577836800 * time.Second.
Definition t1 : time.Time := (1577836800 + 45000) * time.Second.

Definition demo_trace : list Event :=
  [ Received t0 "" (OnboardUser "alice");
    Received t0 "" (OnboardUser "bob");
    Received t0 "" (OnboardUser "carol");
    Received t0 "" (CreateForum "go");
    Received t0 "" (JoinForum "alice" "go");
    Received t0 "" (JoinForum "bob" "go");
    Received t0 "01" (CreateContent "alice" "go" "hi" "first" false "");
    Received t1 "02" (CreateContent "bob" "go" "yo" "second" false "");
    Received t1 "" (Reaction "bob" "cnt_01" true true);
    Received t1 "03" (CreateFeedback "bob" "cnt_01" "" "nice");
    Received t1 "04" (SendDirectChat "alice" "bob" "hey") ].

Definition demo : SocialEngine := run demo_trace NewSocialEngine.

Definition demo_carol : UserData.t := UserData.mk "carol" 0 ∅ true t0.
Definition demo_go : ForumData.t :=
  default (ForumData.mk "" ∅ [] 0) (forums demo !! "go").
Definition demo_post : Content.t :=
  default (Content.mk "" "" "" "" "" 0 [] ∅ 0 false "") (content_heap demo !! 0%nat).

(** A second history, in which the votes decide the order of the hot
    feed: the oldest post is voted down three times, the second gets four
    votes up and one down, the newest gets none. *)
Definition hot_trace : list Event :=
  [ Received t0 "" (OnboardUser "alice");
    Received t0 "" (OnboardUser "bob");
    Received t0 "" (OnboardUser "carol");
    Received t0 "" (OnboardUser "dave");
    Received t0 "" (OnboardUser "erin");
    Received t0 "" (CreateForum "go");
    Received t0 "" (JoinForum "alice" "go");
    Received t0 "0a" (CreateContent "bob" "go" "cold" "" false "");
    Received (t0 + 4500 * time.Second) "0b"
             (CreateContent "carol" "go" "hot" "" false "");
    Received (t0 + 9000 * time.Second) "0c"
             (CreateContent "dave" "go" "fresh" "" false "");
    Received t1 "" (Reaction "bob" "cnt_0a" false true);
    Received t1 "" (Reaction "carol" "cnt_0a" false true);
    Received t1 "" (Reaction "dave" "cnt_0a" false true);
    Received t1 "" (Reaction "bob" "cnt_0b" true true);
    Received t1 "" (Reaction "carol" "cnt_0b" true true);
    Received t1 "" (Reaction "dave" "cnt_0b" true true);
    Received t1 "" (Reaction "erin" "cnt_0b" true true);
    Received t1 "" (Reaction "alice" "cnt_0b" false true) ].

Definition hot_demo : SocialEngine := run hot_trace NewSocialEngine.

(** No pointer of the store dangles: every location held by a table, a
    forum, a content or a feedback is allocated. *)
Definition heap_wf (s : SocialEngine) : Prop :=
  (∀ id l, contents s !! id = Some l -> (l < length (content_heap s))%nat) ∧
  (∀ id l, feedbacks s !! id = Some l -> (l < length (feedback_heap s))%nat) ∧
  (∀ name forum, forums s !! name = Some forum ->
     Forall (λ l, (l < length (content_heap s))%nat)
            (ForumData.Contents forum)) ∧
  Forall (λ c, Forall (λ l, (l < length (feedback_heap s))%nat)
                      (Content.Feedback c)) (content_heap s) ∧
  Forall (λ f, Forall (λ l, (l < length (feedback_heap s))%nat)
                      (Feedback.Replies f)) (feedback_heap s).

(** ** The rest of [engine/social_engine.go] *)

Definition getOnlineUserCount (s : SocialEngine) : Z :=
  map_fold (λ _ user count,
              if UserData.IsOnline user then count + 1 else count)
           0 (users s).

(** The map that [getStats] returns, by its keys. *)
Record Stats : Type := mkStats {
  total_users : Z;
  total_forums : Z;
  total_posts : Z;
  total_comments : Z;
  online_users : Z
}.

Definition getStats (s : SocialEngine) : Stats :=
  mkStats (Z.of_nat (size (users s))) (Z.of_nat (size (forums s)))
          (Z.of_nat (size (contents s))) (Z.of_nat (size (feedbacks s)))
          (getOnlineUserCount s).

(** ** [rest/server.go]: what each endpoint asks of the engine

    A request, once its body and its path are decoded, becomes one
    message to the actor. *)
Module rest.
Inductive Request : Type :=
  | registerUser (Username : string)
  | updateUserStatus (username : string) (IsOnline : bool)
  | createForum (Name Description : string)
  | joinForum (forumName Username : string)
  | leaveForum (forumName Username : string)
  | getForumDetails (forumName : string)
  | createPost (Username Subreddit Title Content : string)
               (IsRepost : bool) (OriginalId : string)
  | getPost (postId : string)
  | createComment (postId Username Content ParentId : string)
  | vote (postId Username : string) (IsUpvote : bool)
  | getFeed (username sort : string)
  | sendMessage (SenderUsername ReceiverUsername Content : string)
  | getMessages (username : string).

Definition message (r : Request) : Command :=
  match r with
  | registerUser u => OnboardUser u
  | updateUserStatus u o => ActivityStatus u o
  | createForum n _ => CreateForum n
  | joinForum f u => JoinForum u f
  | leaveForum f u => LeaveForum u f
  | getForumDetails f => GetForumDetails f
  | createPost u f t c sh o => CreateContent u f t c sh o
  | getPost p => GetPost p
  | createComment p u c parent => CreateFeedback u p parent c
  | vote p u up => Reaction u p up true
  | getFeed u sort => GetFeed u (if decide (sort = "") then "hot" else sort) 50
  | sendMessage a b c => SendDirectChat a b c
  | getMessages u => GetChats u
  end.

(** A history in which every command comes from the server: requests,
    and the sweeps of the engine between them. *)
Definition served (tr : list Event) : Prop :=
  Forall (λ e, (∃ now hex r, e = Received now hex (message r)) ∨
               ∃ now now', e = Swept now now') tr.
End rest.

(** ** More of what the properties are stated with *)

(** What [for k := range m] asks of the runtime: each key, once. *)
Definition range_keys_spec (range_keys : gmap string bool -> list string)
    : Prop :=
  ∀ m, NoDup (range_keys m) ∧ ∀ k, k ∈ range_keys m <-> is_Some (m !! k).

(** The fields of a content that no handler writes. *)
Definition same_post (c c' : Content.t) : Prop :=
  Content.ContentId c' = Content.ContentId c ∧
  Content.Creator c' = Content.Creator c ∧
  Content.Subreddit c' = Content.Subreddit c ∧
  Content.Heading c' = Content.Heading c ∧
  Content.Body c' = Content.Body c ∧
  Content.Timestamp c' = Content.Timestamp c ∧
  Content.IsShare c' = Content.IsShare c ∧
  Content.OriginalContentId c' = Content.OriginalContentId c.

(** The fields of a feedback that no handler writes. *)
Definition same_comment (f f' : Feedback.t) : Prop :=
  Feedback.FeedbackId f' = Feedback.FeedbackId f ∧
  Feedback.ContentId f' = Feedback.ContentId f ∧
  Feedback.Creator f' = Feedback.Creator f ∧
  Feedback.Body f' = Feedback.Body f ∧
  Feedback.Timestamp f' = Feedback.Timestamp f ∧
  Feedback.ParentId f' = Feedback.ParentId f.

(** What a later store keeps of an earlier one: the registered users and
    forums, the ids of contents and feedback, and of each content and
    feedback the fixed fields and the comments it had, in their order. *)
Definition extends (s s' : SocialEngine) : Prop :=
  (∀ h u, users s !! h = Some u ->
     ∃ u', users s' !! h = Some u' ∧
           UserData.Handle u' = UserData.Handle u ∧
           UserData.Points u' = UserData.Points u) ∧
  (∀ n f, forums s !! n = Some f ->
     ∃ f', forums s' !! n = Some f' ∧
           ForumData.Name f' = ForumData.Name f ∧
           ForumData.Created f' = ForumData.Created f ∧
           ForumData.Contents f `prefix_of` ForumData.Contents f') ∧
  (∀ id, is_Some (contents s !! id) -> is_Some (contents s' !! id)) ∧
  (∀ id, is_Some (feedbacks s !! id) -> is_Some (feedbacks s' !! id)) ∧
  (∀ l c, content_heap s !! l = Some c ->
     ∃ c', content_heap s' !! l = Some c' ∧ same_post c c' ∧
           Content.Feedback c `prefix_of` Content.Feedback c') ∧
  (∀ l f, feedback_heap s !! l = Some f ->
     ∃ f', feedback_heap s' !! l = Some f' ∧ same_comment f f' ∧
           Feedback.Replies f `prefix_of` Feedback.Replies f').

(** Names and keys: a user is filed under its handle, a forum under its
    name, neither is empty, and nobody has points. *)
Definition names_inv (s : SocialEngine) : Prop :=
  (∀ h u, users s !! h = Some u ->
     UserData.Handle u = h ∧ h ≠ "" ∧ UserData.Points u = 0) ∧
  (∀ n f, forums s !! n = Some f -> ForumData.Name f = n ∧ n ≠ "").

(** References: what a content, a feedback and a table entry point to is
    there. *)
Definition references_inv (s : SocialEngine) : Prop :=
  Forall (λ c, is_Some (users s !! Content.Creator c) ∧
               is_Some (forums s !! Content.Subreddit c) ∧
               ∃ hex, Content.ContentId c = utils.GenerateID "cnt" hex)
         (content_heap s) ∧
  Forall (λ f, is_Some (users s !! Feedback.Creator f) ∧
               is_Some (contents s !! Feedback.ContentId f) ∧
               ∃ hex, Feedback.FeedbackId f = utils.GenerateID "fdb" hex)
         (feedback_heap s) ∧
  (∀ id l, contents s !! id = Some l ->
     ∃ c, content_heap s !! l = Some c ∧ Content.ContentId c = id) ∧
  (∀ id l, feedbacks s !! id = Some l ->
     ∃ f, feedback_heap s !! l = Some f ∧ Feedback.FeedbackId f = id).

(** The lists of the forums: a forum lists its own contents, each once,
    and every content is listed by its forum. *)
Definition listing_inv (s : SocialEngine) : Prop :=
  (∀ n f, forums s !! n = Some f ->
     NoDup (ForumData.Contents f) ∧
     ∀ l, l ∈ ForumData.Contents f ->
          ∃ c, content_heap s !! l = Some c ∧ Content.Subreddit c = n) ∧
  (∀ l c, content_heap s !! l = Some c ->
     ∃ f, forums s !! Content.Subreddit c = Some f ∧
          l ∈ ForumData.Contents f).

(** The inboxes: an inbox belongs to a registered user and holds the
    messages sent to that user by registered users. *)
Definition inbox_inv (s : SocialEngine) : Prop :=
  ∀ h msgs, chats s !! h = Some msgs ->
    is_Some (users s !! h) ∧
    Forall (λ m, DirectChat.Receiver m = h ∧
                 is_Some (users s !! DirectChat.Sender m) ∧
                 ∃ hex, DirectChat.MessageId m = utils.GenerateID "msg" hex)
           msgs.

(** What is kept of a content, and of a feedback. *)
Definition kept_post (c c' : Content.t) : Prop :=
  same_post c c' ∧ Content.Feedback c `prefix_of` Content.Feedback c'.
Definition kept_comment (f f' : Feedback.t) : Prop :=
  same_comment f f' ∧ Feedback.Replies f `prefix_of` Feedback.Replies f'.

(** What [references_inv] asks of a content and of a feedback. *)
Definition content_refs (s : SocialEngine) (c : Content.t) : Prop :=
  is_Some (users s !! Content.Creator c) ∧
  is_Some (forums s !! Content.Subreddit c) ∧
  ∃ hex, Content.ContentId c = utils.GenerateID "cnt" hex.
Definition feedback_refs (s : SocialEngine) (f : Feedback.t) : Prop :=
  is_Some (users s !! Feedback.Creator f) ∧
  is_Some (contents s !! Feedback.ContentId f) ∧
  ∃ hex, Feedback.FeedbackId f = utils.GenerateID "fdb" hex.

(** ** The model of float64 against known values of Go's [math] *)

Example log10_known_values :
  log10 (of_int 1) = zero /\
  log10 (of_int 1000) = of_int 3 /\
  log10 (of_int 3) = Float64frombits 0x3FDE8927964FD5FC /\
  log10 (of_int 7) = Float64frombits 0x3FEB0B0B0B78CC3F /\
  log (of_int 3) = Float64frombits 0x3FF193EA7AAD030A.
Proof. vm_compute. auto 6. Qed.

(** Two scores that the rounding makes equal: six hundred votes against
    sixty votes forty-five thousand seconds later. *)
Example hot_score_known_values :
  utils.CalculateHotScore log10 3 0 1577836800
  = Float64frombits 0x3FDE8927964FD5FC /\
  utils.CalculateHotScore log10 600 0 1704067202
  = Float64frombits 0x40A5EFCBE04E5D63 /\
  utils.CalculateHotScore log10 60 0 1704112202
  = Float64frombits 0x40A5EFCBE04E5D63.
Proof. vm_compute. auto. Qed.

(** ** The order of float64 *)

Lemma SFltb_lt x y :
  IsNaN x = false -> IsNaN y = false ->
  SFltb x y = true <-> FloatOrder.lt x y.
Proof.
  unfold SFltb, FloatOrder.lt.
  destruct x as [sx|sx| |sx mx ex], y as [sy|sy| |sy my ey]; try discriminate;
    intros _ _; try destruct sx; try destruct sy; simpl;
    try (split; [discriminate | lia]); try (split; [lia | done]);
    try (split; [done | lia]).
  - change (PosDef.Pos.compare_cont Eq mx my) with (Pos.compare mx my).
    destruct (Z.compare_spec ex ey), (Pos.compare_spec mx my); simpl;
      (split; [first [discriminate | lia] | first [done | lia]]).
  - change (PosDef.Pos.compare_cont Eq mx my) with (Pos.compare mx my).
    destruct (Z.compare_spec ex ey), (Pos.compare_spec mx my); simpl;
      (split; [first [discriminate | lia] | first [done | lia]]).
Qed.

Lemma SFltb_nan_l y : SFltb S754_nan y = false.
Proof. done. Qed.
Lemma SFltb_nan_r x : SFltb x S754_nan = false.
Proof. by destruct x. Qed.

Lemma SFleb_not_lt x y :
  IsNaN x = false -> IsNaN y = false ->
  SFleb x y = true <-> ¬ FloatOrder.lt y x.
Proof.
  unfold SFleb, FloatOrder.lt.
  destruct x as [sx|sx| |sx mx ex], y as [sy|sy| |sy my ey]; try discriminate;
    intros _ _; try destruct sx; try destruct sy; simpl;
    try (split; [discriminate | lia]); try (split; [lia | done]);
    try (split; [done | lia]).
  - change (PosDef.Pos.compare_cont Eq mx my) with (Pos.compare mx my).
    destruct (Z.compare_spec ex ey), (Pos.compare_spec mx my); simpl;
      (split; [first [discriminate | lia] | first [done | lia]]).
  - change (PosDef.Pos.compare_cont Eq mx my) with (Pos.compare mx my).
    destruct (Z.compare_spec ex ey), (Pos.compare_spec mx my); simpl;
      (split; [first [discriminate | lia] | first [done | lia]]).
Qed.

Lemma strict_weak_order_on_sub {A} (less : A -> A -> bool) l l' :
  (∀ z, z ∈ l' -> z ∈ l) ->
  strict_weak_order_on less l -> strict_weak_order_on less l'.
Proof.
  intros Hsub (Hirr & Htr & Hneg). split_and!.
  - intros z Hz. apply Hirr; auto.
  - intros a b c ???. apply Htr; auto.
  - intros a b c ???. apply Hneg; auto.
Qed.

Section InsertionSort.
Context {A : Type} (less : A -> A -> bool).

Lemma insert_by_perm x l : insert_by less x l ≡ₚ x :: l.
Proof.
  induction l as [|y l IH]; simpl; [done|].
  destruct (less y x); [|done].
  by rewrite IH, Permutation_swap.
Qed.

Lemma insertionSort_perm l : insertionSort A less l ≡ₚ l.
Proof.
  unfold insertionSort. induction l as [|x l IH]; simpl; [done|].
  by rewrite insert_by_perm, IH.
Qed.

Lemma insert_by_sorted x l :
  strict_weak_order_on less (x :: l) ->
  sorted_by less l -> sorted_by less (insert_by less x l).
Proof.
  unfold sorted_by.
  induction l as [|y l IH]; simpl; intros Hswo Hs.
  - repeat constructor.
  - pose proof Hswo as (Hirr & Htr & Hneg).
    assert (Hx : x ∈ x :: y :: l) by left.
    assert (Hy : y ∈ x :: y :: l) by (right; left).
    apply StronglySorted_cons in Hs as [Hyl Hs].
    destruct (less y x) eqn:Hyx.
    + apply StronglySorted_cons. split.
      * rewrite insert_by_perm. constructor; [|done].
        destruct (less x y) eqn:Hxy; [|done].
        rewrite <- (Hirr y Hy). symmetry. by apply (Htr y x y).
      * apply IH; [|done].
        eapply strict_weak_order_on_sub; [|exact Hswo].
        intros z Hz. apply elem_of_cons in Hz as [->|Hz]; [done|].
        by do 2 right.
    + apply StronglySorted_cons. split.
      * constructor; [done|].
        rewrite Forall_forall in Hyl |- *. intros z Hz.
        apply (Hneg z y x); [by do 2 right|done|done| |done]. by apply Hyl.
      * by apply StronglySorted_cons.
Qed.

Lemma insertionSort_sorted l :
  strict_weak_order_on less l -> sorted_by less (insertionSort A less l).
Proof.
  induction l as [|x l IH]; intros Hswo.
  - constructor.
  - change (insertionSort A less (x :: l))
      with (insert_by less x (insertionSort A less l)).
    apply insert_by_sorted.
    + eapply strict_weak_order_on_sub; [|exact Hswo].
      intros z. by rewrite (insertionSort_perm l).
    + apply IH. eapply strict_weak_order_on_sub; [|exact Hswo].
      intros z Hz. by right.
Qed.
End InsertionSort.

Lemma insertionSort_spec : sort_Slice_spec insertionSort.
Proof.
  split; intros.
  - apply insertionSort_perm.
  - by apply insertionSort_sorted.
Qed.

Lemma sorted_by_take {A} (R : relation A) n l :
  StronglySorted R l -> StronglySorted R (take n l).
Proof.
  intros Hs. rewrite <- (take_drop n l) in Hs.
  by apply StronglySorted_app_1_l in Hs.
Qed.

Lemma StronglySorted_impl {A} (R1 R2 : relation A) l :
  (∀ x y, x ∈ l -> y ∈ l -> R1 x y -> R2 x y) ->
  StronglySorted R1 l -> StronglySorted R2 l.
Proof.
  induction l as [|x l IH]; intros HR Hs; [constructor|].
  apply StronglySorted_cons in Hs as [Hx Hs].
  apply StronglySorted_cons. split.
  - rewrite Forall_forall in Hx |- *. intros y Hy.
    apply HR; [left|by right|by apply Hx].
  - apply IH; [|done]. intros a b Ha Hb. apply HR; by right.
Qed.

Lemma less_top_swo l : strict_weak_order_on less_top l.
Proof. unfold less_top; split_and!; intros; lia. Qed.

Lemma less_new_swo l : strict_weak_order_on less_new l.
Proof. unfold less_new; split_and!; intros; lia. Qed.

Lemma less_hot_swo Log10 l :
  (∀ c, c ∈ l -> IsNaN (hot_score Log10 c) = false) ->
  strict_weak_order_on (less_hot Log10) l.
Proof.
  intros Hnan. unfold less_hot, gtb. split_and!.
  - intros x Hx. apply not_true_is_false. rewrite SFltb_lt by auto.
    unfold FloatOrder.lt. lia.
  - intros x y z Hx Hy Hz. rewrite !SFltb_lt by auto.
    unfold FloatOrder.lt. lia.
  - intros x y z Hx Hy Hz. rewrite <- !not_true_iff_false.
    rewrite !SFltb_lt by auto. unfold FloatOrder.lt. lia.
Qed.

Lemma truncate_length Limit l :
  Limit > 0 -> Z.of_nat (length (truncate Limit l)) <= Limit.
Proof.
  intros HL. unfold truncate.
  destruct (Limit >? 0) eqn:E1; [|lia].
  destruct (Z.of_nat (length l) >? Limit) eqn:E2; simpl.
  - rewrite length_take. lia.
  - lia.
Qed.

Lemma truncate_sorted (R : relation Content.t) Limit l :
  StronglySorted R l -> StronglySorted R (truncate Limit l).
Proof.
  intros Hs. unfold truncate.
  destruct (_ && _); [by apply sorted_by_take|done].
Qed.

Lemma truncate_elem_of Limit l c : c ∈ truncate Limit l -> c ∈ l.
Proof.
  unfold truncate. destruct (_ && _); [|done].
  apply (subseteq_take _ _ _).
Qed.

Section FeedProperties.
Variable Log10 : float64 -> float64.
Variable sort_Slice : ∀ A : Type, (A -> A -> bool) -> list A -> list A.
Variable range_keys : gmap string bool -> list string.
Hypothesis sort_Slice_ok : sort_Slice_spec sort_Slice.

Lemma rank_perm SortMethod l :
  rank Log10 sort_Slice SortMethod l ≡ₚ l.
Proof.
  unfold rank. repeat case_decide; try done;
    apply (sort_Slice_perm _ sort_Slice_ok).
Qed.

Lemma rank_top l :
  StronglySorted (λ ci cj, Content.Points ci >= Content.Points cj)
    (rank Log10 sort_Slice "top" l).
Proof.
  unfold rank. repeat case_decide; try done.
  eapply StronglySorted_impl;
    [|apply (sort_Slice_sorted _ sort_Slice_ok), less_top_swo].
  unfold less_top. simpl. intros. lia.
Qed.

Lemma rank_new l :
  StronglySorted (λ ci cj, Content.Timestamp ci >= Content.Timestamp cj)
    (rank Log10 sort_Slice "new" l).
Proof.
  unfold rank. repeat case_decide; try done.
  eapply StronglySorted_impl;
    [|apply (sort_Slice_sorted _ sort_Slice_ok), less_new_swo].
  unfold less_new. simpl. intros. lia.
Qed.

Lemma rank_hot l :
  (∀ c, c ∈ l -> IsNaN (hot_score Log10 c) = false) ->
  StronglySorted
    (λ ci cj, leb (hot_score Log10 cj) (hot_score Log10 ci) = true)
    (rank Log10 sort_Slice "hot" l).
Proof.
  intros Hnan. unfold rank. repeat case_decide; try done.
  eapply StronglySorted_impl;
    [|apply (sort_Slice_sorted _ sort_Slice_ok), less_hot_swo, Hnan].
  simpl. intros x y Hx Hy. unfold less_hot, gtb, leb.
  rewrite (sort_Slice_perm _ sort_Slice_ok) in Hx, Hy.
  rewrite <- not_true_iff_false, SFltb_lt, SFleb_not_lt by auto. done.
Qed.

Lemma rank_other SortMethod l :
  SortMethod ≠ "hot" -> SortMethod ≠ "new" -> SortMethod ≠ "top" ->
  rank Log10 sort_Slice SortMethod l = l.
Proof. intros. unfold rank. by repeat case_decide. Qed.
End FeedProperties.

(** ** Membership *)

Lemma mirrored_empty : mirrored ∅ ∅.
Proof. split; intros; simplify_map_eq. Qed.

Lemma mirrored_new_user U F h :
  U !! h = None -> mirrored U F -> mirrored (<[h := ∅]> U) F.
Proof.
  intros Hh [HF HU]. split.
  - intros h' f ms b Hf Hb. destruct (HF _ _ _ _ Hf Hb) as (-> & fs & Hfs & Hm).
    split; [done|]. exists fs. split; [|done].
    rewrite lookup_insert_ne; [done|]. intros ->. congruence.
  - intros h' f fs b Hfs Hb. apply lookup_insert_Some in Hfs as [[<- <-]|[? Hfs]].
    + by rewrite lookup_empty in Hb.
    + by apply (HU _ _ _ _ Hfs Hb).
Qed.

Lemma mirrored_new_forum U F f :
  F !! f = None -> mirrored U F -> mirrored U (<[f := ∅]> F).
Proof.
  intros Hf [HF HU]. split.
  - intros h f' ms b Hms Hb. apply lookup_insert_Some in Hms as [[<- <-]|[? Hms]].
    + by rewrite lookup_empty in Hb.
    + by apply (HF _ _ _ _ Hms Hb).
  - intros h f' fs b Hfs Hb. destruct (HU _ _ _ _ Hfs Hb) as (-> & ms & Hms & Hm).
    split; [done|]. exists ms. split; [|done].
    rewrite lookup_insert_ne; [done|]. intros ->. congruence.
Qed.

Lemma mirrored_join U F h f fs ms :
  U !! h = Some fs -> F !! f = Some ms -> mirrored U F ->
  mirrored (<[h := <[f := true]> fs]> U) (<[f := <[h := true]> ms]> F).
Proof.
  intros Hh Hf [HF HU]. split.
  - intros h' f' ms' b Hms' Hb.
    apply lookup_insert_Some in Hms' as [[<- <-]|[Hne Hms']].
    + apply lookup_insert_Some in Hb as [[<- <-]|[Hne Hb]].
      * split; [done|]. eexists. rewrite lookup_insert_eq. split; [done|].
        apply lookup_insert_eq.
      * destruct (HF _ _ _ _ Hf Hb) as (-> & fs' & Hfs' & Hm).
        split; [done|]. exists fs'. by rewrite lookup_insert_ne.
    + destruct (HF _ _ _ _ Hms' Hb) as (-> & fs' & Hfs' & Hm). split; [done|].
      destruct (decide (h = h')) as [<-|Hne'].
      * eexists. rewrite lookup_insert_eq. split; [done|].
        rewrite lookup_insert_ne by done. congruence.
      * exists fs'. by rewrite lookup_insert_ne.
  - intros h' f' fs' b Hfs' Hb.
    apply lookup_insert_Some in Hfs' as [[<- <-]|[Hne Hfs']].
    + apply lookup_insert_Some in Hb as [[<- <-]|[Hne Hb]].
      * split; [done|]. eexists. rewrite lookup_insert_eq. split; [done|].
        apply lookup_insert_eq.
      * destruct (HU _ _ _ _ Hh Hb) as (-> & ms' & Hms' & Hm).
        split; [done|]. exists ms'. by rewrite lookup_insert_ne.
    + destruct (HU _ _ _ _ Hfs' Hb) as (-> & ms' & Hms' & Hm). split; [done|].
      destruct (decide (f = f')) as [<-|Hne'].
      * eexists. rewrite lookup_insert_eq. split; [done|].
        rewrite lookup_insert_ne by done. congruence.
      * exists ms'. by rewrite lookup_insert_ne.
Qed.

Lemma mirrored_leave U F h f fs ms :
  U !! h = Some fs -> F !! f = Some ms -> mirrored U F ->
  mirrored (<[h := delete f fs]> U) (<[f := delete h ms]> F).
Proof.
  intros Hh Hf [HF HU]. split.
  - intros h' f' ms' b Hms' Hb.
    apply lookup_insert_Some in Hms' as [[<- <-]|[Hne Hms']].
    + apply lookup_delete_Some in Hb as [Hne Hb].
      destruct (HF _ _ _ _ Hf Hb) as (-> & fs' & Hfs' & Hm).
      split; [done|]. exists fs'. by rewrite lookup_insert_ne.
    + destruct (HF _ _ _ _ Hms' Hb) as (-> & fs' & Hfs' & Hm). split; [done|].
      destruct (decide (h = h')) as [<-|Hne'].
      * eexists. rewrite lookup_insert_eq. split; [done|].
        rewrite lookup_delete_ne by done. congruence.
      * exists fs'. by rewrite lookup_insert_ne.
  - intros h' f' fs' b Hfs' Hb.
    apply lookup_insert_Some in Hfs' as [[<- <-]|[Hne Hfs']].
    + apply lookup_delete_Some in Hb as [Hne Hb].
      destruct (HU _ _ _ _ Hh Hb) as (-> & ms' & Hms' & Hm).
      split; [done|]. exists ms'. by rewrite lookup_insert_ne.
    + destruct (HU _ _ _ _ Hfs' Hb) as (-> & ms' & Hms' & Hm). split; [done|].
      destruct (decide (f = f')) as [<-|Hne'].
      * eexists. rewrite lookup_insert_eq. split; [done|].
        rewrite lookup_delete_ne by done. congruence.
      * exists ms'. by rewrite lookup_insert_ne.
Qed.

Lemma Forums_of_lookup s h :
  Forums_of s !! h = UserData.Forums <$> users s !! h.
Proof. apply lookup_fmap. Qed.

Lemma Members_of_lookup s f :
  Members_of s !! f = ForumData.Members <$> forums s !! f.
Proof. apply lookup_fmap. Qed.

Lemma membership_inv_same s s' :
  Forums_of s' = Forums_of s -> Members_of s' = Members_of s ->
  membership_inv s -> membership_inv s'.
Proof. unfold membership_inv. by intros -> ->. Qed.

Lemma handleOnboarding_membership now h s :
  membership_inv s -> membership_inv (handleOnboarding now h s).1.
Proof.
  unfold handleOnboarding. case_decide; [done|].
  destruct (users s !! h) eqn:Hu; [done|]. simpl.
  unfold membership_inv, Forums_of, Members_of. simpl.
  rewrite fmap_insert. simpl. apply mirrored_new_user.
  by rewrite lookup_fmap, Hu.
Qed.

Lemma handleForumCreation_membership now n s :
  membership_inv s -> membership_inv (handleForumCreation now n s).1.
Proof.
  unfold handleForumCreation. case_decide; [done|].
  destruct (forums s !! n) eqn:Hf; [done|]. simpl.
  unfold membership_inv, Forums_of, Members_of. simpl.
  rewrite fmap_insert. simpl. apply mirrored_new_forum.
  by rewrite lookup_fmap, Hf.
Qed.

Lemma handleForumJoin_membership h f s :
  membership_inv s -> membership_inv (handleForumJoin h f s).1.
Proof.
  unfold handleForumJoin.
  destruct (users s !! h) as [user|] eqn:Hu; [|done].
  destruct (forums s !! f) as [forum|] eqn:Hf; [|done].
  destruct (index_bool _ _); [done|]. simpl.
  unfold membership_inv, Forums_of, Members_of. simpl.
  rewrite !fmap_insert. simpl.
  apply mirrored_join; by rewrite lookup_fmap, ?Hu, ?Hf.
Qed.

Lemma handleForumLeave_membership h f s :
  membership_inv s -> membership_inv (handleForumLeave h f s).1.
Proof.
  unfold handleForumLeave.
  destruct (users s !! h) as [user|] eqn:Hu; [|done].
  destruct (forums s !! f) as [forum|] eqn:Hf; [|done].
  destruct (negb _); [done|]. simpl.
  unfold membership_inv, Forums_of, Members_of. simpl.
  rewrite !fmap_insert. simpl.
  apply mirrored_leave; by rewrite lookup_fmap, ?Hu, ?Hf.
Qed.

Lemma handleContentCreation_membership now hex h f t b sh o s :
  membership_inv s ->
  membership_inv (handleContentCreation now hex h f t b sh o s).1.
Proof.
  unfold handleContentCreation.
  destruct (users s !! h) as [user|] eqn:Hu; [|done].
  destruct (forums s !! f) as [forum|] eqn:Hf; [|done]. simpl.
  apply membership_inv_same; [done|].
  unfold Members_of. simpl. rewrite fmap_insert. simpl.
  apply insert_id. by rewrite lookup_fmap, Hf.
Qed.

Lemma handleFeedbackCreation_membership now hex h c p b s :
  membership_inv s ->
  membership_inv (handleFeedbackCreation now hex h c p b s).1.
Proof.
  unfold handleFeedbackCreation.
  repeat (case_match || case_decide); by apply membership_inv_same.
Qed.

Lemma handleReaction_membership h i pos isc s :
  membership_inv s -> membership_inv (handleReaction h i pos isc s).1.
Proof.
  unfold handleReaction.
  repeat (case_match || case_decide); simplify_eq; by apply membership_inv_same.
Qed.

Lemma handleChatDelivery_membership now hex a b c s :
  membership_inv s -> membership_inv (handleChatDelivery now hex a b c s).1.
Proof.
  unfold handleChatDelivery.
  repeat case_match; by apply membership_inv_same.
Qed.

Lemma handleChatRetrieval_membership h s :
  membership_inv s -> membership_inv (handleChatRetrieval h s).1.
Proof.
  unfold handleChatRetrieval.
  repeat case_match; by apply membership_inv_same.
Qed.

Lemma handleActivityUpdate_membership now h o s :
  membership_inv s -> membership_inv (handleActivityUpdate now h o s).1.
Proof.
  unfold handleActivityUpdate.
  destruct (users s !! h) as [user|] eqn:Hu; [|done]. simpl.
  apply membership_inv_same; [|done].
  unfold Forums_of. simpl. rewrite fmap_insert. simpl.
  apply insert_id. by rewrite lookup_fmap, Hu.
Qed.

Lemma cleanup_membership now now' s :
  membership_inv s -> membership_inv (cleanup now now' s).
Proof.
  apply membership_inv_same; [|done].
  unfold Forums_of, cleanup. simpl. rewrite <- map_fmap_compose.
  apply map_fmap_ext. intros h u _. simpl. by destruct (_ && _).
Qed.

Lemma exec_membership e s : membership_inv s -> membership_inv (exec e s).
Proof.
  destruct e as [now hex msg|now now']; simpl.
  - destruct msg; simpl;
      auto using handleOnboarding_membership, handleForumCreation_membership,
        handleForumJoin_membership, handleForumLeave_membership,
        handleContentCreation_membership, handleFeedbackCreation_membership,
        handleReaction_membership, handleChatDelivery_membership,
        handleChatRetrieval_membership, handleActivityUpdate_membership.
  - apply cleanup_membership.
Qed.

Lemma run_invariant (P : SocialEngine -> Prop) :
  (∀ e s, P s -> P (exec e s)) ->
  ∀ tr s, P s -> P (run tr s).
Proof.
  intros Hstep tr. unfold run.
  induction tr as [|e tr IH]; simpl; [done|].
  intros s Hs. apply IH. by apply Hstep.
Qed.

Lemma reachable_invariant (P : SocialEngine -> Prop) :
  P NewSocialEngine -> (∀ e s, P s -> P (exec e s)) ->
  ∀ s, reachable s -> P s.
Proof. intros H0 Hstep s [tr ->]. by apply run_invariant. Qed.

Lemma reachable_membership s : reachable s -> membership_inv s.
Proof.
  apply reachable_invariant; [|apply exec_membership].
  unfold membership_inv, Forums_of, Members_of. simpl.
  rewrite !fmap_empty. apply mirrored_empty.
Qed.

(** ** Points *)

Lemma wrap32_add_r a b : Int.wrap32 (a + Int.wrap32 b) = Int.wrap32 (a + b).
Proof.
  unfold Int.wrap32, Int.wrap. f_equal.
  replace (a + ((b + 2 ^ (32 - 1)) mod 2 ^ 32 - 2 ^ (32 - 1)) + 2 ^ (32 - 1))
    with (a + (b + 2 ^ (32 - 1)) mod 2 ^ 32) by lia.
  rewrite Zplus_mod_idemp_r. f_equal. lia.
Qed.

Lemma wrap32_add_l a b : Int.wrap32 (Int.wrap32 a + b) = Int.wrap32 (a + b).
Proof. by rewrite (Z.add_comm _ b), wrap32_add_r, Z.add_comm. Qed.

Lemma wrap32_in_range z : Int.in_int32 (Int.wrap32 z).
Proof.
  unfold Int.in_int32, Int.wrap32, Int.wrap.
  pose proof (Z.mod_pos_bound (z + 2 ^ (32 - 1)) (2 ^ 32) ltac:(lia)). lia.
Qed.

Lemma wrap32_id z : Int.in_int32 z -> Int.wrap32 z = z.
Proof.
  unfold Int.in_int32, Int.wrap32, Int.wrap. intros Hz.
  rewrite Z.mod_small; lia.
Qed.

Lemma wrap32_idemp z : Int.wrap32 (Int.wrap32 z) = Int.wrap32 z.
Proof. apply wrap32_id, wrap32_in_range. Qed.

Lemma sum_reactions_empty : sum_reactions ∅ = 0.
Proof. apply map_fold_empty. Qed.

Lemma sum_reactions_insert_None r k v :
  r !! k = None -> sum_reactions (<[k := v]> r) = v + sum_reactions r.
Proof.
  intros Hk. unfold sum_reactions.
  rewrite map_fold_insert_L; [done| |done]. intros. lia.
Qed.

Lemma sum_reactions_insert r k v :
  sum_reactions (<[k := v]> r) = sum_reactions r - index_int32 r k + v.
Proof.
  unfold index_int32. destruct (r !! k) as [old|] eqn:Hk; simpl.
  - rewrite <- (insert_delete_eq r), sum_reactions_insert_None
      by apply lookup_delete_eq.
    rewrite <- (insert_delete_id r k old) at 2 by done.
    rewrite sum_reactions_insert_None by apply lookup_delete_eq. lia.
  - rewrite sum_reactions_insert_None by done. lia.
Qed.

Lemma sum_reactions_bound r :
  (∀ k v, r !! k = Some v -> v = 1 ∨ v = -1) ->
  - Z.of_nat (size r) <= sum_reactions r <= Z.of_nat (size r).
Proof.
  induction r as [|k v r Hk IH] using map_ind; intros Hv.
  - rewrite sum_reactions_empty, map_size_empty. lia.
  - rewrite sum_reactions_insert_None, map_size_insert_None by done.
    assert (v = 1 ∨ v = -1) by (apply (Hv k); apply lookup_insert_eq).
    assert (- Z.of_nat (size r) <= sum_reactions r <= Z.of_nat (size r)).
    { apply IH. intros k' v' Hk'. apply (Hv k').
      rewrite lookup_insert_ne; [done|]. intros ->. congruence. }
    lia.
Qed.

Lemma reactions_ok_empty : reactions_ok ∅ 0.
Proof.
  split; [intros k v; by rewrite lookup_empty|].
  by rewrite sum_reactions_empty.
Qed.

Lemma reactions_ok_react r p h value :
  value = 1 ∨ value = -1 ->
  reactions_ok r p ->
  reactions_ok (<[h := value]> r)
    (Int.wrap32 (p + Int.wrap32 (value - index_int32 r h))).
Proof.
  intros Hvalue [Hv ->]. split.
  - intros k v Hk. apply lookup_insert_Some in Hk as [[_ <-]|[_ Hk]]; eauto.
  - rewrite wrap32_add_r, wrap32_add_l, sum_reactions_insert. f_equal. lia.
Qed.

(** When the votes are fewer than [2^31], the [int32] sum is the sum. *)
Lemma reactions_ok_exact r p :
  reactions_ok r p -> Z.of_nat (size r) < 2 ^ 31 -> p = sum_reactions r.
Proof.
  intros [Hv ->] Hsize. apply wrap32_id.
  pose proof (sum_reactions_bound r Hv). unfold Int.in_int32. lia.
Qed.

Lemma points_inv_new : points_inv NewSocialEngine.
Proof. split; constructor. Qed.

Lemma handleContentCreation_points now hex h f t b sh o s :
  points_inv s -> points_inv (handleContentCreation now hex h f t b sh o s).1.
Proof.
  unfold handleContentCreation. intros [Hc Hf].
  repeat case_match; try done. split; simpl; [|done].
  apply Forall_app. split; [done|]. apply Forall_singleton, reactions_ok_empty.
Qed.

Lemma handleFeedbackCreation_points now hex h c p b s :
  points_inv s -> points_inv (handleFeedbackCreation now hex h c p b s).1.
Proof.
  unfold handleFeedbackCreation. intros [Hc Hf].
  assert (Hf' : Forall (λ f, reactions_ok (Feedback.Reactions f) (Feedback.Points f))
           (feedback_heap s ++ [Feedback.mk (utils.GenerateID "fdb" hex) c h b
                                  (time.Unix now) p [] ∅ 0])).
  { apply Forall_app. split; [done|]. apply Forall_singleton, reactions_ok_empty. }
  repeat (case_match || case_decide); try done; split; simpl; try done.
  - by apply Forall_alter.
  - by apply Forall_alter.
Qed.

Lemma handleReaction_points h i pos isc s :
  points_inv s -> points_inv (handleReaction h i pos isc s).1.
Proof.
  unfold handleReaction. intros [Hc Hf].
  repeat (case_match || case_decide); simplify_eq; try done; split; simpl; try done.
  all: apply Forall_alter; [done|]; intros c _ Hok;
    apply reactions_ok_react; auto.
Qed.

Lemma exec_points e s : points_inv s -> points_inv (exec e s).
Proof.
  destruct e as [now hex msg|now now']; simpl; [|done].
  destruct msg; simpl;
    auto using handleContentCreation_points, handleFeedbackCreation_points,
      handleReaction_points.
  - unfold handleOnboarding. by repeat (case_match || case_decide).
  - unfold handleForumCreation. by repeat (case_match || case_decide).
  - unfold handleForumJoin. by repeat case_match.
  - unfold handleForumLeave. by repeat case_match.
  - unfold handleChatDelivery. by repeat case_match.
  - unfold handleChatRetrieval. by repeat case_match.
  - unfold handleActivityUpdate. by repeat case_match.
Qed.

Lemma reachable_points s : reachable s -> points_inv s.
Proof. apply reachable_invariant; [apply points_inv_new|apply exec_points]. Qed.

Lemma reachable_demo : reachable demo.
Proof. by exists demo_trace. Qed.

(** ** The claims *)

(** C4. After every command, membership is symmetric: for every handle
    and every forum name, the handle is in the forum's [Members] exactly
    when the forum name is in the user's [Forums]. This holds of the keys
    of the two maps and of the flags read by indexing them. *)
Theorem membership_symmetric s handle forum :
  reachable s ->
  (in_Members s handle forum <-> in_Forums s handle forum) ∧
  ((∃ fd, forums s !! forum = Some fd ∧
          index_bool (ForumData.Members fd) handle = true) <->
   (∃ u, users s !! handle = Some u ∧
         index_bool (UserData.Forums u) forum = true)).
Proof.
  intros Hs. destruct (reachable_membership s Hs) as [HF HU].
  unfold in_Members, in_Forums, index_bool. split; split.
  - intros (fd & Hfd & [b Hb]).
    destruct (HF handle forum (ForumData.Members fd) b) as (_ & fs & Hfs & Hm);
      [by rewrite Members_of_lookup, Hfd|done|].
    rewrite Forums_of_lookup in Hfs.
    destruct (users s !! handle) as [u|]; simplify_eq/=. eauto.
  - intros (u & Hu & [b Hb]).
    destruct (HU handle forum (UserData.Forums u) b) as (_ & ms & Hms & Hm);
      [by rewrite Forums_of_lookup, Hu|done|].
    rewrite Members_of_lookup in Hms.
    destruct (forums s !! forum) as [fd|]; simplify_eq/=. eauto.
  - intros (fd & Hfd & Hb).
    destruct (ForumData.Members fd !! handle) as [b|] eqn:E; simplify_eq/=.
    destruct (HF handle forum (ForumData.Members fd) true) as (_ & fs & Hfs & Hm);
      [by rewrite Members_of_lookup, Hfd|done|].
    rewrite Forums_of_lookup in Hfs.
    destruct (users s !! handle) as [u|]; simplify_eq/=.
    exists u. by rewrite Hm.
  - intros (u & Hu & Hb).
    destruct (UserData.Forums u !! forum) as [b|] eqn:E; simplify_eq/=.
    destruct (HU handle forum (UserData.Forums u) true) as (_ & ms & Hms & Hm);
      [by rewrite Forums_of_lookup, Hu|done|].
    rewrite Members_of_lookup in Hms.
    destruct (forums s !! forum) as [fd|]; simplify_eq/=.
    exists fd. by rewrite Hm.
Qed.

Lemma membership_symmetric_witness :
  reachable demo ∧
  (in_Members demo "bob" "go" <-> in_Forums demo "bob" "go") ∧
  ((∃ fd, forums demo !! "go" = Some fd ∧
          index_bool (ForumData.Members fd) "bob" = true) <->
   (∃ u, users demo !! "bob" = Some u ∧
         index_bool (UserData.Forums u) "go" = true)).
Proof.
  split; [by exists demo_trace|].
  apply (membership_symmetric demo "bob" "go"). by exists demo_trace.
Defined.

(** A user who is not a member has no trace on either side. *)
Lemma not_member_no_key s handle forum user fd :
  reachable s ->
  users s !! handle = Some user -> forums s !! forum = Some fd ->
  index_bool (ForumData.Members fd) handle = false ->
  ForumData.Members fd !! handle = None ∧ UserData.Forums user !! forum = None.
Proof.
  intros Hs Hu Hf Hidx. destruct (reachable_membership s Hs) as [HF HU].
  assert (Hm : ForumData.Members fd !! handle = None).
  { destruct (ForumData.Members fd !! handle) as [b|] eqn:E; [|done].
    destruct (HF handle forum (ForumData.Members fd) b) as [Hb _];
      [by rewrite Members_of_lookup, Hf|done|].
    unfold index_bool in Hidx. rewrite E in Hidx. simpl in Hidx. congruence. }
  split; [done|].
  destruct (UserData.Forums user !! forum) as [b|] eqn:E; [|done].
  destruct (HU handle forum (UserData.Forums user) b) as (_ & ms & Hms & Hb);
    [by rewrite Forums_of_lookup, Hu|done|].
  rewrite Members_of_lookup, Hf in Hms. by simplify_eq/=.
Qed.

(** C5. For an existing user and an existing forum of which the user is
    not a member: joining and then leaving both succeed and restore the
    user's [Forums] and the forum's [Members] (and with them the whole
    store); and leaving without having joined fails with "User is not a
    member" and leaves the store as it was. *)
Theorem join_then_leave s handle forum user fd :
  reachable s ->
  users s !! handle = Some user -> forums s !! forum = Some fd ->
  index_bool (ForumData.Members fd) handle = false ->
  let joined := handleForumJoin handle forum s in
  let left := handleForumLeave handle forum joined.1 in
  (Success joined.2 = true ∧ Success left.2 = true ∧
   UserData.Forums <$> users left.1 !! handle = Some (UserData.Forums user) ∧
   ForumData.Members <$> forums left.1 !! forum = Some (ForumData.Members fd) ∧
   left.1 = s) ∧
  handleForumLeave handle forum s = (s, fail "User is not a member" ()).
Proof.
  intros Hs Hu Hf Hidx.
  destruct (not_member_no_key s handle forum user fd Hs Hu Hf Hidx) as [Hm Hfs].
  assert (Hleft : (handleForumLeave handle forum
                     (handleForumJoin handle forum s).1).1 = s).
  { unfold handleForumJoin. rewrite Hu, Hf, Hidx. simpl.
    unfold handleForumLeave. simpl. rewrite !lookup_insert_eq. simpl.
    unfold index_bool. rewrite lookup_insert_eq. simpl.
    rewrite !insert_insert_eq, !delete_insert_id by done.
    destruct user, fd; simpl in *. unfold set_users, set_forums; simpl.
    rewrite !insert_id by done. by destruct s. }
  simpl. split; [|unfold handleForumLeave; by rewrite Hu, Hf, Hidx].
  rewrite Hleft, Hu, Hf. split_and!; try done.
  - unfold handleForumJoin. by rewrite Hu, Hf, Hidx.
  - unfold handleForumJoin. rewrite Hu, Hf, Hidx. simpl.
    unfold handleForumLeave. simpl. rewrite !lookup_insert_eq. simpl.
    unfold index_bool. by rewrite lookup_insert_eq.
Qed.

Lemma join_then_leave_witness :
  let joined := handleForumJoin "carol" "go" demo in
  let left := handleForumLeave "carol" "go" joined.1 in
  (Success joined.2 = true ∧ Success left.2 = true ∧
   UserData.Forums <$> users left.1 !! "carol"
     = Some (UserData.Forums demo_carol) ∧
   ForumData.Members <$> forums left.1 !! "go"
     = Some (ForumData.Members demo_go) ∧
   left.1 = demo) ∧
  handleForumLeave "carol" "go" demo = (demo, fail "User is not a member" ()).
Proof.
  apply (join_then_leave demo "carol" "go" demo_carol demo_go).
  - by exists demo_trace.
  - vm_compute. reflexivity.
  - vm_compute. reflexivity.
  - vm_compute. reflexivity.
Defined.

(** The vote of a reaction. *)
Lemma react_content_lookup s handle item pos l c :
  is_Some (users s !! handle) ->
  contents s !! item = Some l -> content_heap s !! l = Some c ->
  let value := if negb pos then -1 else 1 in
  handleReaction handle item pos true s =
    (set_content_heap
       (alter (Content.react handle value) l (content_heap s)) s,
     ok "Reaction recorded successfully" ()) ∧
  content_heap (handleReaction handle item pos true s).1 !! l
    = Some (Content.react handle value c).
Proof.
  intros [u Hu] Hi Hl. unfold handleReaction. rewrite Hu, Hi. simpl.
  split; [done|]. by rewrite list_lookup_alter_eq, Hl.
Qed.

Lemma react_feedback_lookup s handle item pos l f :
  is_Some (users s !! handle) ->
  feedbacks s !! item = Some l -> feedback_heap s !! l = Some f ->
  let value := if negb pos then -1 else 1 in
  handleReaction handle item pos false s =
    (set_feedback_heap
       (alter (Feedback.react handle value) l (feedback_heap s)) s,
     ok "Reaction recorded successfully" ()) ∧
  feedback_heap (handleReaction handle item pos false s).1 !! l
    = Some (Feedback.react handle value f).
Proof.
  intros [u Hu] Hi Hl. unfold handleReaction. rewrite Hu, Hi. simpl.
  split; [done|]. by rewrite list_lookup_alter_eq, Hl.
Qed.

(** C3. After every command, for every content and every feedback of the
    store: a user has one slot in the reaction map, the slot holds +1 or
    -1, and the points are the sum of the map (the [int32] sum, which is
    the sum itself while fewer than [2^31] users have voted). A reaction
    by a user overwrites that user's slot: the map after it is the map
    before it with the slot set, and has as many entries when the user had
    voted already. And a user who votes +1 then -1 on a content nobody
    voted on leaves it with the single vote -1 and -1 point. *)
Theorem points_sum_of_single_slots s :
  reachable s ->
  (∀ c, c ∈ content_heap s ->
     (∀ u v1 v2, Content.Reactions c !! u = Some v1 ->
                 Content.Reactions c !! u = Some v2 -> v1 = v2) ∧
     (∀ u v, Content.Reactions c !! u = Some v -> v = 1 ∨ v = -1) ∧
     Content.Points c = Int.wrap32 (sum_reactions (Content.Reactions c)) ∧
     (Z.of_nat (size (Content.Reactions c)) < 2 ^ 31 ->
      Content.Points c = sum_reactions (Content.Reactions c))) ∧
  (∀ f, f ∈ feedback_heap s ->
     (∀ u v1 v2, Feedback.Reactions f !! u = Some v1 ->
                 Feedback.Reactions f !! u = Some v2 -> v1 = v2) ∧
     (∀ u v, Feedback.Reactions f !! u = Some v -> v = 1 ∨ v = -1) ∧
     Feedback.Points f = Int.wrap32 (sum_reactions (Feedback.Reactions f)) ∧
     (Z.of_nat (size (Feedback.Reactions f)) < 2 ^ 31 ->
      Feedback.Points f = sum_reactions (Feedback.Reactions f))) ∧
  (∀ handle item pos l c,
     is_Some (users s !! handle) ->
     contents s !! item = Some l -> content_heap s !! l = Some c ->
     ∃ c', content_heap (handleReaction handle item pos true s).1 !! l
             = Some c' ∧
           Content.Reactions c'
             = <[handle := if pos then 1 else -1]> (Content.Reactions c) ∧
           (is_Some (Content.Reactions c !! handle) ->
            size (Content.Reactions c') = size (Content.Reactions c))) ∧
  (∀ handle item pos l f,
     is_Some (users s !! handle) ->
     feedbacks s !! item = Some l -> feedback_heap s !! l = Some f ->
     ∃ f', feedback_heap (handleReaction handle item pos false s).1 !! l
             = Some f' ∧
           Feedback.Reactions f'
             = <[handle := if pos then 1 else -1]> (Feedback.Reactions f) ∧
           (is_Some (Feedback.Reactions f !! handle) ->
            size (Feedback.Reactions f') = size (Feedback.Reactions f))) ∧
  (∀ handle item l c,
     is_Some (users s !! handle) ->
     contents s !! item = Some l -> content_heap s !! l = Some c ->
     Content.Reactions c = ∅ ->
     let s1 := (handleReaction handle item true true s).1 in
     let s2 := (handleReaction handle item false true s1).1 in
     ∃ c2, content_heap s2 !! l = Some c2 ∧
           Content.Reactions c2 = {[handle := -1]} ∧
           Content.Points c2 = -1).
Proof.
  intros Hs. destruct (reachable_points s Hs) as [Hc Hf].
  rewrite Forall_forall in Hc. rewrite Forall_forall in Hf. split_and!.
  - intros c Hin. destruct (Hc c Hin) as [Hv Hp]. split_and!; eauto.
    + congruence.
    + by apply reactions_ok_exact.
  - intros f Hin. destruct (Hf f Hin) as [Hv Hp]. split_and!; eauto.
    + congruence.
    + by apply reactions_ok_exact.
  - intros handle item pos l c Hu Hi Hl.
    destruct (react_content_lookup s handle item pos l c Hu Hi Hl) as [_ Hl'].
    eexists. split; [exact Hl'|]. simpl. split; [by destruct pos|].
    intros Hsome. by apply map_size_insert_Some.
  - intros handle item pos l f Hu Hi Hl.
    destruct (react_feedback_lookup s handle item pos l f Hu Hi Hl) as [_ Hl'].
    eexists. split; [exact Hl'|]. simpl. split; [by destruct pos|].
    intros Hsome. by apply map_size_insert_Some.
  - intros handle item l c Hu Hi Hl Hempty s1 s2.
    destruct (react_content_lookup s handle item true l c Hu Hi Hl) as [Hs1 Hl1].
    assert (Hu1 : is_Some (users s1 !! handle)).
    { subst s1. by rewrite Hs1. }
    assert (Hi1 : contents s1 !! item = Some l).
    { subst s1. by rewrite Hs1. }
    destruct (react_content_lookup s1 handle item false l _ Hu1 Hi1 Hl1)
      as [_ Hl2].
    eexists. split; [exact Hl2|]. simpl.
    assert (Hp : Content.Points c = 0).
    { destruct (Hc c) as [_ ->]; [by eapply list_elem_of_lookup_2|].
      by rewrite Hempty, sum_reactions_empty. }
    rewrite Hempty, Hp. split.
    + by rewrite insert_insert_eq, insert_empty.
    + unfold index_int32. rewrite lookup_insert_eq, lookup_empty. done.
Qed.

Lemma points_sum_of_single_slots_witness :
  reachable demo ∧
  demo_post ∈ content_heap demo ∧
  Content.Points demo_post = sum_reactions (Content.Reactions demo_post) ∧
  Content.Points demo_post = 1.
Proof.
  assert (Hr : reachable demo) by (by exists demo_trace).
  assert (Hin : demo_post ∈ content_heap demo).
  { apply (list_elem_of_lookup_2 _ 0%nat). vm_compute. reflexivity. }
  split_and!; [done..| |by vm_compute].
  destruct (points_sum_of_single_slots demo Hr) as (Hc & _).
  destruct (Hc demo_post Hin) as (_ & _ & _ & Hexact).
  apply Hexact. vm_compute. reflexivity.
Defined.

Lemma Content_react_idemp handle value c :
  Content.react handle value (Content.react handle value c)
  = Content.react handle value c.
Proof.
  unfold Content.react. simpl. f_equal.
  - apply insert_insert_eq.
  - replace (index_int32 (<[handle:=value]> _) handle) with value
      by (unfold index_int32; by rewrite lookup_insert_eq).
    rewrite Z.sub_diag. change (Int.wrap32 0) with 0.
    rewrite Z.add_0_r. apply wrap32_idemp.
Qed.

Lemma Feedback_react_idemp handle value f :
  Feedback.react handle value (Feedback.react handle value f)
  = Feedback.react handle value f.
Proof.
  unfold Feedback.react. simpl. f_equal.
  - apply insert_insert_eq.
  - replace (index_int32 (<[handle:=value]> _) handle) with value
      by (unfold index_int32; by rewrite lookup_insert_eq).
    rewrite Z.sub_diag. change (Int.wrap32 0) with 0.
    rewrite Z.add_0_r. apply wrap32_idemp.
Qed.

Lemma alter_idemp {A} (f : A -> A) (l : list A) i :
  (∀ x, f (f x) = f x) -> alter f i (alter f i l) = alter f i l.
Proof.
  intros Hf. rewrite list_alter_alter_eq.
  apply list_alter_ext; [|done]. intros x _. apply Hf.
Qed.

(** C9. For an existing user and an existing target, the same reaction
    executed twice in succession leaves the store as one execution does:
    the second execution succeeds and changes nothing, neither the
    reaction map of the target nor its points. *)
Theorem reaction_idempotent s handle item pos (isContent : bool) :
  is_Some (users s !! handle) ->
  (if isContent then is_Some (contents s !! item)
   else is_Some (feedbacks s !! item)) ->
  let once := handleReaction handle item pos isContent s in
  let twice := handleReaction handle item pos isContent once.1 in
  Success once.2 = true ∧ Success twice.2 = true ∧ twice.1 = once.1.
Proof.
  intros [u Hu] Hitem. unfold handleReaction. rewrite Hu.
  destruct isContent; destruct Hitem as [l Hl]; rewrite Hl; simpl;
    rewrite Hu, Hl; simpl; split_and!; try done;
    unfold set_content_heap, set_feedback_heap; simpl; f_equal.
  - apply alter_idemp, Content_react_idemp.
  - apply alter_idemp, Feedback_react_idemp.
Qed.

Lemma reaction_idempotent_witness :
  let once := handleReaction "bob" "cnt_01" false true demo in
  let twice := handleReaction "bob" "cnt_01" false true once.1 in
  Success once.2 = true ∧ Success twice.2 = true ∧ twice.1 = once.1.
Proof.
  apply (reaction_idempotent demo "bob" "cnt_01" false true).
  - vm_compute. eexists. reflexivity.
  - vm_compute. eexists. reflexivity.
Defined.

(** ** Messages *)

Lemma mark_seen_idemp m :
  DirectChat.mark_seen (DirectChat.mark_seen m) = DirectChat.mark_seen m.
Proof. done. Qed.

Lemma handleChatDelivery_ok s now hex a b body :
  is_Some (users s !! a) -> is_Some (users s !! b) ->
  handleChatDelivery now hex a b body s =
    (set_chats
       (<[b := inbox s b ++
                [DirectChat.mk (utils.GenerateID "msg" hex) a b body
                               (time.Unix now) false]]> (chats s)) s,
     ok "Message delivered successfully" ()).
Proof. intros [? Ha] [? Hb]. unfold handleChatDelivery. by rewrite Ha, Hb. Qed.

Lemma handleChatRetrieval_ok s h :
  is_Some (users s !! h) ->
  handleChatRetrieval h s =
    (set_chats (alter (fmap DirectChat.mark_seen) h (chats s)) s,
     ok "Messages retrieved successfully"
        (DirectChat.mark_seen <$> inbox s h)).
Proof. intros [? Hh]. unfold handleChatRetrieval. by rewrite Hh. Qed.




(** The inbox of a user to whom nothing was delivered is missing. *)
Lemma chats_None_exec e s h :
  chats s !! h = None -> h ∉ receivers [e] s -> chats (exec e s) !! h = None.
Proof.
  intros Hh Hr. destruct e as [now hex msg|now now']; simpl.
  - destruct msg; simpl; try done.
    + unfold handleOnboarding. by repeat (case_match || case_decide).
    + unfold handleForumCreation. by repeat (case_match || case_decide).
    + unfold handleForumJoin. by repeat case_match.
    + unfold handleForumLeave. by repeat case_match.
    + unfold handleContentCreation. by repeat case_match.
    + unfold handleFeedbackCreation. by repeat (case_match || case_decide).
    + unfold handleReaction.
      repeat (case_match || case_decide); by simplify_eq.
    + simpl in Hr. unfold handleChatDelivery in *.
      repeat case_match; try done; simpl in *.
      rewrite lookup_insert_ne; [done|]. intros ->. apply Hr. by left.
    + unfold handleChatRetrieval. repeat case_match; try done; simpl.
      rewrite lookup_alter. case_decide; by simplify_eq; rewrite ?Hh.
    + unfold handleActivityUpdate. by repeat case_match.
  - unfold cleanup. simpl. by rewrite lookup_fmap, Hh.
Qed.

Lemma chats_None_run tr s h :
  chats s !! h = None -> h ∉ receivers tr s -> chats (run tr s) !! h = None.
Proof.
  revert s. induction tr as [|e tr IH]; intros s Hh Hr; [done|].
  change (run (e :: tr) s) with (run tr (exec e s)).
  simpl in Hr. rewrite not_elem_of_app in Hr. destruct Hr as [Hr1 Hr2].
  apply IH; [|done]. apply chats_None_exec; [done|].
  simpl. by rewrite app_nil_r.
Qed.

(** C10. For an existing user to whom no message was ever delivered,
    [GetChats] succeeds and returns no message. *)
Theorem retrieval_of_empty_inbox tr handle :
  let s := run tr NewSocialEngine in
  handle ∉ receivers tr NewSocialEngine ->
  is_Some (users s !! handle) ->
  Success (handleChatRetrieval handle s).2 = true ∧
  Data (handleChatRetrieval handle s).2 = [].
Proof.
  intros s Hr Hu. rewrite handleChatRetrieval_ok by done. simpl.
  split; [done|]. unfold inbox, s.
  assert (chats (run tr NewSocialEngine) !! handle = None) as ->; [|done].
  apply chats_None_run; [apply lookup_empty|done].
Qed.

Lemma retrieval_of_empty_inbox_witness :
  ("alice" ∉ receivers demo_trace NewSocialEngine) ∧
  Success (handleChatRetrieval "alice" demo).2 = true ∧
  Data (handleChatRetrieval "alice" demo).2 = [].
Proof.
  assert (Hr : "alice" ∉ receivers demo_trace NewSocialEngine).
  { assert (receivers demo_trace NewSocialEngine = ["bob"]) as ->
      by (vm_compute; reflexivity).
    intros H. apply list_elem_of_singleton in H. discriminate. }
  split; [exact Hr|].
  apply (retrieval_of_empty_inbox demo_trace "alice" Hr).
  vm_compute. eauto.
Defined.

(** ** Feedback *)

(** What [handleFeedbackCreation] leaves behind when the parent is
    missing: the new feedback is in the table and in the heap; the
    contents, their feedback lists and the feedback that was there are as
    before. *)
Lemma handleFeedbackCreation_parent_missing s now hex h c p body :
  is_Some (users s !! h) -> is_Some (contents s !! c) ->
  p ≠ "" -> feedbacks s !! p = None -> p ≠ utils.GenerateID "fdb" hex ->
  let feedbackId := utils.GenerateID "fdb" hex in
  let created := handleFeedbackCreation now hex h c p body s in
  created.2 = fail "Parent feedback not found" "" ∧
  feedbacks created.1
    = <[feedbackId := length (feedback_heap s)]> (feedbacks s) ∧
  feedback_heap created.1
    = feedback_heap s ++
      [Feedback.mk feedbackId c h body (time.Unix now) p [] ∅ 0] ∧
  content_heap created.1 = content_heap s ∧
  contents created.1 = contents s ∧
  users created.1 = users s ∧ forums created.1 = forums s ∧
  chats created.1 = chats s.
Proof.
  intros [u Hu] [l Hl] Hp Hnone Hne. unfold handleFeedbackCreation.
  rewrite Hu, Hl. rewrite decide_False by done. simpl.
  by rewrite lookup_insert_ne, Hnone.
Qed.

(** C1, on the code: a [CreateFeedback] whose parent does not exist is
    answered "Parent feedback not found", and yet the store has changed:
    the rejected feedback is registered in the feedback table under its
    new id (and allocated), where the table had no such entry before. The
    content's feedback list and the reply lists are as before. *)
Theorem feedback_with_missing_parent_is_stored :
  let created :=
    handleFeedbackCreation t1 "06" "bob" "cnt_01" "fdb_nope" "reply" demo in
  feedbacks demo !! "fdb_nope" = None ∧
  created.2 = fail "Parent feedback not found" "" ∧
  feedbacks demo !! "fdb_06" = None ∧
  feedbacks created.1 !! "fdb_06" = Some 1%nat ∧
  feedback_heap created.1 !! 1%nat
    = Some (Feedback.mk "fdb_06" "cnt_01" "bob" "reply" 1577881800
                        "fdb_nope" [] ∅ 0) ∧
  length (feedback_heap demo) = 1%nat ∧
  content_heap created.1 = content_heap demo ∧
  take 1 (feedback_heap created.1) = feedback_heap demo ∧
  created.1 ≠ demo.
Proof.
  assert (Hnone : feedbacks demo !! "fdb_06" = None) by (by vm_compute).
  assert (Hsome : feedbacks (handleFeedbackCreation t1 "06" "bob" "cnt_01"
                               "fdb_nope" "reply" demo).1 !! "fdb_06"
                  = Some 1%nat) by (by vm_compute).
  cbv zeta. repeat split; try (vm_compute; reflexivity).
  intros Heq. rewrite Heq in Hsome. congruence.
Qed.

(** ** The sweep *)

(** What [cleanup] keeps of an inbox: the messages stamped strictly after
    the second that lies thirty days before [now], in their order. *)
Lemma cleanup_inbox now now' s handle :
  inbox (cleanup now now' s) handle
  = filter (λ msg, DirectChat.Timestamp msg
                   > time.Unix (time.AddDate_days now (-30)))
           (inbox s handle).
Proof.
  unfold inbox, cleanup. simpl. rewrite lookup_fmap.
  by destruct (chats s !! handle).
Qed.

(** C8, on the code: a message stamped exactly thirty days before the
    sweep, which is to be kept (its timestamp is not less than now
    minus thirty days), is removed. *)
Theorem cleanup_drops_message_at_thirty_days :
  let now := time.AddDate_days t1 30 in
  let msg := DirectChat.mk "msg_04" "alice" "bob" "hey" 1577881800 false in
  inbox demo "bob" = [msg] ∧
  DirectChat.Timestamp msg = time.Unix now - 30 * 86400 ∧
  ¬ (DirectChat.Timestamp msg < time.Unix now - 30 * 86400) ∧
  inbox (cleanup now now demo) "bob" = [].
Proof.
  cbv zeta. repeat split; try (vm_compute; reflexivity).
  vm_compute. intros H. discriminate H.
Qed.

(** ** The feed *)

(** The two counters count what they are said to count. *)
Lemma count_ups_size r :
  count_ups r = Z.of_nat (size (filter (λ kv : string * Z, kv.2 > 0) r)).
Proof.
  unfold count_ups. induction r as [|k v r Hk IH] using map_ind.
  - by rewrite map_fold_empty, map_filter_empty, map_size_empty.
  - rewrite map_fold_insert_L; [|intros; repeat case_decide; lia|done].
    rewrite IH. case_decide.
    + rewrite map_filter_insert_True by done.
      rewrite map_size_insert_None; [lia|].
      apply map_lookup_filter_None. by left.
    + rewrite map_filter_insert_False by done.
      by rewrite delete_id.
Qed.

Lemma count_downs_size r :
  count_downs r
  = Z.of_nat (size (filter (λ kv : string * Z, ¬ kv.2 > 0) r)).
Proof.
  unfold count_downs. induction r as [|k v r Hk IH] using map_ind.
  - by rewrite map_fold_empty, map_filter_empty, map_size_empty.
  - rewrite map_fold_insert_L; [|intros; repeat case_decide; lia|done].
    rewrite IH. case_decide.
    + rewrite map_filter_insert_False by (simpl; tauto).
      by rewrite delete_id.
    + rewrite map_filter_insert_True by done.
      rewrite map_size_insert_None; [lia|].
      apply map_lookup_filter_None. by left.
Qed.

Lemma hot_score_name_unknown Log10 c :
  hot_score Log10 (name_unknown c) = hot_score Log10 c.
Proof. unfold name_unknown. by case_decide. Qed.

Section FeedClaims.
Variable Log10 : float64 -> float64.
Variable sort_Slice : ∀ A : Type, (A -> A -> bool) -> list A -> list A.
Variable range_keys : gmap string bool -> list string.
Hypothesis sort_Slice_ok : sort_Slice_spec sort_Slice.

(** C6. For every successful [GetFeed]: with "top" the returned
    sequence is non-increasing in points; with "new" it is non-increasing
    in timestamp; when the limit is positive the sequence is no longer
    than the limit; and the sequence is the ranked one, which holds the
    gathered contents, cut to the limit only if the limit is positive
    and the ranked sequence is longer. *)
Theorem feed_top_new_limit UserHandle SortMethod Limit s :
  let feed :=
    handleFeedRequest Log10 sort_Slice range_keys UserHandle SortMethod
                      Limit s in
  Success feed = true ->
  (SortMethod = "top" ->
   StronglySorted (λ ci cj, Content.Points ci >= Content.Points cj)
                  (Data feed)) ∧
  (SortMethod = "new" ->
   StronglySorted (λ ci cj, Content.Timestamp ci >= Content.Timestamp cj)
                  (Data feed)) ∧
  (Limit > 0 -> Z.of_nat (length (Data feed)) <= Limit) ∧
  ∃ user, users s !! UserHandle = Some user ∧
    let ranked :=
      rank Log10 sort_Slice SortMethod (gather range_keys user s) in
    ranked ≡ₚ gather range_keys user s ∧
    (Limit <= 0 ∨ Z.of_nat (length ranked) <= Limit ->
     Data feed = ranked) ∧
    (0 < Limit < Z.of_nat (length ranked) ->
     Data feed = take (Z.to_nat Limit) ranked).
Proof.
  unfold handleFeedRequest.
  destruct (users s !! UserHandle) as [user|]; [|discriminate].
  simpl. intros _. split_and!.
  - intros ->. apply truncate_sorted, rank_top, sort_Slice_ok.
  - intros ->. apply truncate_sorted, rank_new, sort_Slice_ok.
  - apply truncate_length.
  - exists user. split; [done|]. split_and!.
    + apply rank_perm, sort_Slice_ok.
    + intros Hle. unfold truncate.
      destruct (Limit >? 0) eqn:E1; [|done].
      destruct (_ >? Limit) eqn:E2; [lia|done].
    + intros Hlt. unfold truncate.
      destruct (Limit >? 0) eqn:E1; [|lia].
      destruct (_ >? Limit) eqn:E2; [done|lia].
Qed.

(** C2, as the code has it. For a [GetFeed] by an existing user whose
    gathered contents all have a score (none is NaN): with the sort
    method "hot" the returned contents are in descending order of hot
    score, the score being [CalculateHotScore] of the number of
    reactions with a positive value, the number of the others, and the
    timestamp; so they are through the REST endpoint when it is given no
    sort, because the endpoint sends "hot". A command whose sort method
    is none of "hot", "new" and "top", the empty one among them, returns
    the contents in the order they were gathered, cut to the limit. *)
Theorem feed_hot_ordered UserHandle Limit s user :
  users s !! UserHandle = Some user ->
  (∀ c, c ∈ gather range_keys user s -> IsNaN (hot_score Log10 c) = false) ->
  let descending :=
    StronglySorted
      (λ ci cj, leb (hot_score Log10 cj) (hot_score Log10 ci) = true) in
  (∀ c, hot_score Log10 c =
        utils.CalculateHotScore Log10
          (Z.of_nat (size (filter (λ kv : string * Z, kv.2 > 0)
                                  (Content.Reactions c))))
          (Z.of_nat (size (filter (λ kv : string * Z, ¬ kv.2 > 0)
                                  (Content.Reactions c))))
          (Content.Timestamp c)) ∧
  (let feed :=
     handleFeedRequest Log10 sort_Slice range_keys UserHandle "hot" Limit s in
   Success feed = true ∧ descending (Data feed)) ∧
  (let feed := getFeed Log10 sort_Slice range_keys UserHandle "" s in
   Success feed = true ∧ descending (Data feed)) ∧
  (∀ SortMethod,
     SortMethod ≠ "hot" -> SortMethod ≠ "new" -> SortMethod ≠ "top" ->
     Data (handleFeedRequest Log10 sort_Slice range_keys UserHandle
                             SortMethod Limit s)
     = truncate Limit (gather range_keys user s)).
Proof.
  intros Hu Hnan descending. split_and!.
  - intros c. unfold hot_score. by rewrite count_ups_size, count_downs_size.
  - unfold handleFeedRequest. rewrite Hu. simpl. split; [done|].
    by apply truncate_sorted, rank_hot.
  - unfold getFeed, handleFeedRequest. rewrite Hu. simpl. split; [done|].
    eapply StronglySorted_fmap; [|by apply truncate_sorted, rank_hot].
    intros ci cj. by rewrite !hot_score_name_unknown.
  - intros m H1 H2 H3. unfold handleFeedRequest. rewrite Hu. simpl.
    by rewrite rank_other.
Qed.
End FeedClaims.

Lemma feed_top_new_limit_witness :
  let feed :=
    handleFeedRequest log10 insertionSort keys_in_order "bob" "top" 1 demo in
  Success feed = true ∧
  Content.Points <$> Data feed = [1] ∧
  StronglySorted (λ ci cj, Content.Points ci >= Content.Points cj)
                 (Data feed) ∧
  Z.of_nat (length (Data feed)) <= 1.
Proof.
  assert (Hs : Success (handleFeedRequest log10 insertionSort keys_in_order
                          "bob" "top" 1 demo) = true)
    by (vm_compute; reflexivity).
  destruct (feed_top_new_limit log10 insertionSort keys_in_order
              insertionSort_spec "bob" "top" 1 demo Hs)
    as (Htop & _ & Hlen & _).
  cbv zeta. split_and!; [exact Hs|vm_compute; reflexivity|by apply Htop|].
  apply Hlen. lia.
Defined.

Lemma forallb_not_NaN Log10 (l : list Content.t) :
  forallb (λ c, negb (IsNaN (hot_score Log10 c))) l = true ->
  ∀ c, c ∈ l -> IsNaN (hot_score Log10 c) = false.
Proof.
  intros HF c Hc. apply negb_true_iff.
  by apply (proj1 (forallb_forall _ _) HF), list_elem_of_In.
Qed.

Lemma feed_hot_ordered_witness :
  let feed :=
    handleFeedRequest log10 insertionSort keys_in_order "alice" "hot" 10
                      hot_demo in
  Success feed = true ∧
  Content.Heading <$> Data feed = ["hot"; "fresh"; "cold"] ∧
  hot_score log10 <$> Data feed
  = [ Float64frombits 0x3FE277C6FE5B1E31;
      Float64frombits 0x3FC999999999999A;
      Float64frombits 0xBFDE8927964FD5FC ] ∧
  StronglySorted
    (λ ci cj, leb (hot_score log10 cj) (hot_score log10 ci) = true)
    (Data feed).
Proof.
  pose (alice := default demo_carol (users hot_demo !! "alice")).
  assert (Hu : users hot_demo !! "alice" = Some alice)
    by (vm_compute; reflexivity).
  assert (forallb (λ c, negb (IsNaN (hot_score log10 c)))
                    (gather keys_in_order alice hot_demo) = true) as HF
      by (vm_compute; reflexivity).
  pose proof (feed_hot_ordered log10 insertionSort keys_in_order
              insertionSort_spec "alice" 10 hot_demo alice Hu
              (forallb_not_NaN log10 _ HF)) as H.
  destruct H as (_ & (Hs & Hsorted) & _).
  cbv zeta.
  split; [exact Hs|].
  split; [vm_compute; reflexivity|].
  split; [vm_compute; reflexivity|].
  exact Hsorted.
Defined.

(** C2, as it is stated, fails when the sort method is unspecified: the
    switch of [handleFeedRequest] has no case for it and sorts nothing.
    For [alice], the forum lists the post of the epoch (score 0) before
    the later post (score 1), and so does the feed. *)
Lemma feed_unspecified_not_ordered :
  let feed :=
    handleFeedRequest log10 insertionSort keys_in_order "alice" "" 10 demo in
  Success feed = true ∧
  hot_score log10 <$> Data feed = [of_int 0; of_int 1] ∧
  ¬ StronglySorted
      (λ ci cj, leb (hot_score log10 cj) (hot_score log10 ci) = true)
      (Data feed).
Proof.
  cbv zeta. split_and!; [vm_compute; reflexivity..|].
  intros Hs.
  destruct (Data _) as [|c0 [|c1 l]] eqn:E; try (vm_compute in E; discriminate E).
  apply StronglySorted_cons in Hs as [Hs _].
  apply Forall_cons in Hs as [Hs _].
  assert (c0 = default demo_post (content_heap demo !! 0%nat)) as ->
    by (vm_compute in E; vm_compute; congruence).
  assert (c1 = default demo_post (content_heap demo !! 1%nat)) as ->
    by (vm_compute in E; vm_compute; congruence).
  vm_compute in Hs. discriminate Hs.
Qed.

(** ** No dangling pointer *)

Lemma Forall_lt_mono (n m : nat) (ls : list nat) :
  (n <= m)%nat -> Forall (λ l, (l < n)%nat) ls -> Forall (λ l, (l < m)%nat) ls.
Proof.
  intros Hle H. eapply Forall_impl; [exact H|]. simpl. intros; lia.
Qed.

Lemma heap_wf_new : heap_wf NewSocialEngine.
Proof.
  unfold heap_wf; simpl. split_and!; try done; intros ? ?;
    by rewrite lookup_empty.
Qed.

Lemma heap_wf_forums s fs :
  (∀ name forum, fs !! name = Some forum ->
     ∃ forum', forums s !! name = Some forum' ∧
               ForumData.Contents forum = ForumData.Contents forum') ->
  heap_wf s -> heap_wf (set_forums fs s).
Proof.
  intros Hfs (H1 & H2 & H3 & H4 & H5). unfold heap_wf; simpl.
  split_and!; try done.
  intros name forum Hf. destruct (Hfs _ _ Hf) as (forum' & Hf' & ->). eauto.
Qed.

Lemma handleForumCreation_wf now n s :
  heap_wf s -> heap_wf (handleForumCreation now n s).1.
Proof.
  intros Hwf. pose proof Hwf as (H1 & H2 & H3 & H4 & H5).
  unfold handleForumCreation. case_decide; [done|].
  destruct (forums s !! n) eqn:Hn; [done|]. simpl.
  unfold heap_wf; simpl. split_and!; try done.
  intros name forum Hf.
  apply lookup_insert_Some in Hf as [[_ <-]|[_ Hf]]; simpl; eauto.
Qed.

Lemma handleForumJoin_wf h f s : heap_wf s -> heap_wf (handleForumJoin h f s).1.
Proof.
  intros Hwf. pose proof Hwf as (H1 & H2 & H3 & H4 & H5).
  unfold handleForumJoin. repeat case_match; try done. simpl.
  unfold heap_wf; simpl. split_and!; try done.
  intros name forum Hf.
  apply lookup_insert_Some in Hf as [[_ <-]|[_ Hf]]; simpl; eauto.
Qed.

Lemma handleForumLeave_wf h f s :
  heap_wf s -> heap_wf (handleForumLeave h f s).1.
Proof.
  intros Hwf. pose proof Hwf as (H1 & H2 & H3 & H4 & H5).
  unfold handleForumLeave. repeat case_match; try done. simpl.
  unfold heap_wf; simpl. split_and!; try done.
  intros name forum Hf.
  apply lookup_insert_Some in Hf as [[_ <-]|[_ Hf]]; simpl; eauto.
Qed.

Lemma handleContentCreation_wf now hex h f t b sh o s :
  heap_wf s -> heap_wf (handleContentCreation now hex h f t b sh o s).1.
Proof.
  intros Hwf. pose proof Hwf as (H1 & H2 & H3 & H4 & H5).
  unfold handleContentCreation. repeat case_match; try done. simpl.
  unfold heap_wf; simpl. rewrite length_app. simpl. split_and!; try done.
  - intros id l Hl. apply lookup_insert_Some in Hl as [[_ <-]|[_ Hl]];
      [lia|]. apply H1 in Hl. lia.
  - intros name forum Hf.
    apply lookup_insert_Some in Hf as [[_ <-]|[_ Hf]]; simpl.
    + apply Forall_app. split.
      * eapply Forall_lt_mono; [|by eapply H3]. lia.
      * apply Forall_singleton. lia.
    + eapply Forall_lt_mono; [|by eapply H3]. lia.
  - apply Forall_app. split; [done|]. apply Forall_singleton. constructor.
Qed.

Lemma handleFeedbackCreation_wf now hex h c p b s :
  heap_wf s -> heap_wf (handleFeedbackCreation now hex h c p b s).1.
Proof.
  intros Hwf. pose proof Hwf as (H1 & H2 & H3 & H4 & H5).
  unfold handleFeedbackCreation.
  destruct (users s !! h); [|done]. destruct (contents s !! c) as [lc|]; [|done].
  set (fb := Feedback.mk _ _ _ _ _ _ _ _ _).
  assert (Hgrow : ∀ ls, Forall (λ l, (l < length (feedback_heap s))%nat) ls ->
                        Forall (λ l, (l < length (feedback_heap s ++ [fb]))%nat) ls).
  { intros ls. apply Forall_lt_mono. rewrite length_app. simpl. lia. }
  assert (Hnew : (length (feedback_heap s) < length (feedback_heap s ++ [fb]))%nat).
  { rewrite length_app. simpl. lia. }
  assert (Htab : ∀ id l,
            <[utils.GenerateID "fdb" hex := length (feedback_heap s)]>
              (feedbacks s) !! id = Some l ->
            (l < length (feedback_heap s ++ [fb]))%nat).
  { intros id l Hl. apply lookup_insert_Some in Hl as [[_ <-]|[_ Hl]]; [done|].
    apply H2 in Hl. lia. }
  assert (Hc : Forall (λ c, Forall (λ l, (l < length (feedback_heap s ++ [fb]))%nat)
                                   (Content.Feedback c)) (content_heap s)).
  { eapply Forall_impl; [exact H4|]. intros x. apply Hgrow. }
  assert (Hf : Forall (λ f, Forall (λ l, (l < length (feedback_heap s ++ [fb]))%nat)
                                   (Feedback.Replies f)) (feedback_heap s ++ [fb])).
  { apply Forall_app. split.
    - eapply Forall_impl; [exact H5|]. intros x. apply Hgrow.
    - apply Forall_singleton. constructor. }
  case_decide; [|case_match]; simpl; unfold heap_wf; simpl;
    rewrite ?length_alter; split_and!; try done.
  - apply Forall_alter; [done|]. intros x _ Hx. simpl.
    apply Forall_app. split; [done|]. by apply Forall_singleton.
  - apply Forall_alter; [done|]. intros x _ Hx. simpl.
    apply Forall_app. split; [done|]. by apply Forall_singleton.
Qed.

Lemma handleReaction_wf h i pos isc s :
  heap_wf s -> heap_wf (handleReaction h i pos isc s).1.
Proof.
  intros Hwf. pose proof Hwf as (H1 & H2 & H3 & H4 & H5).
  unfold handleReaction.
  repeat case_match; simplify_eq; try done; simpl; unfold heap_wf; simpl;
    rewrite ?length_alter; split_and!; try done;
    by apply Forall_alter.
Qed.

Lemma exec_wf e s : heap_wf s -> heap_wf (exec e s).
Proof.
  destruct e as [now hex msg|now now']; simpl; [|done].
  destruct msg; simpl;
    auto using handleForumCreation_wf, handleForumJoin_wf,
      handleForumLeave_wf, handleContentCreation_wf,
      handleFeedbackCreation_wf, handleReaction_wf.
  - unfold handleOnboarding. by repeat (case_match || case_decide).
  - unfold handleChatDelivery. by repeat case_match.
  - unfold handleChatRetrieval. by repeat case_match.
  - unfold handleActivityUpdate. by repeat case_match.
Qed.

Lemma reachable_wf s : reachable s -> heap_wf s.
Proof. apply reachable_invariant; [apply heap_wf_new|apply exec_wf]. Qed.

Lemma omap_lookup_length {A} (h : list A) (ls : list nat) :
  Forall (λ l, (l < length h)%nat) ls ->
  length (omap (λ l, h !! l) ls) = length ls.
Proof.
  induction 1 as [|l ls Hl _ IH]; [done|].
  destruct (lookup_lt_is_Some_2 _ _ Hl) as [c Hc].
  cbn. rewrite Hc. cbn. by f_equal.
Qed.

(** So the feed loses no content of a forum when it follows the
    pointers. *)
Lemma forum_contents_allocated s name forum :
  reachable s -> forums s !! name = Some forum ->
  length (omap (λ l, content_heap s !! l) (ForumData.Contents forum))
  = length (ForumData.Contents forum).
Proof.
  intros Hs Hf. destruct (reachable_wf s Hs) as (_ & _ & H3 & _).
  apply omap_lookup_length. by eapply H3.
Qed.

(** ** Two more scenarios of the design document *)

(** A message to oneself lands in one's own inbox. *)
Lemma send_to_self s now hex alice body :
  is_Some (users s !! alice) ->
  inbox (handleChatDelivery now hex alice alice body s).1 alice
  = inbox s alice ++
    [DirectChat.mk (utils.GenerateID "msg" hex) alice alice body
                   (time.Unix now) false].
Proof.
  intros Ha. rewrite handleChatDelivery_ok by done.
  unfold inbox. simpl. by rewrite lookup_insert_eq.
Qed.

(** [alice] registers, creates [go], joins it and posts "hi"; [bob]
    registers, joins [go] and votes the post up: the top feed of [bob] is
    that one post, with one point. *)
Example top_feed_scenario :
  let s :=
    run [ Received t0 "" (OnboardUser "alice");
          Received t0 "" (CreateForum "go");
          Received t0 "" (JoinForum "alice" "go");
          Received t0 "0a" (CreateContent "alice" "go" "hi" "" false "");
          Received t0 "" (OnboardUser "bob");
          Received t0 "" (JoinForum "bob" "go");
          Received t0 "" (Reaction "bob" "cnt_0a" true true) ]
        NewSocialEngine in
  (λ c, (Content.Heading c, Content.Points c))
    <$> Data (handleFeedRequest log10 insertionSort keys_in_order
                                "bob" "top" 10 s)
  = [("hi", 1)].
Proof. vm_compute. reflexivity. Qed.

(** Registering a handle twice: the second registration is refused and
    the store keeps the one user. *)
Example register_twice :
  let once := handleOnboarding t0 "alice" NewSocialEngine in
  let twice := handleOnboarding t1 "alice" once.1 in
  Success once.2 = true ∧ twice.2 = fail "Username already exists" () ∧
  twice.1 = once.1 ∧ size (users twice.1) = 1%nat.
Proof. vm_compute. auto. Qed.

(** * Further properties of the code *)

(** ** [utils/common.go] *)

(** [Contains] answers whether the string is an element of the slice; of
    the empty slice it is none. *)
Theorem Contains_elem_of slice str :
  utils.Contains slice str = true <-> str ∈ slice.
Proof.
  induction slice as [|s slice IH]; simpl.
  - split; [discriminate|]. intros H. by apply elem_of_nil in H.
  - rewrite elem_of_cons. case_decide as Hs.
    + split; [|done]. intros _. by left.
    + rewrite IH. split; [by right|]. intros [->|H]; [done|exact H].
Qed.

Section RetryProperties.
Context {S E : Type}.
Variable fn : S -> option E * S.

Lemma retry_loop_spec attempts delay s0 n :
  ∀ k0 err s sleeps,
    Z.of_nat n + Z.of_nat k0 = attempts ->
    utils.calls fn k0 s0 = (err, s) ->
    (∀ j, (1 <= j <= k0)%nat -> is_Some (utils.calls fn j s0).1) ->
    sleeps = replicate (match n with O => k0 - 1 | _ => k0 end) delay ->
    ∃ k, (k0 <= k)%nat ∧ Z.of_nat k <= attempts ∧
      (0 < attempts -> (1 <= k)%nat) ∧
      utils.calls fn k s0
        = (utils.retry_loop fn attempts delay n (Z.of_nat k0) err s sleeps).1 ∧
      (∀ j, (1 <= j < k)%nat -> is_Some (utils.calls fn j s0).1) ∧
      (utils.retry_loop fn attempts delay n (Z.of_nat k0) err s sleeps).2
        = replicate (k - 1) delay ∧
      (is_Some (utils.retry_loop fn attempts delay n (Z.of_nat k0)
                                 err s sleeps).1.1 ->
       Z.of_nat k = attempts).
Proof.
  induction n as [|n IH]; intros k0 err s sleeps Hn Hcalls Hfailed Hsleeps.
  - simpl. exists k0. split_and!; try done; try lia.
    intros j Hj. apply Hfailed. lia.
  - simpl. destruct (fn s) as [e s2] eqn:Hfn.
    assert (Hnext : utils.calls fn (Datatypes.S k0) s0 = (e, s2)).
    { simpl. by rewrite Hcalls. }
    destruct e as [e|].
    + assert (Hfailed' : ∀ j, (1 <= j <= Datatypes.S k0)%nat ->
                              is_Some (utils.calls fn j s0).1).
      { intros j Hj. destruct (decide (j = Datatypes.S k0)) as [->|Hne].
        - rewrite Hnext. simpl. eauto.
        - apply Hfailed. lia. }
      replace (Z.of_nat k0 + 1) with (Z.of_nat (Datatypes.S k0)) by lia.
      edestruct (IH (Datatypes.S k0) (Some e) s2) as (k & H1 & H2 & H3 & H4 & H5 & H6 & H7);
        [lia|exact Hnext|exact Hfailed'| |].
      2:{ exists k. split_and!; try done. lia. }
      subst sleeps. destruct n as [|n].
      * rewrite (proj2 (Z.ltb_ge _ _)) by lia.
        f_equal. lia.
      * rewrite (proj2 (Z.ltb_lt _ _)) by lia.
        by rewrite replicate_S_end.
    + exists (Datatypes.S k0). split_and!; try done; try lia.
      * intros j Hj. apply Hfailed. lia.
      * subst sleeps. simpl. f_equal. lia.
      * simpl. by intros [? ?].
Qed.

(** [RetryWithTimeout]. With no attempt allowed, [fn] is not called and
    the result is [nil]. Otherwise [fn] is called [k] times, for some [k]
    from one to [attempts]: every call before the last failed, the error
    returned is that of the last call, the function slept [delay] between
    two calls and not after the last, and an error is returned only when
    all the attempts are used. *)
Theorem RetryWithTimeout_spec attempts delay s :
  let r := utils.RetryWithTimeout fn attempts delay s in
  (attempts <= 0 -> r = (None, s, [])) ∧
  (0 < attempts ->
   ∃ k, (1 <= k)%nat ∧ Z.of_nat k <= attempts ∧
     utils.calls fn k s = r.1 ∧
     (∀ j, (1 <= j < k)%nat -> is_Some (utils.calls fn j s).1) ∧
     r.2 = replicate (k - 1) delay ∧
     (is_Some r.1.1 -> Z.of_nat k = attempts)).
Proof.
  unfold utils.RetryWithTimeout. split.
  - intros Hle. by replace (Z.to_nat attempts) with O by lia.
  - intros Hpos.
    destruct (retry_loop_spec attempts delay s (Z.to_nat attempts)
                O None s []) as (k & H1 & H2 & H3 & H4 & H5 & H6 & H7);
      [lia|done|intros; lia|by destruct (Z.to_nat attempts)|].
    exists k. split_and!; auto.
Qed.
End RetryProperties.

(** An id begins with its prefix, and carries its random part. *)
Lemma GenerateID_inj prefix hex hex' :
  utils.GenerateID prefix hex = utils.GenerateID prefix hex' -> hex = hex'.
Proof.
  unfold utils.GenerateID. induction prefix as [|a p IH]; cbn.
  - intros H. by inversion H.
  - intros H. apply IH. by inversion H.
Qed.

(** A net vote of one upvote scores as no vote at all: both hand the
    same argument, one, to the logarithm. Whatever [math.Log10] is,
    reacting positively to a content whose ups and downs are level does
    not change its hot score. *)
Theorem first_upvote_keeps_hot_score Log10 ups downs ups' downs' timestamp :
  ups - downs = 1 -> ups' - downs' = 0 ->
  utils.CalculateHotScore Log10 ups downs timestamp
  = utils.CalculateHotScore Log10 ups' downs' timestamp.
Proof.
  intros H1 H0. unfold utils.CalculateHotScore. cbv zeta. rewrite H1, H0.
  assert (Max (Abs (of_int (Int.wrap64 1))) one
          = Max (Abs (of_int (Int.wrap64 0))) one) as ->
    by (vm_compute; reflexivity).
  assert (ltb (of_int (Int.wrap64 1)) zero
          = ltb (of_int (Int.wrap64 0)) zero) as ->
    by (vm_compute; reflexivity).
  reflexivity.
Qed.

Lemma first_upvote_keeps_hot_score_witness :
  utils.CalculateHotScore log10 1 0 1577881800
  = utils.CalculateHotScore log10 0 0 1577881800.
Proof. apply (first_upvote_keeps_hot_score log10 1 0 0 0); reflexivity. Defined.

(** ** [engine/social_engine.go]: refusals *)

(** A handler that refuses leaves the store as it is. This holds of each
    handler that writes, with one exception inside
    [handleFeedbackCreation]: there it holds of the refusals "User not
    found" and "Content not found" only. *)
Theorem refusal_leaves_store_unchanged now hex s :
  (∀ h, Success (handleOnboarding now h s).2 = false ->
        (handleOnboarding now h s).1 = s) ∧
  (∀ n, Success (handleForumCreation now n s).2 = false ->
        (handleForumCreation now n s).1 = s) ∧
  (∀ h f, Success (handleForumJoin h f s).2 = false ->
          (handleForumJoin h f s).1 = s) ∧
  (∀ h f, Success (handleForumLeave h f s).2 = false ->
          (handleForumLeave h f s).1 = s) ∧
  (∀ h f t b sh o,
     Success (handleContentCreation now hex h f t b sh o s).2 = false ->
     (handleContentCreation now hex h f t b sh o s).1 = s) ∧
  (∀ h c p b,
     Success (handleFeedbackCreation now hex h c p b s).2 = false ->
     Message (handleFeedbackCreation now hex h c p b s).2
       ≠ "Parent feedback not found" ->
     (handleFeedbackCreation now hex h c p b s).1 = s) ∧
  (∀ h i pos isc, Success (handleReaction h i pos isc s).2 = false ->
                  (handleReaction h i pos isc s).1 = s) ∧
  (∀ a b c, Success (handleChatDelivery now hex a b c s).2 = false ->
            (handleChatDelivery now hex a b c s).1 = s) ∧
  (∀ h, Success (handleChatRetrieval h s).2 = false ->
        (handleChatRetrieval h s).1 = s) ∧
  (∀ h o, Success (handleActivityUpdate now h o s).2 = false ->
          (handleActivityUpdate now h o s).1 = s).
Proof.
  split_and!; intros *.
  - unfold handleOnboarding. by repeat (case_match || case_decide).
  - unfold handleForumCreation. by repeat (case_match || case_decide).
  - unfold handleForumJoin. by repeat case_match.
  - unfold handleForumLeave. by repeat case_match.
  - unfold handleContentCreation. by repeat case_match.
  - unfold handleFeedbackCreation. by repeat (case_match || case_decide).
  - unfold handleReaction. by repeat (case_match || case_decide).
  - unfold handleChatDelivery. by repeat case_match.
  - unfold handleChatRetrieval. by repeat case_match.
  - unfold handleActivityUpdate. by repeat case_match.
Qed.

(** ** Names *)

Lemma exec_names e s : names_inv s -> names_inv (exec e s).
Proof.
  intros [HU HF]. destruct e as [now hex msg|now now']; simpl.
  - destruct msg; simpl; try done.
    + unfold handleOnboarding. case_decide; [done|].
      destruct (users s !! UserHandle) eqn:Hu; [done|]. split; [|done].
      simpl. intros h u Hh.
      apply lookup_insert_Some in Hh as [[<- <-]|[_ Hh]]; eauto.
    + unfold handleForumCreation. case_decide; [done|].
      destruct (forums s !! Name) eqn:Hf; [done|]. split; [done|].
      simpl. intros n f Hn.
      apply lookup_insert_Some in Hn as [[<- <-]|[_ Hn]]; eauto.
    + unfold handleForumJoin.
      destruct (users s !! UserHandle) as [u|] eqn:Hu; [|done].
      destruct (forums s !! Subreddit) as [f|] eqn:Hf; [|done].
      destruct (index_bool _ _); [done|]. split; simpl.
      * intros h u' Hh.
        apply lookup_insert_Some in Hh as [[<- <-]|[_ Hh]]; simpl; eauto.
      * intros n f' Hn.
        apply lookup_insert_Some in Hn as [[<- <-]|[_ Hn]]; simpl; eauto.
    + unfold handleForumLeave.
      destruct (users s !! UserHandle) as [u|] eqn:Hu; [|done].
      destruct (forums s !! Subreddit) as [f|] eqn:Hf; [|done].
      destruct (negb _); [done|]. split; simpl.
      * intros h u' Hh.
        apply lookup_insert_Some in Hh as [[<- <-]|[_ Hh]]; simpl; eauto.
      * intros n f' Hn.
        apply lookup_insert_Some in Hn as [[<- <-]|[_ Hn]]; simpl; eauto.
    + unfold handleContentCreation.
      destruct (users s !! UserHandle) as [u|] eqn:Hu; [|done].
      destruct (forums s !! Subreddit) as [f|] eqn:Hf; [|done].
      split; [done|]. simpl. intros n f' Hn.
      apply lookup_insert_Some in Hn as [[<- <-]|[_ Hn]]; simpl; eauto.
    + unfold handleFeedbackCreation. by repeat (case_match || case_decide).
    + unfold handleReaction.
      repeat (case_match || case_decide); by simplify_eq.
    + unfold handleChatDelivery. by repeat case_match.
    + unfold handleChatRetrieval. by repeat case_match.
    + unfold handleActivityUpdate.
      destruct (users s !! UserHandle) as [u|] eqn:Hu; [|done].
      split; [|done]. simpl. intros h u' Hh.
      apply lookup_insert_Some in Hh as [[<- <-]|[_ Hh]]; simpl; eauto.
  - split; [|done]. simpl. intros h u Hh.
    rewrite lookup_fmap in Hh.
    destruct (users s !! h) as [u0|] eqn:Hu; simplify_eq/=.
    destruct (HU h u0 Hu) as (? & ? & ?). by destruct (_ && _).
Qed.

(** After every command and every sweep: a user is filed under its own
    handle and a forum under its own name, neither the handle nor the
    name is empty, and every user has zero points (no handler writes
    [UserData.Points]). *)
Theorem names_match_keys s :
  reachable s ->
  (∀ h u, users s !! h = Some u ->
     UserData.Handle u = h ∧ h ≠ "" ∧ UserData.Points u = 0) ∧
  (∀ n f, forums s !! n = Some f -> ForumData.Name f = n ∧ n ≠ "").
Proof.
  apply (reachable_invariant names_inv); [|apply exec_names].
  split; simpl; intros ? ? H; by rewrite lookup_empty in H.
Qed.

Lemma names_match_keys_witness :
  users demo !! "carol" = Some demo_carol ∧
  UserData.Handle demo_carol = "carol" ∧ UserData.Points demo_carol = 0.
Proof.
  assert (Hu : users demo !! "carol" = Some demo_carol)
    by (vm_compute; reflexivity).
  destruct (names_match_keys demo reachable_demo) as [HU _].
  destruct (HU _ _ Hu) as (H1 & _ & H2). exact (conj Hu (conj H1 H2)).
Defined.

(** ** What is never lost *)

Lemma same_post_refl c : same_post c c.
Proof. by repeat split. Qed.

Lemma same_comment_refl f : same_comment f f.
Proof. by repeat split. Qed.

Lemma same_post_trans c1 c2 c3 :
  same_post c1 c2 -> same_post c2 c3 -> same_post c1 c3.
Proof.
  unfold same_post. intros (?&?&?&?&?&?&?&?) (?&?&?&?&?&?&?&?).
  split_and!; congruence.
Qed.

Lemma same_comment_trans f1 f2 f3 :
  same_comment f1 f2 -> same_comment f2 f3 -> same_comment f1 f3.
Proof.
  unfold same_comment. intros (?&?&?&?&?&?) (?&?&?&?&?&?).
  split_and!; congruence.
Qed.

Lemma extends_refl s : extends s s.
Proof.
  split_and!; eauto.
  - intros l c Hl. eauto using same_post_refl.
  - intros l f Hl. eauto using same_comment_refl.
Qed.

Lemma extends_trans s1 s2 s3 : extends s1 s2 -> extends s2 s3 -> extends s1 s3.
Proof.
  intros (U1 & F1 & C1 & B1 & CH1 & FH1) (U2 & F2 & C2 & B2 & CH2 & FH2).
  split_and!.
  - intros h u Hu. destruct (U1 _ _ Hu) as (u' & Hu' & ? & ?).
    destruct (U2 _ _ Hu') as (u'' & Hu'' & ? & ?).
    exists u''. split_and!; [done|congruence..].
  - intros n f Hf. destruct (F1 _ _ Hf) as (f' & Hf' & ? & ? & ?).
    destruct (F2 _ _ Hf') as (f'' & Hf'' & ? & ? & ?).
    exists f''. split_and!; [done|congruence..|by etrans].
  - auto.
  - auto.
  - intros l c Hl. destruct (CH1 _ _ Hl) as (c' & Hl' & ? & ?).
    destruct (CH2 _ _ Hl') as (c'' & Hl'' & ? & ?).
    exists c''. split_and!; [done|by eapply same_post_trans|by etrans].
  - intros l f Hl. destruct (FH1 _ _ Hl) as (f' & Hl' & ? & ?).
    destruct (FH2 _ _ Hl') as (f'' & Hl'' & ? & ?).
    exists f''. split_and!; [done|by eapply same_comment_trans|by etrans].
Qed.

(** The six parts of [extends], when the part of the store is as it
    was. *)
Lemma extends_parts s s' :
  (users s' = users s ∨
   ∃ h u', users s' = <[h := u']> (users s) ∧
     ∀ u, users s !! h = Some u ->
          UserData.Handle u' = UserData.Handle u ∧
          UserData.Points u' = UserData.Points u) ->
  (forums s' = forums s ∨
   ∃ n f', forums s' = <[n := f']> (forums s) ∧
     ∀ f, forums s !! n = Some f ->
          ForumData.Name f' = ForumData.Name f ∧
          ForumData.Created f' = ForumData.Created f ∧
          ForumData.Contents f `prefix_of` ForumData.Contents f') ->
  (contents s' = contents s ∨ ∃ id l, contents s' = <[id := l]> (contents s)) ->
  (feedbacks s' = feedbacks s ∨
   ∃ id l, feedbacks s' = <[id := l]> (feedbacks s)) ->
  (∀ l c, content_heap s !! l = Some c ->
     ∃ c', content_heap s' !! l = Some c' ∧ same_post c c' ∧
           Content.Feedback c `prefix_of` Content.Feedback c') ->
  (∀ l f, feedback_heap s !! l = Some f ->
     ∃ f', feedback_heap s' !! l = Some f' ∧ same_comment f f' ∧
           Feedback.Replies f `prefix_of` Feedback.Replies f') ->
  extends s s'.
Proof.
  intros HU HF HC HB HCH HFH. split_and!; [| | | |done|done].
  - intros h u Hu. destruct HU as [->|(h' & u' & -> & Hsame)]; [eauto|].
    destruct (decide (h' = h)) as [->|Hne].
    + rewrite lookup_insert_eq. destruct (Hsame _ Hu). eauto.
    + rewrite lookup_insert_ne by done. eauto.
  - intros n f Hf. destruct HF as [->|(n' & f' & -> & Hsame)]; [eauto|].
    destruct (decide (n' = n)) as [->|Hne].
    + rewrite lookup_insert_eq. destruct (Hsame _ Hf) as (? & ? & ?). eauto.
    + rewrite lookup_insert_ne by done. eauto.
  - intros id Hid. destruct HC as [->|(id' & l & ->)]; [done|].
    rewrite lookup_insert_is_Some. destruct (decide (id' = id)); auto.
  - intros id Hid. destruct HB as [->|(id' & l & ->)]; [done|].
    rewrite lookup_insert_is_Some. destruct (decide (id' = id)); auto.
Qed.

Lemma heap_kept {A} (h : list A) (R : A -> A -> Prop) :
  (∀ x, R x x) ->
  ∀ l x, h !! l = Some x -> ∃ x', h !! l = Some x' ∧ R x x'.
Proof. eauto. Qed.

Lemma heap_app_kept {A} (h : list A) (new : A) (R : A -> A -> Prop) :
  (∀ x, R x x) ->
  ∀ l x, h !! l = Some x -> ∃ x', (h ++ [new]) !! l = Some x' ∧ R x x'.
Proof. intros HR l x Hl. exists x. split; [by apply lookup_app_l_Some|done]. Qed.

Lemma heap_alter_kept {A} (h : list A) (g : A -> A) i (R : A -> A -> Prop) :
  (∀ x, R x x) -> (∀ x, R x (g x)) ->
  ∀ l x, h !! l = Some x -> ∃ x', alter g i h !! l = Some x' ∧ R x x'.
Proof.
  intros HR Hg l x Hl. destruct (decide (i = l)) as [->|Hne].
  - rewrite list_lookup_alter_eq, Hl. simpl. eauto.
  - rewrite list_lookup_alter_ne by done. eauto.
Qed.


Lemma kept_post_refl c : kept_post c c.
Proof. split; [apply same_post_refl|done]. Qed.
Lemma kept_comment_refl f : kept_comment f f.
Proof. split; [apply same_comment_refl|done]. Qed.
Lemma kept_post_react h v c : kept_post c (Content.react h v c).
Proof. split; [by repeat split|done]. Qed.
Lemma kept_comment_react h v f : kept_comment f (Feedback.react h v f).
Proof. split; [by repeat split|done]. Qed.
Lemma kept_post_add_feedback l c : kept_post c (Content.add_feedback l c).
Proof. split; [by repeat split|]. simpl. by apply prefix_app_r. Qed.
Lemma kept_comment_add_reply l f : kept_comment f (Feedback.add_reply l f).
Proof. split; [by repeat split|]. simpl. by apply prefix_app_r. Qed.

Ltac unchanged_parts :=
  apply extends_parts; simpl;
  try (by left);
  try (by apply (heap_kept _ kept_post kept_post_refl));
  try (by apply (heap_kept _ kept_comment kept_comment_refl)).

Lemma exec_extends e s : extends s (exec e s).
Proof.
  destruct e as [now hex msg|now now']; simpl.
  - destruct msg; simpl; try apply extends_refl.
    + unfold handleOnboarding. case_decide; [apply extends_refl|].
      destruct (users s !! UserHandle) eqn:Hu; [apply extends_refl|].
      unchanged_parts.
      right. eexists _, _. split; [done|]. intros u. by rewrite Hu.
    + unfold handleForumCreation. case_decide; [apply extends_refl|].
      destruct (forums s !! Name) eqn:Hf; [apply extends_refl|].
      unchanged_parts.
      right. eexists _, _. split; [done|]. intros f. by rewrite Hf.
    + unfold handleForumJoin.
      destruct (users s !! UserHandle) as [u|] eqn:Hu; [|apply extends_refl].
      destruct (forums s !! Subreddit) as [f|] eqn:Hf; [|apply extends_refl].
      destruct (index_bool _ _); [apply extends_refl|].
      unchanged_parts.
      * right. eexists _, _. split; [done|]. intros u'. rewrite Hu.
        by intros [= <-].
      * right. eexists _, _. split; [done|]. intros f'. rewrite Hf.
        by intros [= <-].
    + unfold handleForumLeave.
      destruct (users s !! UserHandle) as [u|] eqn:Hu; [|apply extends_refl].
      destruct (forums s !! Subreddit) as [f|] eqn:Hf; [|apply extends_refl].
      destruct (negb _); [apply extends_refl|].
      unchanged_parts.
      * right. eexists _, _. split; [done|]. intros u'. rewrite Hu.
        by intros [= <-].
      * right. eexists _, _. split; [done|]. intros f'. rewrite Hf.
        by intros [= <-].
    + unfold handleContentCreation.
      destruct (users s !! UserHandle) as [u|] eqn:Hu; [|apply extends_refl].
      destruct (forums s !! Subreddit) as [f|] eqn:Hf; [|apply extends_refl].
      unchanged_parts.
      * right. eexists _, _. split; [done|]. intros f'. rewrite Hf.
        intros [= <-]. simpl. split_and!; [done..|]. by apply prefix_app_r.
      * right. by eexists _, _.
      * apply (heap_app_kept _ _ kept_post), kept_post_refl.
    + unfold handleFeedbackCreation.
      destruct (users s !! UserHandle) as [u|] eqn:Hu; [|apply extends_refl].
      destruct (contents s !! ContentId) as [cl|] eqn:Hc; [|apply extends_refl].
      set (fb := Feedback.mk _ _ _ _ _ _ _ _ _).
      assert (Hfh : ∀ l f, feedback_heap s !! l = Some f ->
                ∃ f', (feedback_heap s ++ [fb]) !! l = Some f' ∧
                      kept_comment f f')
        by apply (heap_app_kept _ _ kept_comment), kept_comment_refl.
      case_decide; [|destruct (feedbacks _ !! ParentId) as [pl|] eqn:Hp];
        unchanged_parts; try (right; by eexists _, _); try exact Hfh.
      * apply (heap_alter_kept _ _ _ kept_post);
          auto using kept_post_refl, kept_post_add_feedback.
      * intros l f Hl. destruct (Hfh l f Hl) as (f' & Hl' & Hk).
        destruct (heap_alter_kept (feedback_heap s ++ [fb])
                    (Feedback.add_reply (length (feedback_heap s))) pl
                    kept_comment kept_comment_refl
                    (kept_comment_add_reply _) l f' Hl') as (f'' & Hl'' & Hk').
        exists f''. split; [done|]. destruct Hk, Hk'. split.
        -- by eapply same_comment_trans.
        -- by etrans.
    + unfold handleReaction.
      destruct (users s !! UserHandle) as [u|] eqn:Hu; [|apply extends_refl].
      destruct IsContent.
      * destruct (contents s !! ItemId); [|apply extends_refl].
        unchanged_parts.
        apply (heap_alter_kept _ _ _ kept_post);
          auto using kept_post_refl, kept_post_react.
      * destruct (feedbacks s !! ItemId); [|apply extends_refl].
        unchanged_parts.
        apply (heap_alter_kept _ _ _ kept_comment);
          auto using kept_comment_refl, kept_comment_react.
    + unfold handleChatDelivery.
      repeat case_match; try apply extends_refl.
      unchanged_parts.
    + unfold handleChatRetrieval.
      repeat case_match; try apply extends_refl.
      unchanged_parts.
    + unfold handleActivityUpdate.
      destruct (users s !! UserHandle) as [u|] eqn:Hu; [|apply extends_refl].
      unchanged_parts.
      right. eexists _, _. split; [done|]. intros u'. rewrite Hu.
      by intros [= <-].
  - split_and!; simpl; eauto using same_post_refl, same_comment_refl.
    intros h u Hu. rewrite lookup_fmap, Hu. simpl.
    eexists. split; [done|]. by destruct (_ && _).
Qed.

(** Nothing is deleted and nothing is edited. Along any history, from any
    store: a registered user stays registered, with its handle; a forum
    stays, with its name, its date and the contents it listed, in their
    order; an id of a content or of a feedback stays known; and a content
    or a feedback keeps its id, creator, text, timestamp and the other
    fields it was created with, and the comments or replies it had, in
    their order. *)
Theorem store_only_grows tr s : extends s (run tr s).
Proof.
  revert s. induction tr as [|e tr IH]; intros s; [apply extends_refl|].
  change (run (e :: tr) s) with (run tr (exec e s)).
  eapply extends_trans; [apply exec_extends|apply IH].
Qed.

(** ** References *)

Lemma content_refs_mono s s' c :
  extends s s' -> content_refs s c -> content_refs s' c.
Proof.
  intros (U & F & _) ([u Hu] & [f Hf] & Hid). split_and!; [| |done].
  - destruct (U _ _ Hu) as (? & -> & _). eauto.
  - destruct (F _ _ Hf) as (? & -> & _). eauto.
Qed.

Lemma feedback_refs_mono s s' f :
  extends s s' -> feedback_refs s f -> feedback_refs s' f.
Proof.
  intros (U & _ & C & _) ([u Hu] & Hc & Hid). split_and!; [|auto|done].
  destruct (U _ _ Hu) as (? & -> & _). eauto.
Qed.

Lemma references_same_heaps s s' :
  extends s s' ->
  content_heap s' = content_heap s -> feedback_heap s' = feedback_heap s ->
  contents s' = contents s -> feedbacks s' = feedbacks s ->
  references_inv s -> references_inv s'.
Proof.
  intros Hext Hch Hfh Hc Hf (R1 & R2 & R3 & R4). unfold references_inv.
  split_and!.
  - rewrite Hch. eapply Forall_impl; [exact R1|]. intros c.
    apply (content_refs_mono _ _ _ Hext).
  - rewrite Hfh. eapply Forall_impl; [exact R2|]. intros f.
    apply (feedback_refs_mono _ _ _ Hext).
  - by rewrite Hch, Hc.
  - by rewrite Hfh, Hf.
Qed.

Lemma table_alter_kept {A} (tab : gmap string nat) (h : list A) (g : A -> A)
    (key : A -> string) i :
  (∀ x, key (g x) = key x) ->
  (∀ id l, tab !! id = Some l -> ∃ x, h !! l = Some x ∧ key x = id) ->
  ∀ id l, tab !! id = Some l -> ∃ x, alter g i h !! l = Some x ∧ key x = id.
Proof.
  intros Hg Htab id l Hl. destruct (Htab _ _ Hl) as (x & Hx & Hk).
  destruct (decide (i = l)) as [->|Hne].
  - rewrite list_lookup_alter_eq, Hx. simpl. eexists. split; [done|].
    by rewrite Hg.
  - rewrite list_lookup_alter_ne by done. eauto.
Qed.

Lemma table_alloc_kept {A} (tab : gmap string nat) (h : list A) (new : A)
    (key : A -> string) :
  (∀ id l, tab !! id = Some l -> ∃ x, h !! l = Some x ∧ key x = id) ->
  ∀ id l, <[key new := length h]> tab !! id = Some l ->
          ∃ x, (h ++ [new]) !! l = Some x ∧ key x = id.
Proof.
  intros Htab id l Hl. apply lookup_insert_Some in Hl as [[<- <-]|[_ Hl]].
  - exists new. split; [|done]. by rewrite lookup_app_r, Nat.sub_diag.
  - destruct (Htab _ _ Hl) as (x & Hx & Hk). exists x.
    split; [by apply lookup_app_l_Some|done].
Qed.

Lemma exec_references e s : references_inv s -> references_inv (exec e s).
Proof.
  intros Hinv. pose proof (exec_extends e s) as Hext.
  destruct e as [now hex msg|now now']; simpl in *;
    [|by apply (references_same_heaps s)].
  destruct msg; simpl in *; try done.
  - revert Hext. unfold handleOnboarding.
    repeat (case_match || case_decide); try done;
      intros Hext; by apply (references_same_heaps s).
  - revert Hext. unfold handleForumCreation.
    repeat (case_match || case_decide); try done;
      intros Hext; by apply (references_same_heaps s).
  - revert Hext. unfold handleForumJoin. repeat case_match; try done;
      intros Hext; by apply (references_same_heaps s).
  - revert Hext. unfold handleForumLeave. repeat case_match; try done;
      intros Hext; by apply (references_same_heaps s).
  - revert Hext. unfold handleContentCreation.
    destruct (users s !! UserHandle) as [u|] eqn:Hu; [|done].
    destruct (forums s !! Subreddit) as [f|] eqn:Hf; [|done].
    simpl. set (c := Content.mk _ _ _ _ _ _ _ _ _ _ _).
    set (s' := set_forums _ _). intros Hext.
    destruct Hinv as (R1 & R2 & R3 & R4). split_and!; simpl.
    + apply Forall_app. split.
      * eapply Forall_impl; [exact R1|]. intros x.
        apply (content_refs_mono _ _ _ Hext).
      * apply Forall_singleton. split_and!; simpl; [by rewrite Hu| |by eexists].
        rewrite lookup_insert_eq. eauto.
    + eapply Forall_impl; [exact R2|]. intros x.
      apply (feedback_refs_mono _ _ _ Hext).
    + apply (table_alloc_kept (contents s) (content_heap s) c
               Content.ContentId R3).
    + done.
  - revert Hext. unfold handleFeedbackCreation.
    destruct (users s !! UserHandle) as [u|] eqn:Hu; [|done].
    destruct (contents s !! ContentId) as [cl|] eqn:Hc; [|done].
    set (fb := Feedback.mk _ _ _ _ _ _ _ _ _).
    destruct Hinv as (R1 & R2 & R3 & R4).
    assert (Hfb : ∀ s', extends s s' ->
              Forall (feedback_refs s') (feedback_heap s ++ [fb])).
    { intros s' Hext. apply Forall_app. split.
      - eapply Forall_impl; [exact R2|]. intros x.
        apply (feedback_refs_mono _ _ _ Hext).
      - apply Forall_singleton. apply (feedback_refs_mono _ _ _ Hext).
        split_and!; simpl; [by rewrite Hu|by rewrite Hc|by eexists]. }
    assert (Hch : ∀ s', extends s s' -> Forall (content_refs s') (content_heap s)).
    { intros s' Hext. eapply Forall_impl; [exact R1|]. intros x.
      apply (content_refs_mono _ _ _ Hext). }
    pose proof (table_alloc_kept (feedbacks s) (feedback_heap s) fb
                  Feedback.FeedbackId R4) as Htab.
    case_decide; [|destruct (feedbacks _ !! ParentId) as [pl|] eqn:Hp];
      simpl; intros Hext; split_and!; simpl; auto;
      try exact (Hfb s (extends_refl s)).
    + apply Forall_alter; [exact R1|]. intros x _ Hx. exact Hx.
    + by apply (table_alter_kept _ _ _ Content.ContentId).
    + apply Forall_alter; [exact (Hfb s (extends_refl s))|].
      intros x _ Hx. exact Hx.
    + by apply (table_alter_kept _ _ _ Feedback.FeedbackId).
  - revert Hext. unfold handleReaction.
    destruct (users s !! UserHandle) as [u|] eqn:Hu; [|done].
    destruct Hinv as (R1 & R2 & R3 & R4).
    destruct IsContent.
    + destruct (contents s !! ItemId) as [l|]; [|done]. simpl. intros Hext.
      split_and!; simpl; auto.
      * apply Forall_alter; [done|]. intros x _ Hx. exact Hx.
      * by apply (table_alter_kept _ _ _ Content.ContentId).
    + destruct (feedbacks s !! ItemId) as [l|]; [|done]. simpl. intros Hext.
      split_and!; simpl; auto.
      * apply Forall_alter; [done|]. intros x _ Hx. exact Hx.
      * by apply (table_alter_kept _ _ _ Feedback.FeedbackId).
  - revert Hext. unfold handleChatDelivery. repeat case_match; try done;
      intros Hext; by apply (references_same_heaps s).
  - revert Hext. unfold handleChatRetrieval. repeat case_match; try done;
      intros Hext; by apply (references_same_heaps s).
  - revert Hext. unfold handleActivityUpdate. repeat case_match; try done;
      intros Hext; by apply (references_same_heaps s).
Qed.

Lemma reachable_references s : reachable s -> references_inv s.
Proof.
  apply reachable_invariant; [|apply exec_references].
  split_and!; simpl; try done; intros ? ? H; by rewrite lookup_empty in H.
Qed.

(** After every command and every sweep, what is referred to exists: the
    creator of a content is a registered user and its forum is a forum of
    the store; the creator of a feedback is a registered user and the
    content it comments is known to the table of contents; and an id of
    either table leads to the object that bears this id. *)
Theorem references_resolve s :
  reachable s ->
  (∀ c, c ∈ content_heap s ->
     is_Some (users s !! Content.Creator c) ∧
     is_Some (forums s !! Content.Subreddit c)) ∧
  (∀ f, f ∈ feedback_heap s ->
     is_Some (users s !! Feedback.Creator f) ∧
     is_Some (contents s !! Feedback.ContentId f)) ∧
  (∀ id l, contents s !! id = Some l ->
     ∃ c, content_heap s !! l = Some c ∧ Content.ContentId c = id ∧
          handleGetPost id s = ok "Post retrieved successfully" (Some c)) ∧
  (∀ id l, feedbacks s !! id = Some l ->
     ∃ f, feedback_heap s !! l = Some f ∧ Feedback.FeedbackId f = id).
Proof.
  intros Hs. destruct (reachable_references s Hs) as (R1 & R2 & R3 & R4).
  rewrite Forall_forall in R1. rewrite Forall_forall in R2. split_and!.
  - intros c Hc. destruct (R1 c Hc) as (? & ? & _). done.
  - intros f Hf. destruct (R2 f Hf) as (? & ? & _). done.
  - intros id l Hl. destruct (R3 id l Hl) as (c & Hc & Hid).
    exists c. split_and!; [done..|]. unfold handleGetPost. by rewrite Hl, Hc.
  - done.
Qed.

Lemma references_resolve_witness :
  demo_post ∈ content_heap demo ∧
  is_Some (users demo !! Content.Creator demo_post) ∧
  is_Some (forums demo !! Content.Subreddit demo_post).
Proof.
  assert (Hin : demo_post ∈ content_heap demo).
  { apply (list_elem_of_lookup_2 _ 0%nat). vm_compute. reflexivity. }
  split; [exact Hin|].
  destruct (references_resolve demo) as (H & _); [by exists demo_trace|].
  by apply H.
Defined.

Lemma GenerateID_cnt_fdb hex hex' :
  utils.GenerateID "cnt" hex ≠ utils.GenerateID "fdb" hex'.
Proof. discriminate. Qed.

(** An id names a content or a feedback, never both: the ids of contents
    begin with "cnt_", those of feedback with "fdb_". So after every
    command a reaction that gives the id of a content for a feedback, or
    the id of a feedback for a content, is refused and changes nothing. *)
Theorem ids_do_not_cross s id :
  reachable s ->
  (is_Some (contents s !! id) ->
   (∃ hex, id = utils.GenerateID "cnt" hex) ∧ feedbacks s !! id = None ∧
   ∀ h pos, Success (handleReaction h id pos false s).2 = false ∧
            (handleReaction h id pos false s).1 = s) ∧
  (is_Some (feedbacks s !! id) ->
   (∃ hex, id = utils.GenerateID "fdb" hex) ∧ contents s !! id = None ∧
   ∀ h pos, Success (handleReaction h id pos true s).2 = false ∧
            (handleReaction h id pos true s).1 = s).
Proof.
  intros Hs. destruct (reachable_references s Hs) as (R1 & R2 & R3 & R4).
  rewrite Forall_forall in R1. rewrite Forall_forall in R2.
  assert (Hc : ∀ l, contents s !! id = Some l ->
                    ∃ hex, id = utils.GenerateID "cnt" hex).
  { intros l Hl. destruct (R3 id l Hl) as (c & Hc & <-).
    destruct (R1 c) as (_ & _ & Hid); [by eapply list_elem_of_lookup_2|done]. }
  assert (Hf : ∀ l, feedbacks s !! id = Some l ->
                    ∃ hex, id = utils.GenerateID "fdb" hex).
  { intros l Hl. destruct (R4 id l Hl) as (f & Hf & <-).
    destruct (R2 f) as (_ & _ & Hid); [by eapply list_elem_of_lookup_2|done]. }
  split.
  - intros [l Hl]. destruct (Hc l Hl) as [hex ->].
    assert (Hnone : feedbacks s !! utils.GenerateID "cnt" hex = None).
    { destruct (feedbacks s !! _) as [l'|] eqn:E; [|done].
      destruct (Hf l' eq_refl) as [hex' Heq].
      by apply GenerateID_cnt_fdb in Heq. }
    split_and!; [by eexists|done|]. intros h pos.
    unfold handleReaction. rewrite Hnone. by destruct (users s !! h).
  - intros [l Hl]. destruct (Hf l Hl) as [hex ->].
    assert (Hnone : contents s !! utils.GenerateID "fdb" hex = None).
    { destruct (contents s !! _) as [l'|] eqn:E; [|done].
      destruct (Hc l' eq_refl) as [hex' Heq]. symmetry in Heq.
      by apply GenerateID_cnt_fdb in Heq. }
    split_and!; [by eexists|done|]. intros h pos.
    unfold handleReaction. rewrite Hnone. by destruct (users s !! h).
Qed.

Lemma ids_do_not_cross_witness :
  is_Some (contents demo !! "cnt_01") ∧ feedbacks demo !! "cnt_01" = None ∧
  Success (handleReaction "bob" "cnt_01" true false demo).2 = false.
Proof.
  assert (Hc : is_Some (contents demo !! "cnt_01")) by (vm_compute; eauto).
  destruct (ids_do_not_cross demo "cnt_01") as [H _]; [by exists demo_trace|].
  destruct (H Hc) as (_ & Hnone & Hr). split_and!; [done..|]. apply Hr.
Defined.

(** ** The lists of the forums *)

Lemma exec_listing e s :
  heap_wf s ∧ listing_inv s -> heap_wf (exec e s) ∧ listing_inv (exec e s).
Proof.
  intros [Hwf Hinv]. split; [by apply exec_wf|].
  destruct Hinv as [L1 L2]. destruct Hwf as (_ & _ & W3 & _).
  destruct e as [now hex msg|now now']; simpl; [|done].
  destruct msg; simpl; try done.
  - unfold handleOnboarding. by repeat (case_match || case_decide).
  - unfold handleForumCreation. case_decide; [done|].
    destruct (forums s !! Name) eqn:Hf; [done|]. split; simpl.
    + intros n f Hn. apply lookup_insert_Some in Hn as [[<- <-]|[_ Hn]]; simpl.
      * split; [constructor|]. intros l Hl. by apply elem_of_nil in Hl.
      * by apply L1.
    + intros l c Hl. destruct (L2 l c Hl) as (f & Hf' & Hin).
      exists f. split; [|done]. rewrite lookup_insert_ne; [done|].
      intros Heq. rewrite <- Heq, Hf in Hf'. discriminate.
  - unfold handleForumJoin.
    destruct (users s !! UserHandle) as [u|] eqn:Hu; [|done].
    destruct (forums s !! Subreddit) as [f|] eqn:Hf; [|done].
    destruct (index_bool _ _); [done|]. split; simpl.
    + intros n f' Hn. apply lookup_insert_Some in Hn as [[<- <-]|[_ Hn]]; simpl.
      * by apply L1.
      * by apply L1.
    + intros l c Hl. destruct (L2 l c Hl) as (f' & Hf' & Hin).
      destruct (decide (Subreddit = Content.Subreddit c)) as [Heq|Hne].
      * rewrite <- Heq in Hf' |- *. rewrite Hf in Hf'. injection Hf' as <-.
        rewrite lookup_insert_eq. eexists. split; [done|]. done.
      * rewrite lookup_insert_ne by done. eauto.
  - unfold handleForumLeave.
    destruct (users s !! UserHandle) as [u|] eqn:Hu; [|done].
    destruct (forums s !! Subreddit) as [f|] eqn:Hf; [|done].
    destruct (negb _); [done|]. split; simpl.
    + intros n f' Hn. apply lookup_insert_Some in Hn as [[<- <-]|[_ Hn]]; simpl.
      * by apply L1.
      * by apply L1.
    + intros l c Hl. destruct (L2 l c Hl) as (f' & Hf' & Hin).
      destruct (decide (Subreddit = Content.Subreddit c)) as [Heq|Hne].
      * rewrite <- Heq in Hf' |- *. rewrite Hf in Hf'. injection Hf' as <-.
        rewrite lookup_insert_eq. eexists. split; [done|]. done.
      * rewrite lookup_insert_ne by done. eauto.
  - unfold handleContentCreation.
    destruct (users s !! UserHandle) as [u|] eqn:Hu; [|done].
    destruct (forums s !! Subreddit) as [f|] eqn:Hf; [|done].
    set (c := Content.mk _ _ _ _ _ _ _ _ _ _ _). split; simpl.
    + intros n f' Hn. apply lookup_insert_Some in Hn as [[<- <-]|[Hne Hn]]; simpl.
      * destruct (L1 _ _ Hf) as [Hnd Hsub]. split.
        -- apply NoDup_app. split_and!; [done| |apply NoDup_singleton].
           intros l Hl Hl'. apply list_elem_of_singleton in Hl'. subst l.
           specialize (W3 _ _ Hf). rewrite Forall_forall in W3.
           specialize (W3 _ Hl). lia.
        -- intros l Hl. apply elem_of_app in Hl as [Hl|Hl].
           ++ destruct (Hsub l Hl) as (c' & Hc' & ?). exists c'.
              split; [by apply lookup_app_l_Some|done].
           ++ apply list_elem_of_singleton in Hl. subst l. exists c.
              split; [|done]. by rewrite lookup_app_r, Nat.sub_diag.
      * destruct (L1 _ _ Hn) as [Hnd Hsub]. split; [done|].
        intros l Hl. destruct (Hsub l Hl) as (c' & Hc' & ?). exists c'.
        split; [by apply lookup_app_l_Some|done].
    + intros l c' Hl. apply lookup_app_Some in Hl as [Hl|[Hlen Hl]].
      * destruct (L2 l c' Hl) as (f' & Hf' & Hin).
        destruct (decide (Subreddit = Content.Subreddit c')) as [Heq|Hne].
        -- rewrite <- Heq in Hf' |- *. rewrite Hf in Hf'. injection Hf' as <-.
           rewrite lookup_insert_eq. eexists. split; [done|]. simpl.
           apply elem_of_app. by left.
        -- rewrite lookup_insert_ne by done. eauto.
      * destruct (l - length (content_heap s))%nat as [|k] eqn:Hk;
          [|by destruct k].
        simpl in Hl. simplify_eq/=. rewrite lookup_insert_eq.
        eexists. split; [done|]. simpl. apply elem_of_app. right.
        apply list_elem_of_singleton. lia.
  - unfold handleFeedbackCreation.
    destruct (users s !! UserHandle) as [u|] eqn:Hu; [|done].
    destruct (contents s !! ContentId) as [cl|] eqn:Hc; [|done].
    case_decide; [|by case_match]. split; simpl.
    + intros n f Hn. destruct (L1 _ _ Hn) as [Hnd Hsub]. split; [done|].
      intros l Hl. destruct (Hsub l Hl) as (c' & Hc' & ?).
      destruct (decide (cl = l)) as [->|Hne].
      * rewrite list_lookup_alter_eq, Hc'. simpl. eauto.
      * rewrite list_lookup_alter_ne by done. eauto.
    + intros l c Hl. destruct (decide (cl = l)) as [->|Hne].
      * rewrite list_lookup_alter_eq in Hl.
        destruct (content_heap s !! l) as [c0|] eqn:Hc0; simplify_eq/=.
        by apply L2.
      * rewrite list_lookup_alter_ne in Hl by done. by apply L2.
  - unfold handleReaction.
    destruct (users s !! UserHandle) as [u|] eqn:Hu; [|done].
    destruct IsContent; [|by destruct (feedbacks s !! ItemId)].
    destruct (contents s !! ItemId) as [cl|] eqn:Hc; [|done]. split; simpl.
    + intros n f Hn. destruct (L1 _ _ Hn) as [Hnd Hsub]. split; [done|].
      intros l Hl. destruct (Hsub l Hl) as (c' & Hc' & ?).
      destruct (decide (cl = l)) as [->|Hne].
      * rewrite list_lookup_alter_eq, Hc'. simpl. eauto.
      * rewrite list_lookup_alter_ne by done. eauto.
    + intros l c Hl. destruct (decide (cl = l)) as [->|Hne].
      * rewrite list_lookup_alter_eq in Hl.
        destruct (content_heap s !! l) as [c0|] eqn:Hc0; simplify_eq/=.
        by apply L2.
      * rewrite list_lookup_alter_ne in Hl by done. by apply L2.
  - unfold handleChatDelivery. by repeat case_match.
  - unfold handleChatRetrieval. by repeat case_match.
  - unfold handleActivityUpdate. by repeat case_match.
Qed.

Lemma reachable_listing s : reachable s -> listing_inv s.
Proof.
  intros Hs.
  apply (reachable_invariant (λ s, heap_wf s ∧ listing_inv s)); [|apply exec_listing|done].
  split; [apply heap_wf_new|]. split; simpl.
  - intros ? ? H. by rewrite lookup_empty in H.
  - intros ? ? H. by rewrite lookup_nil in H.
Qed.

(** After every command and every sweep, a forum lists its own contents
    and every content is listed by its forum, once: what
    [GetForumDetails] returns for a forum are contents of that forum, and
    every content of the store, the one that [GetPost] returns for an id
    among them, is in the details of its forum. *)
Theorem forum_details_list_its_contents s :
  reachable s ->
  (∀ n f, forums s !! n = Some f -> NoDup (ForumData.Contents f)) ∧
  (∀ n c, c ∈ fd_Contents (Data (handleGetForumDetails n s)) ->
          Content.Subreddit c = n) ∧
  (∀ c, c ∈ content_heap s ->
        Success (handleGetForumDetails (Content.Subreddit c) s) = true ∧
        c ∈ fd_Contents
              (Data (handleGetForumDetails (Content.Subreddit c) s))) ∧
  (∀ id c, Data (handleGetPost id s) = Some c ->
           c ∈ fd_Contents
                 (Data (handleGetForumDetails (Content.Subreddit c) s))).
Proof.
  intros Hs. destruct (reachable_listing s Hs) as [L1 L2].
  assert (Hall : ∀ c, c ∈ content_heap s ->
            Success (handleGetForumDetails (Content.Subreddit c) s) = true ∧
            c ∈ fd_Contents
                  (Data (handleGetForumDetails (Content.Subreddit c) s))).
  { intros c Hc. apply list_elem_of_lookup in Hc as [l Hl].
    destruct (L2 l c Hl) as (f & Hf & Hin). unfold handleGetForumDetails.
    rewrite Hf. simpl. split; [done|]. apply list_elem_of_omap. eauto. }
  split_and!; [| |done|].
  - intros n f Hf. by destruct (L1 n f Hf).
  - intros n c. unfold handleGetForumDetails.
    destruct (forums s !! n) as [f|] eqn:Hf; simpl.
    + intros Hc. apply list_elem_of_omap in Hc as (l & Hl & Hc).
      destruct (L1 n f Hf) as [_ Hsub].
      destruct (Hsub l Hl) as (c' & Hc' & Hn). congruence.
    + intros Hc. by apply elem_of_nil in Hc.
  - intros id c. unfold handleGetPost.
    destruct (contents s !! id) as [l|]; simpl; [|done].
    intros Hl. apply Hall. by eapply list_elem_of_lookup_2.
Qed.

Lemma forum_details_list_its_contents_witness :
  demo_post ∈ content_heap demo ∧
  demo_post ∈ fd_Contents (Data (handleGetForumDetails "go" demo)).
Proof.
  assert (Hin : demo_post ∈ content_heap demo).
  { apply (list_elem_of_lookup_2 _ 0%nat). vm_compute. reflexivity. }
  split; [exact Hin|].
  destruct (forum_details_list_its_contents demo) as (_ & _ & H & _);
    [by exists demo_trace|].
  by apply (H demo_post).
Defined.

(** ** The inboxes *)

Lemma exec_inbox e s : inbox_inv s -> inbox_inv (exec e s).
Proof.
  intros Hinv. pose proof (exec_extends e s) as (U & _).
  assert (Hmono : ∀ h, is_Some (users s !! h) -> is_Some (users (exec e s) !! h)).
  { intros h [u Hu]. destruct (U _ _ Hu) as (? & -> & _). eauto. }
  assert (Hsame : chats (exec e s) = chats s -> inbox_inv (exec e s)).
  { intros Heq h msgs. rewrite Heq. intros Hm.
    destruct (Hinv h msgs Hm) as [Hh Hall]. split; [auto|].
    eapply Forall_impl; [exact Hall|]. simpl.
    intros m (? & ? & ?). auto. }
  destruct e as [now hex msg|now now']; simpl in *.
  - destruct msg; simpl in *; try (by apply Hsame).
    + apply Hsame. unfold handleOnboarding.
      by repeat (case_match || case_decide).
    + apply Hsame. unfold handleForumCreation.
      by repeat (case_match || case_decide).
    + apply Hsame. unfold handleForumJoin. by repeat case_match.
    + apply Hsame. unfold handleForumLeave. by repeat case_match.
    + apply Hsame. unfold handleContentCreation. by repeat case_match.
    + apply Hsame. unfold handleFeedbackCreation.
      by repeat (case_match || case_decide).
    + apply Hsame. unfold handleReaction.
      repeat (case_match || case_decide); by simplify_eq.
    + clear Hsame Hmono U. unfold handleChatDelivery.
      destruct (users s !! Sender) as [a|] eqn:Ha; [|done].
      destruct (users s !! Receiver) as [b|] eqn:Hb; [|done]. simpl.
      intros h msgs Hm. simpl in *.
      apply lookup_insert_Some in Hm as [[<- <-]|[_ Hm]]; [|by apply Hinv].
      split; [by rewrite Hb|]. apply Forall_app. split.
      * unfold inbox. destruct (chats s !! Receiver) as [old|] eqn:Hold;
          [|constructor]. by destruct (Hinv _ _ Hold).
      * apply Forall_singleton. simpl. split_and!; [done|by rewrite Ha|].
        by eexists.
    + clear Hsame Hmono U. unfold handleChatRetrieval.
      destruct (users s !! UserHandle) as [u|] eqn:Hu; [|done]. simpl.
      intros h msgs Hm. simpl in *. rewrite lookup_alter in Hm.
      case_decide as Hh.
      * subst h. destruct (chats s !! UserHandle) as [old|] eqn:Hold;
          simplify_eq/=.
        destruct (Hinv _ _ Hold) as [? Hall]. split; [done|].
        apply Forall_fmap. eapply Forall_impl; [exact Hall|]. done.
      * by apply Hinv.
    + apply Hsame. unfold handleActivityUpdate. by repeat case_match.
  - intros h msgs Hm. simpl in Hm. rewrite lookup_fmap in Hm.
    destruct (chats s !! h) as [old|] eqn:Hold; simplify_eq/=.
    destruct (Hinv _ _ Hold) as [Hh Hall]. split; [by apply Hmono|].
    apply Forall_forall. intros m Hm.
    apply list_elem_of_filter in Hm as [_ Hm].
    rewrite Forall_forall in Hall. destruct (Hall m Hm) as (? & ? & ?).
    split_and!; [done|by apply Hmono|done].
Qed.

(** After every command and every sweep, an inbox belongs to a registered
    user; each of its messages is addressed to that user, was sent by a
    registered user and bears an id that begins with "msg_". *)
Theorem inbox_holds_own_messages s handle m :
  reachable s -> m ∈ inbox s handle ->
  is_Some (users s !! handle) ∧
  DirectChat.Receiver m = handle ∧
  is_Some (users s !! DirectChat.Sender m) ∧
  ∃ hex, DirectChat.MessageId m = utils.GenerateID "msg" hex.
Proof.
  intros Hs. unfold inbox.
  destruct (chats s !! handle) as [msgs|] eqn:Hm; simpl;
    [|intros H; by apply elem_of_nil in H].
  intros Hin.
  assert (Hinv : inbox_inv s).
  { revert Hs. apply reachable_invariant; [|apply exec_inbox].
    intros ? ? H. simpl in H. by rewrite lookup_empty in H. }
  destruct (Hinv _ _ Hm) as [Hh Hall]. rewrite Forall_forall in Hall.
  destruct (Hall m Hin) as (? & ? & ?). done.
Qed.

Lemma inbox_holds_own_messages_witness :
  let m := DirectChat.mk "msg_04" "alice" "bob" "hey" 1577881800 false in
  m ∈ inbox demo "bob" ∧ is_Some (users demo !! "bob") ∧
  DirectChat.Receiver m = "bob".
Proof.
  cbv zeta.
  assert (Hin : DirectChat.mk "msg_04" "alice" "bob" "hey" 1577881800 false
                ∈ inbox demo "bob").
  { assert (inbox demo "bob"
            = [DirectChat.mk "msg_04" "alice" "bob" "hey" 1577881800 false])
      as -> by (vm_compute; reflexivity).
    by apply list_elem_of_singleton. }
  split; [exact Hin|].
  destruct (inbox_holds_own_messages demo "bob" _ reachable_demo Hin)
    as (? & ? & _). done.
Defined.

(** ** The feed and the forums joined *)

Lemma keys_in_order_spec : range_keys_spec keys_in_order.
Proof.
  intros m. unfold keys_in_order. split.
  - apply NoDup_fst_map_to_list.
  - intros k. rewrite list_elem_of_fmap. split.
    + intros ([k' b] & -> & Hkb). apply elem_of_map_to_list in Hkb. eauto.
    + intros [b Hb]. exists (k, b). split; [done|].
      by apply elem_of_map_to_list.
Qed.

Section FeedMembership.
Variable Log10 : float64 -> float64.
Variable sort_Slice : ∀ A : Type, (A -> A -> bool) -> list A -> list A.
Variable range_keys : gmap string bool -> list string.
Hypothesis sort_Slice_ok : sort_Slice_spec sort_Slice.
Hypothesis range_keys_ok : range_keys_spec range_keys.

Lemma elem_of_gather s user c :
  c ∈ gather range_keys user s <->
  ∃ n forum l, is_Some (UserData.Forums user !! n) ∧
               forums s !! n = Some forum ∧
               l ∈ ForumData.Contents forum ∧ content_heap s !! l = Some c.
Proof.
  unfold gather. rewrite list_elem_of_bind. split.
  - intros (n & Hc & Hn). apply range_keys_ok in Hn.
    destruct (forums s !! n) as [forum|] eqn:Hf;
      [|by apply elem_of_nil in Hc].
    apply list_elem_of_omap in Hc as (l & Hl & Hc). eauto 10.
  - intros (n & forum & l & Hn & Hf & Hl & Hc). exists n.
    split; [|by apply range_keys_ok]. rewrite Hf.
    apply list_elem_of_omap. eauto.
Qed.

(** The feed is made of the forums joined. After every command, for the
    feed of an existing user, whatever the sort method: a content of the
    feed is a content of the store whose forum the user has joined; with
    no limit (a limit that is not positive) every such content is in the
    feed; and a user who has joined no forum has an empty feed, which is
    a success. *)
Theorem feed_of_joined_forums s UserHandle SortMethod Limit user :
  reachable s -> users s !! UserHandle = Some user ->
  let feed :=
    handleFeedRequest Log10 sort_Slice range_keys UserHandle SortMethod
                      Limit s in
  Success feed = true ∧
  (∀ c, c ∈ Data feed ->
        c ∈ content_heap s ∧
        is_Some (UserData.Forums user !! Content.Subreddit c)) ∧
  (Limit <= 0 ->
   ∀ c, c ∈ content_heap s ->
        is_Some (UserData.Forums user !! Content.Subreddit c) ->
        c ∈ Data feed) ∧
  (UserData.Forums user = ∅ -> Data feed = []).
Proof.
  intros Hs Hu. destruct (reachable_listing s Hs) as [L1 L2].
  unfold handleFeedRequest. rewrite Hu. simpl. split_and!; [done|..].
  - intros c Hc. apply truncate_elem_of in Hc.
    rewrite (rank_perm Log10 sort_Slice sort_Slice_ok) in Hc.
    apply elem_of_gather in Hc as (n & forum & l & Hn & Hf & Hl & Hc).
    split; [by eapply list_elem_of_lookup_2|].
    destruct (L1 n forum Hf) as [_ Hsub].
    destruct (Hsub l Hl) as (c' & Hc' & <-). congruence.
  - intros HL c Hc Hn. unfold truncate.
    assert ((Limit >? 0) = false) as -> by lia. simpl.
    rewrite (rank_perm Log10 sort_Slice sort_Slice_ok).
    apply list_elem_of_lookup in Hc as [l Hl].
    destruct (L2 l c Hl) as (f & Hf & Hin).
    apply elem_of_gather. eauto 10.
  - intros Hempty.
    assert (Hg : gather range_keys user s = []).
    { apply elem_of_nil_inv. intros c Hc.
      apply elem_of_gather in Hc as (n & ? & ? & [b Hn] & _).
      rewrite Hempty in Hn. by rewrite lookup_empty in Hn. }
    rewrite Hg.
    pose proof (rank_perm Log10 sort_Slice sort_Slice_ok SortMethod []) as Hp.
    apply Permutation_nil_r in Hp. rewrite Hp. unfold truncate.
    destruct (_ && _); [apply take_nil|done].
Qed.
End FeedMembership.

Lemma feed_of_joined_forums_witness :
  Data (handleFeedRequest log10 insertionSort keys_in_order
                          "carol" "new" 10 demo) = [].
Proof.
  assert (Hu : users demo !! "carol" = Some demo_carol)
    by (vm_compute; reflexivity).
  destruct (feed_of_joined_forums log10 insertionSort keys_in_order
              insertionSort_spec keys_in_order_spec demo "carol" "new" 10
              demo_carol reachable_demo Hu) as (_ & _ & _ & Hempty).
  by apply Hempty.
Defined.

(** ** Creating and reading back *)

(** A content that is created can be read back. After every command, for
    an existing user and an existing forum: the creation succeeds and
    returns the new id; [GetPost] of this id returns the content, with
    the fields of the command, the second of the clock, no feedback, no
    reaction and no point; the forum lists what it listed, then the new
    content; its member count is as before; and the other forums are
    untouched. *)
Theorem created_content_is_read_back s now hex h f title body share orig
    user forum :
  reachable s ->
  users s !! h = Some user -> forums s !! f = Some forum ->
  let created := handleContentCreation now hex h f title body share orig s in
  let id := utils.GenerateID "cnt" hex in
  let c := Content.mk id h f title body (time.Unix now) [] ∅ 0 share orig in
  let before := Data (handleGetForumDetails f s) in
  let after := Data (handleGetForumDetails f created.1) in
  created.2 = ok "Content created successfully" id ∧
  handleGetPost id created.1 = ok "Post retrieved successfully" (Some c) ∧
  fd_Contents after = fd_Contents before ++ [c] ∧
  fd_MemberCount after = fd_MemberCount before ∧
  (∀ f', f' ≠ f -> forums created.1 !! f' = forums s !! f').
Proof.
  intros Hs Hu Hf. destruct (reachable_wf s Hs) as (_ & _ & W3 & _).
  unfold handleContentCreation. rewrite Hu, Hf. simpl.
  unfold handleGetPost, handleGetForumDetails. simpl.
  rewrite !lookup_insert_eq, Hf. simpl. split_and!; [done| | |done|].
  - by rewrite lookup_app_r, Nat.sub_diag.
  - f_equal. rewrite omap_app. simpl.
    rewrite lookup_app_r, Nat.sub_diag by done. simpl. f_equal.
    apply list_omap_ext. specialize (W3 _ _ Hf).
    induction W3 as [|l ls Hl _ IH]; constructor; [|done].
    by rewrite lookup_app_l.
  - intros f' Hne. by rewrite lookup_insert_ne.
Qed.

Lemma created_content_is_read_back_witness :
  let created :=
    handleContentCreation t1 "07" "carol" "go" "t" "b" false "" demo in
  created.2 = ok "Content created successfully" "cnt_07" ∧
  handleGetPost "cnt_07" created.1
  = ok "Post retrieved successfully"
       (Some (Content.mk "cnt_07" "carol" "go" "t" "b" 1577881800 [] ∅ 0
                         false "")).
Proof.
  assert (Hu : users demo !! "carol" = Some demo_carol)
    by (vm_compute; reflexivity).
  assert (Hf : forums demo !! "go" = Some demo_go)
    by (vm_compute; reflexivity).
  destruct (created_content_is_read_back demo t1 "07" "carol" "go" "t" "b"
              false "" demo_carol demo_go reachable_demo Hu Hf)
    as (H1 & H2 & _).
  split; [exact H1|exact H2].
Defined.

(** Where a feedback goes. In any store, for an existing user and an
    existing content, the creation with an empty parent id succeeds
    and appends the new feedback to the content's list, no reply list
    being touched; with the id of an existing feedback for parent (any
    but the id just drawn) it succeeds and appends the new feedback to
    the parent's replies, no content being touched. The parent is found
    by its id alone: nothing asks that it comments the same content. *)
Theorem created_feedback_is_attached s now hex h cid parent body cl c :
  is_Some (users s !! h) ->
  contents s !! cid = Some cl -> content_heap s !! cl = Some c ->
  let created := handleFeedbackCreation now hex h cid parent body s in
  let id := utils.GenerateID "fdb" hex in
  let l := length (feedback_heap s) in
  let fb := Feedback.mk id cid h body (time.Unix now) parent [] ∅ 0 in
  (parent = "" ->
   created.2 = ok "Feedback created successfully" id ∧
   feedbacks created.1 !! id = Some l ∧
   feedback_heap created.1 = feedback_heap s ++ [fb] ∧
   content_heap created.1 !! cl = Some (Content.add_feedback l c) ∧
   Content.Feedback (Content.add_feedback l c) = Content.Feedback c ++ [l] ∧
   ∀ l', l' ≠ cl -> content_heap created.1 !! l' = content_heap s !! l') ∧
  (∀ pl pf, parent ≠ "" -> parent ≠ id ->
     feedbacks s !! parent = Some pl -> feedback_heap s !! pl = Some pf ->
     created.2 = ok "Feedback created successfully" id ∧
     feedbacks created.1 !! id = Some l ∧
     feedback_heap created.1 !! l = Some fb ∧
     feedback_heap created.1 !! pl = Some (Feedback.add_reply l pf) ∧
     Feedback.Replies (Feedback.add_reply l pf) = Feedback.Replies pf ++ [l] ∧
     content_heap created.1 = content_heap s ∧
     ∀ l', l' ≠ pl -> (l' < l)%nat ->
           feedback_heap created.1 !! l' = feedback_heap s !! l').
Proof.
  intros [u Hu] Hc Hcl. simpl. unfold handleFeedbackCreation.
  rewrite Hu, Hc. split.
  - intros ->. simpl. split_and!; try done.
    + apply lookup_insert_eq.
    + by rewrite list_lookup_alter_eq, Hcl.
    + intros l' Hne. by rewrite list_lookup_alter_ne.
  - intros pl pf Hne Hid Hp Hpf. rewrite decide_False by done. simpl.
    rewrite lookup_insert_ne, Hp by done. simpl.
    assert (Hlt : (pl < length (feedback_heap s))%nat)
      by (by eapply lookup_lt_Some).
    split_and!; try done.
    + apply lookup_insert_eq.
    + rewrite list_lookup_alter_ne by lia.
      by rewrite lookup_app_r, Nat.sub_diag.
    + rewrite list_lookup_alter_eq, lookup_app_l, Hpf by done. done.
    + intros l' Hne' Hl'. rewrite list_lookup_alter_ne by done.
      by rewrite lookup_app_l.
Qed.

Lemma created_feedback_is_attached_witness :
  let created :=
    handleFeedbackCreation t1 "08" "carol" "cnt_01" "fdb_03" "re" demo in
  created.2 = ok "Feedback created successfully" "fdb_08" ∧
  content_heap created.1 = content_heap demo ∧
  Feedback.Replies <$> feedback_heap created.1 !! 0%nat = Some [1%nat].
Proof.
  assert (Hu : is_Some (users demo !! "carol")) by (vm_compute; eauto).
  assert (Hc : contents demo !! "cnt_01" = Some 0%nat)
    by (vm_compute; reflexivity).
  assert (Hcl : content_heap demo !! 0%nat = Some demo_post)
    by (vm_compute; reflexivity).
  pose (pf := Feedback.mk "fdb_03" "cnt_01" "bob" "nice" 1577881800 ""
                          [] ∅ 0).
  assert (Hp : feedbacks demo !! "fdb_03" = Some 0%nat)
    by (vm_compute; reflexivity).
  assert (Hpf : feedback_heap demo !! 0%nat = Some pf)
    by (vm_compute; reflexivity).
  destruct (created_feedback_is_attached demo t1 "08" "carol" "cnt_01"
              "fdb_03" "re" 0%nat demo_post Hu Hc Hcl)
    as [_ H].
  destruct (H 0%nat pf) as (H1 & _ & _ & H4 & _ & H6 & _);
    [discriminate|discriminate|exact Hp|exact Hpf|].
  split_and!; [exact H1|exact H6|]. by rewrite H4.
Defined.

(** ** Reactions *)

Lemma Content_react_override h v1 v2 c :
  Content.react h v2 (Content.react h v1 c) = Content.react h v2 c.
Proof.
  unfold Content.react. simpl. f_equal.
  - apply insert_insert_eq.
  - replace (index_int32 (<[h:=v1]> _) h) with v1
      by (unfold index_int32; by rewrite lookup_insert_eq).
    rewrite !wrap32_add_r, wrap32_add_l. f_equal. lia.
Qed.

Lemma Feedback_react_override h v1 v2 f :
  Feedback.react h v2 (Feedback.react h v1 f) = Feedback.react h v2 f.
Proof.
  unfold Feedback.react. simpl. f_equal.
  - apply insert_insert_eq.
  - replace (index_int32 (<[h:=v1]> _) h) with v1
      by (unfold index_int32; by rewrite lookup_insert_eq).
    rewrite !wrap32_add_r, wrap32_add_l. f_equal. lia.
Qed.

Lemma Content_react_commute h1 v1 h2 v2 c :
  h1 ≠ h2 ->
  Content.react h2 v2 (Content.react h1 v1 c)
  = Content.react h1 v1 (Content.react h2 v2 c).
Proof.
  intros Hne. unfold Content.react. simpl. f_equal.
  - by apply insert_insert_ne.
  - unfold index_int32. rewrite !lookup_insert_ne by done.
    rewrite !wrap32_add_r, !wrap32_add_l. f_equal. lia.
Qed.

Lemma Feedback_react_commute h1 v1 h2 v2 f :
  h1 ≠ h2 ->
  Feedback.react h2 v2 (Feedback.react h1 v1 f)
  = Feedback.react h1 v1 (Feedback.react h2 v2 f).
Proof.
  intros Hne. unfold Feedback.react. simpl. f_equal.
  - by apply insert_insert_ne.
  - unfold index_int32. rewrite !lookup_insert_ne by done.
    rewrite !wrap32_add_r, !wrap32_add_l. f_equal. lia.
Qed.

Lemma alter_override {A} (g1 g2 : A -> A) (l : list A) i :
  (∀ x, g2 (g1 x) = g2 x) -> alter g2 i (alter g1 i l) = alter g2 i l.
Proof.
  intros Hg. rewrite list_alter_alter_eq.
  apply list_alter_ext; [|done]. intros x _. apply Hg.
Qed.

Lemma alter_commute {A} (g1 g2 : A -> A) (l : list A) i j :
  (∀ x, g2 (g1 x) = g1 (g2 x)) ->
  alter g2 j (alter g1 i l) = alter g1 i (alter g2 j l).
Proof.
  intros Hg. destruct (decide (i = j)) as [->|Hne].
  - rewrite !list_alter_alter_eq. apply list_alter_ext; [|done].
    intros x _. apply Hg.
  - by apply list_alter_alter_ne.
Qed.

(** The last reaction wins. In any store, a reaction followed by a
    reaction of the same user to the same item gives the store and the
    answer of the second reaction alone, whichever the two directions. *)
Theorem last_reaction_wins s h item pos1 pos2 isContent :
  handleReaction h item pos2 isContent
    (handleReaction h item pos1 isContent s).1
  = handleReaction h item pos2 isContent s.
Proof.
  unfold handleReaction.
  destruct (users s !! h) as [u|] eqn:Hu; simpl; [|by rewrite Hu].
  destruct isContent.
  - destruct (contents s !! item) as [l|] eqn:Hl; simpl; rewrite Hu, Hl;
      [|done]. simpl.
    unfold set_content_heap. simpl. do 2 f_equal.
    apply alter_override. intros c. apply Content_react_override.
  - destruct (feedbacks s !! item) as [l|] eqn:Hl; simpl; rewrite Hu, Hl;
      [|done]. simpl.
    unfold set_feedback_heap. simpl. do 2 f_equal.
    apply alter_override. intros f. apply Feedback_react_override.
Qed.

(** The reactions of two users commute. In any store, for two different
    users, whatever the items, the directions and the kinds: the store
    after the two reactions does not depend on their order. *)
Theorem reactions_of_two_users_commute s h1 i1 p1 c1 h2 i2 p2 c2 :
  h1 ≠ h2 ->
  (handleReaction h2 i2 p2 c2 (handleReaction h1 i1 p1 c1 s).1).1
  = (handleReaction h1 i1 p1 c1 (handleReaction h2 i2 p2 c2 s).1).1.
Proof.
  intros Hne.
  assert (R : ∀ h i p c s',
    (handleReaction h i p c s').1 =
    match users s' !! h with
    | None => s'
    | Some _ =>
        if c then
          match contents s' !! i with
          | Some l =>
              set_content_heap
                (alter (Content.react h (if negb p then -1 else 1)) l
                       (content_heap s')) s'
          | None => s'
          end
        else
          match feedbacks s' !! i with
          | Some l =>
              set_feedback_heap
                (alter (Feedback.react h (if negb p then -1 else 1)) l
                       (feedback_heap s')) s'
          | None => s'
          end
    end).
  { intros h i p c s'. unfold handleReaction.
    destruct (users s' !! h); [|done].
    destruct c; [destruct (contents s' !! i)|destruct (feedbacks s' !! i)];
      done. }
  rewrite (R h2 i2 p2 c2 (handleReaction h1 i1 p1 c1 s).1).
  rewrite (R h1 i1 p1 c1 (handleReaction h2 i2 p2 c2 s).1).
  rewrite !R. clear R.
  destruct c1, c2;
    [ destruct (contents s !! i1) as [k1|] eqn:C1;
      destruct (contents s !! i2) as [k2|] eqn:C2
    | destruct (contents s !! i1) as [k1|] eqn:C1;
      destruct (feedbacks s !! i2) as [k2|] eqn:C2
    | destruct (feedbacks s !! i1) as [k1|] eqn:C1;
      destruct (contents s !! i2) as [k2|] eqn:C2
    | destruct (feedbacks s !! i1) as [k1|] eqn:C1;
      destruct (feedbacks s !! i2) as [k2|] eqn:C2 ];
    destruct (users s !! h1) as [u1|] eqn:Hu1;
    destruct (users s !! h2) as [u2|] eqn:Hu2;
    simpl; rewrite ?Hu1, ?Hu2; simpl; rewrite ?C1, ?C2; try done;
    unfold set_content_heap, set_feedback_heap; simpl; f_equal;
    first [ apply alter_commute; intros c; by apply Content_react_commute
          | apply alter_commute; intros f; by apply Feedback_react_commute ].
Qed.

Lemma reactions_of_two_users_commute_witness :
  (handleReaction "alice" "cnt_01" false true
     (handleReaction "bob" "cnt_01" true true demo).1).1
  = (handleReaction "bob" "cnt_01" true true
       (handleReaction "alice" "cnt_01" false true demo).1).1.
Proof.
  apply (reactions_of_two_users_commute demo "bob" "cnt_01" true true
           "alice" "cnt_01" false true).
  discriminate.
Defined.

(** What a vote adds. After every command, for an existing user and a
    content with fewer than [2^31 - 1] votes: the reaction changes the
    points by the new value minus the user's previous value, so by one
    for a first vote, by two for a changed vote and by nothing for a
    repeated one; and no other content and no feedback changes. *)
Theorem reaction_changes_points_by_difference s h item pos l c :
  reachable s -> is_Some (users s !! h) ->
  contents s !! item = Some l -> content_heap s !! l = Some c ->
  Z.of_nat (size (Content.Reactions c)) < 2 ^ 31 - 1 ->
  let s' := (handleReaction h item pos true s).1 in
  let value := if pos then 1 else -1 in
  let previous := index_int32 (Content.Reactions c) h in
  (∃ c', content_heap s' !! l = Some c' ∧
         Content.Points c' = Content.Points c + value - previous ∧
         (previous = 0 ∨ previous = 1 ∨ previous = -1)) ∧
  (∀ l', l' ≠ l -> content_heap s' !! l' = content_heap s !! l') ∧
  feedback_heap s' = feedback_heap s.
Proof.
  intros Hs Hu Hi Hl Hsize. simpl.
  destruct (reachable_points s Hs) as [Hc _]. rewrite Forall_forall in Hc.
  assert (Hok : reactions_ok (Content.Reactions c) (Content.Points c))
    by (apply Hc; by eapply list_elem_of_lookup_2).
  destruct (react_content_lookup s h item pos l c Hu Hi Hl) as [Hs' Hl'].
  rewrite Hs'. simpl. split_and!; [|intros l' Hne; by rewrite list_lookup_alter_ne|done].
  rewrite Hs' in Hl'. simpl in Hl'. eexists. split; [exact Hl'|].
  assert (Hprev : index_int32 (Content.Reactions c) h = 0 ∨
                  index_int32 (Content.Reactions c) h = 1 ∨
                  index_int32 (Content.Reactions c) h = -1).
  { unfold index_int32. destruct (Content.Reactions c !! h) as [v|] eqn:E;
      simpl; [|by left]. destruct Hok as [Hv _]. destruct (Hv _ _ E); auto. }
  split; [|done]. simpl.
  assert (Hvalue : (if negb pos then -1 else 1) = (if pos then 1 else -1))
    by (by destruct pos).
  rewrite Hvalue.
  pose proof (reactions_ok_exact _ _ Hok ltac:(lia)) as Hexact.
  assert (Hnew : reactions_ok
                    (<[h := if pos then 1 else -1]> (Content.Reactions c))
                    (Int.wrap32 (Content.Points c + Int.wrap32
                       ((if pos then 1 else -1)
                        - index_int32 (Content.Reactions c) h)))).
  { apply reactions_ok_react; [by destruct pos; auto|done]. }
  destruct Hnew as [Hv' _].
  pose proof (sum_reactions_bound _ Hv') as Hb.
  rewrite sum_reactions_insert in Hb.
  assert (Hsz : Z.of_nat (size (<[h := if pos then 1 else -1]>
                                   (Content.Reactions c)))
                <= Z.of_nat (size (Content.Reactions c)) + 1).
  { rewrite map_size_insert.
    destruct (Content.Reactions c !! h); unfold id; lia. }
  rewrite wrap32_add_r, wrap32_id; [lia|]. unfold Int.in_int32. lia.
Qed.

Lemma reaction_changes_points_by_difference_witness :
  Content.Points <$>
    content_heap (handleReaction "bob" "cnt_01" false true demo).1 !! 0%nat
  = Some (-1).
Proof.
  assert (Hu : is_Some (users demo !! "bob")) by (vm_compute; eauto).
  assert (Hc : contents demo !! "cnt_01" = Some 0%nat)
    by (vm_compute; reflexivity).
  assert (Hcl : content_heap demo !! 0%nat = Some demo_post)
    by (vm_compute; reflexivity).
  assert (Hsize : Z.of_nat (size (Content.Reactions demo_post)) < 2 ^ 31 - 1)
    by (vm_compute; reflexivity).
  destruct (reaction_changes_points_by_difference demo "bob" "cnt_01" false
              0%nat demo_post reachable_demo Hu Hc Hcl Hsize)
    as ((c' & Hc' & Hp & _) & _).
  rewrite Hc'. simpl. f_equal. rewrite Hp. vm_compute. reflexivity.
Defined.

(** ** The sweep and the online flag *)

Lemma cleanup_users_lookup now now' s h u :
  users s !! h = Some u ->
  ∃ u', users (cleanup now now' s) !! h = Some u' ∧
    UserData.Handle u' = UserData.Handle u ∧
    UserData.Points u' = UserData.Points u ∧
    UserData.Forums u' = UserData.Forums u ∧
    UserData.LastSeen u' = UserData.LastSeen u ∧
    (UserData.IsOnline u' = true <->
     UserData.IsOnline u = true ∧
     now' - 5 * time.Minute <= UserData.LastSeen u).
Proof.
  intros Hu. unfold cleanup. simpl. rewrite lookup_fmap, Hu. simpl.
  eexists. split; [done|].
  unfold time.Before, time.Add.
  destruct (UserData.IsOnline u) eqn:Hon; simpl.
  - destruct (UserData.LastSeen u <? now' + -5 * time.Minute) eqn:Hlt; simpl.
    + split_and!; try done. split; [done|]. intros [_ H].
      apply Z.ltb_lt in Hlt. lia.
    + rewrite Hon. split_and!; try done. split; [|done]. intros _.
      split; [done|]. apply Z.ltb_ge in Hlt. lia.
  - rewrite Hon. split_and!; try done. split; [done|]. by intros [? _].
Qed.

(** What a sweep does to a user: it keeps the handle, the points, the
    forums and the last-seen time, and leaves the user online exactly
    when the user was online and was seen no earlier than five minutes
    before the sweep; a user seen exactly five minutes before stays
    online, and no sweep puts a user online. *)
Theorem sweep_marks_stale_users_offline now now' s h u :
  users s !! h = Some u ->
  ∃ u', users (cleanup now now' s) !! h = Some u' ∧
    UserData.Handle u' = UserData.Handle u ∧
    UserData.Points u' = UserData.Points u ∧
    UserData.Forums u' = UserData.Forums u ∧
    UserData.LastSeen u' = UserData.LastSeen u ∧
    (UserData.IsOnline u' = true <->
     UserData.IsOnline u = true ∧
     now' - 5 * time.Minute <= UserData.LastSeen u).
Proof.
  intros Hu. unfold cleanup. simpl. rewrite lookup_fmap, Hu. simpl.
  eexists. split; [done|].
  unfold time.Before, time.Add.
  destruct (UserData.IsOnline u) eqn:Hon; simpl.
  - destruct (UserData.LastSeen u <? now' + -5 * time.Minute) eqn:Hlt; simpl.
    + split_and!; try done. split; [done|]. intros [_ H].
      apply Z.ltb_lt in Hlt. lia.
    + rewrite Hon. split_and!; try done. split; [|done]. intros _.
      split; [done|]. apply Z.ltb_ge in Hlt. lia.
  - rewrite Hon. split_and!; try done. split; [done|]. by intros [? _].
Qed.

Lemma sweep_marks_stale_users_offline_witness :
  UserData.IsOnline <$>
    users (cleanup t1 (t0 + 5 * time.Minute) demo) !! "carol" = Some true ∧
  UserData.IsOnline <$>
    users (cleanup t1 (t0 + 5 * time.Minute + 1) demo) !! "carol"
  = Some false.
Proof.
  assert (Hu : users demo !! "carol" = Some demo_carol)
    by (vm_compute; reflexivity).
  destruct (sweep_marks_stale_users_offline t1 (t0 + 5 * time.Minute) demo
              "carol" demo_carol Hu) as (u1 & H1 & _ & _ & _ & _ & Hon1).
  destruct (sweep_marks_stale_users_offline t1 (t0 + 5 * time.Minute + 1)
              demo "carol" demo_carol Hu) as (u2 & H2 & _ & _ & _ & _ & Hon2).
  rewrite H1, H2. simpl. split; f_equal.
  - apply Hon1. split; [reflexivity|]. vm_compute. discriminate.
  - destruct (UserData.IsOnline u2); [|done].
    destruct Hon2 as [Hon2 _]. destruct (Hon2 eq_refl) as [_ Hle].
    vm_compute in Hle. by destruct Hle.
Defined.

(** An activity report and the sweep that follows. For an existing user,
    [ActivityStatus] succeeds, sets the online flag and the last-seen
    time and changes nothing else of the user nor any other user; after a
    sweep the user is online exactly when it reported to be online no
    earlier than five minutes before the sweep. *)
Theorem activity_then_sweep s t h online now now' u :
  users s !! h = Some u ->
  let reported := handleActivityUpdate t h online s in
  reported.2 = ok "Activity status updated successfully" () ∧
  users reported.1 !! h
    = Some (UserData.mk (UserData.Handle u) (UserData.Points u)
                        (UserData.Forums u) online t) ∧
  (∀ h', h' ≠ h -> users reported.1 !! h' = users s !! h') ∧
  ∃ u', users (cleanup now now' reported.1) !! h = Some u' ∧
        UserData.LastSeen u' = t ∧
        (UserData.IsOnline u' = true <->
         online = true ∧ now' - 5 * time.Minute <= t).
Proof.
  intros Hu. simpl.
  assert (Hr : handleActivityUpdate t h online s =
               (set_users (<[h := UserData.set_activity online t u]> (users s)) s,
                ok "Activity status updated successfully" ())).
  { unfold handleActivityUpdate. by rewrite Hu. }
  rewrite Hr. simpl. split_and!; [done|apply lookup_insert_eq| |].
  - intros h' Hne. by rewrite lookup_insert_ne.
  - destruct (cleanup_users_lookup now now'
                (set_users (<[h := UserData.set_activity online t u]>
                              (users s)) s)
                h (UserData.set_activity online t u))
      as (u' & Hu' & _ & _ & _ & Hseen & Hon); [apply lookup_insert_eq|].
    exists u'. split_and!; done.
Qed.

Lemma activity_then_sweep_witness :
  UserData.IsOnline <$>
    users (cleanup t1 (t1 + 6 * time.Minute)
             (handleActivityUpdate t1 "carol" true demo).1) !! "carol"
  = Some false.
Proof.
  assert (Hu : users demo !! "carol" = Some demo_carol)
    by (vm_compute; reflexivity).
  destruct (activity_then_sweep demo t1 "carol" true t1
              (t1 + 6 * time.Minute) demo_carol Hu)
    as (_ & _ & _ & u' & Hu' & _ & Hon).
  rewrite Hu'. simpl. f_equal.
  destruct (UserData.IsOnline u'); [|done].
  destruct Hon as [Hon _]. destruct (Hon eq_refl) as [_ Hle].
  vm_compute in Hle. by destruct Hle.
Defined.

Lemma filter_absorb {A} (P Q : A -> Prop) `{∀ x, Decision (P x)}
    `{∀ x, Decision (Q x)} (l : list A) :
  (∀ x, Q x -> P x) -> filter Q (filter P l) = filter Q l.
Proof.
  intros HQP. induction l as [|x l IH]; [done|].
  rewrite !filter_cons. destruct (decide (P x)) as [HP|HP].
  - rewrite filter_cons. destruct (decide (Q x)); by rewrite IH.
  - rewrite IH. by rewrite decide_False by auto.
Qed.

(** A sweep absorbs an earlier sweep whose cut-offs are not later. If
    the thirty-days cut-off that the second sweep computes is no earlier
    than the one the first sweep computed, and the second sweep reads the
    clock for the online flags no earlier than the first did, then the
    two sweeps leave the store that the second alone leaves. In
    particular a sweep repeated with the same readings changes nothing
    more. Nothing is assumed of the order of the two instants
    themselves: the cut-off is calendar arithmetic and the statement
    asks of it only what it uses. *)
Theorem later_sweep_absorbs_earlier s now1 now1' now2 now2' :
  time.Unix (time.AddDate_days now1 (-30))
    <= time.Unix (time.AddDate_days now2 (-30)) ->
  now1' <= now2' ->
  cleanup now2 now2' (cleanup now1 now1' s) = cleanup now2 now2' s.
Proof.
  intros Hle Hle'. unfold cleanup, set_users, set_chats. simpl. f_equal.
  - rewrite <- map_fmap_compose. apply map_fmap_ext. intros h u _. simpl.
    unfold time.Before, time.Add.
    destruct (UserData.IsOnline u) eqn:Hon; simpl; [|by rewrite Hon].
    destruct (UserData.LastSeen u <? now1' + -5 * time.Minute) eqn:H1; simpl.
    + assert ((UserData.LastSeen u <? now2' + -5 * time.Minute) = true) as ->
        by (apply Z.ltb_lt; apply Z.ltb_lt in H1; lia).
      done.
    + by rewrite Hon.
  - rewrite <- map_fmap_compose. apply map_fmap_ext. intros h msgs _. simpl.
    apply filter_absorb. intros m Hm.
    apply Z.lt_gt. eapply Z.le_lt_trans; [exact Hle|]. by apply Z.gt_lt.
Qed.

Lemma later_sweep_absorbs_earlier_witness :
  let day := 86400 * time.Second in
  inbox demo "bob" ≠ [] ∧
  inbox (cleanup (t1 + 30 * day) t1 demo) "bob" = [] ∧
  cleanup (t1 + 31 * day) (t1 + day)
          (cleanup (t1 + 30 * day) t1 demo)
  = cleanup (t1 + 31 * day) (t1 + day) demo.
Proof.
  cbv zeta. split; [by vm_compute|]. split; [vm_compute; reflexivity|].
  apply later_sweep_absorbs_earlier; vm_compute; discriminate.
Defined.

(** ** The statistics *)

Lemma getOnlineUserCount_size s :
  getOnlineUserCount s
  = Z.of_nat (size (filter (λ kv : string * UserData.t,
                              UserData.IsOnline kv.2 = true) (users s))).
Proof.
  unfold getOnlineUserCount.
  induction (users s) as [|k v r Hk IH] using map_ind.
  - by rewrite map_fold_empty, map_filter_empty, map_size_empty.
  - rewrite map_fold_insert_L;
      [|intros; repeat match goal with
                       | |- context [UserData.IsOnline ?u] =>
                           destruct (UserData.IsOnline u)
                       end; lia|done].
    rewrite IH. destruct (UserData.IsOnline v) eqn:Hon.
    + rewrite map_filter_insert_True by done.
      rewrite map_size_insert_None; [lia|].
      apply map_lookup_filter_None. by left.
    + rewrite map_filter_insert_False by (simpl; congruence).
      by rewrite delete_id.
Qed.

Lemma size_le_of_keys {A B} (m : gmap string A) (m' : gmap string B) :
  (∀ k, is_Some (m !! k) -> is_Some (m' !! k)) -> (size m <= size m')%nat.
Proof.
  intros H. rewrite <- (size_dom m), <- (size_dom m').
  apply subseteq_size. intros k. rewrite !elem_of_dom. apply H.
Qed.

(** [getStats]: the online users are those whose flag is set, so there are
    no more of them than users; the four totals are the sizes of the four
    tables. *)
Theorem online_users_are_counted s :
  online_users (getStats s)
  = Z.of_nat (size (filter (λ kv : string * UserData.t,
                              UserData.IsOnline kv.2 = true) (users s))) ∧
  0 <= online_users (getStats s) <= total_users (getStats s).
Proof.
  unfold getStats. simpl. rewrite getOnlineUserCount_size.
  split; [done|]. split; [lia|].
  apply inj_le, map_size_filter.
Qed.

(** The totals of [getStats] never go down: along any history, from any
    store, the numbers of users, of forums, of posts and of comments
    are at least what they were. *)
Theorem totals_never_decrease tr s :
  total_users (getStats s) <= total_users (getStats (run tr s)) ∧
  total_forums (getStats s) <= total_forums (getStats (run tr s)) ∧
  total_posts (getStats s) <= total_posts (getStats (run tr s)) ∧
  total_comments (getStats s) <= total_comments (getStats (run tr s)).
Proof.
  assert (Hext : extends s (run tr s)).
  { revert s. induction tr as [|e tr IH]; intros s; [apply extends_refl|].
    change (run (e :: tr) s) with (run tr (exec e s)).
    eapply extends_trans; [apply exec_extends|apply IH]. }
  destruct Hext as (Hu & Hf & Hc & Hfb & _ & _).
  unfold getStats. simpl. split_and!; apply inj_le, size_le_of_keys.
  - intros k [u Hk]. destruct (Hu k u Hk) as (u' & -> & _). by eexists.
  - intros k [f Hk]. destruct (Hf k f Hk) as (f' & -> & _). by eexists.
  - apply Hc.
  - apply Hfb.
Qed.

(** A sweep leaves the four totals as they are and never raises the
    number of online users. *)
Theorem sweep_never_raises_online_count now now' s :
  total_users (getStats (cleanup now now' s)) = total_users (getStats s) ∧
  total_forums (getStats (cleanup now now' s)) = total_forums (getStats s) ∧
  total_posts (getStats (cleanup now now' s)) = total_posts (getStats s) ∧
  total_comments (getStats (cleanup now now' s))
    = total_comments (getStats s) ∧
  online_users (getStats (cleanup now now' s)) <= online_users (getStats s).
Proof.
  unfold getStats. simpl. rewrite !getOnlineUserCount_size.
  split_and!; try done.
  - unfold cleanup. simpl. by rewrite map_size_fmap.
  - apply inj_le, size_le_of_keys. intros k [u' Hk].
    apply map_lookup_filter_Some in Hk as [Hk Hon]. simpl in Hon.
    destruct (users s !! k) as [u|] eqn:Hu.
    + destruct (cleanup_users_lookup now now' s k u Hu)
        as (u'' & Hk' & _ & _ & _ & _ & Hiff).
      rewrite Hk in Hk'. injection Hk' as <-.
      exists u. apply map_lookup_filter_Some. split; [done|]. simpl.
      by destruct (proj1 Hiff Hon) as [? _].
    + unfold cleanup in Hk. simpl in Hk. by rewrite lookup_fmap, Hu in Hk.
Qed.

(** ** Members, counted *)

(** The member count of a forum is the number of users who list the
    forum: in a store reached from the empty one, [GetForumDetails]
    reports, as a 32-bit integer, how many users have the forum among
    their forums. *)
Theorem member_count_counts_users s n fd :
  reachable s -> forums s !! n = Some fd ->
  size (ForumData.Members fd)
  = size (filter (λ kv : string * UserData.t,
                    is_Some (UserData.Forums kv.2 !! n)) (users s)) ∧
  fd_MemberCount (Data (handleGetForumDetails n s))
  = Int.wrap32
      (Z.of_nat (size (filter (λ kv : string * UserData.t,
                                 is_Some (UserData.Forums kv.2 !! n))
                              (users s)))).
Proof.
  intros Hs Hfd. destruct (reachable_membership s Hs) as [HF HU].
  assert (Hsize : size (ForumData.Members fd)
    = size (filter (λ kv : string * UserData.t,
                      is_Some (UserData.Forums kv.2 !! n)) (users s))).
  { rewrite <- (size_dom (D := gset string) (ForumData.Members fd)).
    rewrite <- (size_dom (D := gset string) (filter _ (users s))).
    f_equal. apply set_eq. intros k. rewrite !elem_of_dom. split.
    - intros [b Hb].
      destruct (HF k n (ForumData.Members fd) b) as (_ & fs & Hfs & Hn);
        [by rewrite Members_of_lookup, Hfd|done|].
      rewrite Forums_of_lookup in Hfs.
      destruct (users s !! k) as [u|] eqn:Hu; [|done].
      simpl in Hfs. injection Hfs as <-.
      exists u. apply map_lookup_filter_Some. split; [done|]. simpl.
      by eexists.
    - intros [u Hk]. apply map_lookup_filter_Some in Hk as [Hu [b Hb]].
      simpl in Hb.
      destruct (HU k n (UserData.Forums u) b) as (_ & ms & Hms & Hk);
        [by rewrite Forums_of_lookup, Hu|done|].
      rewrite Members_of_lookup, Hfd in Hms. simpl in Hms.
      injection Hms as <-. by eexists. }
  split; [done|]. unfold handleGetForumDetails. rewrite Hfd. simpl.
  by rewrite Hsize.
Qed.

Lemma member_count_counts_users_witness :
  fd_MemberCount (Data (handleGetForumDetails "go" demo)) = 2.
Proof.
  assert (Hf : forums demo !! "go" = Some demo_go)
    by (vm_compute; reflexivity).
  destruct (member_count_counts_users demo "go" demo_go reachable_demo Hf)
    as [_ ->].
  vm_compute. reflexivity.
Defined.

(** A successful join adds exactly one member to the forum, leaves the
    list of its contents as it was, and a second join of the same user to
    the same forum is refused without any change. *)
Theorem join_adds_one_member s h f fd :
  reachable s -> forums s !! f = Some fd ->
  Success (handleForumJoin h f s).2 = true ->
  let s' := (handleForumJoin h f s).1 in
  (∃ fd', forums s' !! f = Some fd' ∧
          size (ForumData.Members fd') = S (size (ForumData.Members fd)) ∧
          ForumData.Contents fd' = ForumData.Contents fd) ∧
  handleForumJoin h f s' = (s', fail "User already a member" ()).
Proof.
  intros Hs Hfd Hok. cbv zeta. revert Hok. unfold handleForumJoin.
  destruct (users s !! h) as [u|] eqn:Hu; [|done].
  rewrite Hfd.
  destruct (index_bool (ForumData.Members fd) h) eqn:Hidx; [done|].
  intros _. simpl.
  destruct (not_member_no_key s h f u fd Hs Hu Hfd Hidx) as [Hm _].
  split.
  - eexists. split; [apply lookup_insert_eq|]. simpl. split; [|done].
    by rewrite map_size_insert_None.
  - rewrite !lookup_insert_eq. simpl.
    unfold index_bool. by rewrite lookup_insert_eq.
Qed.

Lemma join_adds_one_member_witness :
  Message (handleForumJoin "carol" "go"
             (handleForumJoin "carol" "go" demo).1).2
  = "User already a member".
Proof.
  assert (Hf : forums demo !! "go" = Some demo_go)
    by (vm_compute; reflexivity).
  assert (Hok : Success (handleForumJoin "carol" "go" demo).2 = true)
    by (vm_compute; reflexivity).
  destruct (join_adds_one_member demo "carol" "go" demo_go reachable_demo
              Hf Hok) as [_ ->].
  reflexivity.
Defined.

(** ** Registration *)

(** A registration that is accepted. With a handle that is not empty and
    not taken, [OnboardUser] succeeds; the new user is online, last seen
    at the time of the registration, has no points and no forums, and
    every other user, the forums, the contents, the feedback and the
    inboxes are as before. In a store reached from the empty one the new
    user's inbox is empty, and a second registration under the handle is
    refused without any change. *)
Theorem fresh_user_starts_empty s now now2 h :
  reachable s -> h ≠ "" -> users s !! h = None ->
  let s' := (handleOnboarding now h s).1 in
  (handleOnboarding now h s).2 = ok "User registered successfully" () ∧
  users s' !! h = Some (UserData.mk h 0 ∅ true now) ∧
  (∀ h', h' ≠ h -> users s' !! h' = users s !! h') ∧
  (forums s' = forums s ∧ contents s' = contents s ∧
   feedbacks s' = feedbacks s ∧ chats s' = chats s ∧
   content_heap s' = content_heap s ∧ feedback_heap s' = feedback_heap s) ∧
  (handleChatRetrieval h s').2 = ok "Messages retrieved successfully" [] ∧
  handleOnboarding now2 h s' = (s', fail "Username already exists" ()).
Proof.
  intros Hs Hne Hu. cbv zeta.
  assert (Hr : handleOnboarding now h s =
               (set_users (<[h := UserData.mk h 0 ∅ true now]> (users s)) s,
                ok "User registered successfully" ())).
  { unfold handleOnboarding. rewrite decide_False by done. by rewrite Hu. }
  rewrite Hr. simpl. split_and!; try done.
  - apply lookup_insert_eq.
  - intros h' Hne'. by rewrite lookup_insert_ne.
  - unfold handleChatRetrieval. simpl. rewrite lookup_insert_eq. simpl.
    unfold inbox. simpl.
    assert (Hinv : inbox_inv s).
    { revert Hs. apply reachable_invariant; [|apply exec_inbox].
      intros k msgs Hk. simpl in Hk. by rewrite lookup_empty in Hk. }
    destruct (chats s !! h) as [msgs|] eqn:Hc; [|done].
    destruct (Hinv h msgs Hc) as [[u Hu'] _]. congruence.
  - unfold handleOnboarding. rewrite decide_False by done. simpl.
    by rewrite lookup_insert_eq.
Qed.

Lemma fresh_user_starts_empty_witness :
  users (handleOnboarding t1 "dave" demo).1 !! "dave"
  = Some (UserData.mk "dave" 0 ∅ true t1).
Proof.
  assert (Hne : "dave" ≠ "") by discriminate.
  assert (Hu : users demo !! "dave" = None) by (vm_compute; reflexivity).
  exact (proj1 (proj2 (fresh_user_starts_empty demo t1 t1 "dave"
                         reachable_demo Hne Hu))).
Defined.

(** ** The REST server in front of the engine *)

Section RestFeed.
Variable Log10 : float64 -> float64.
Variable sort_Slice : ∀ A : Type, (A -> A -> bool) -> list A -> list A.
Variable range_keys : gmap string bool -> list string.
Hypothesis sort_Slice_ok : sort_Slice_spec sort_Slice.
Hypothesis range_keys_ok : range_keys_spec range_keys.

(** The feed of the REST endpoint is the feed of the engine. After every
    command, [getFeed] answers what [GetFeed] answers for the sort method
    of the request (or "hot" when the request names none) and the limit
    50: the endpoint never has to rename a content "Unknown", because no
    stored content has an empty id. The feed holds at most fifty
    contents, all of them stored. *)
Theorem rest_feed_is_engine_feed s username sort :
  reachable s ->
  let sortMethod := if decide (sort = "") then "hot" else sort in
  let feed := getFeed Log10 sort_Slice range_keys username sort s in
  feed = handleFeedRequest Log10 sort_Slice range_keys username sortMethod
                           50 s ∧
  (length (Data feed) <= 50)%nat ∧
  ∀ c, c ∈ Data feed -> c ∈ content_heap s ∧ Content.ContentId c ≠ "".
Proof.
  intros Hs. cbv zeta.
  destruct (reachable_references s Hs) as (Hc & _ & _ & _).
  rewrite Forall_forall in Hc.
  set (sortMethod := if decide (sort = "") then "hot" else sort).
  assert (Hstored : ∀ user c,
    c ∈ truncate 50 (rank Log10 sort_Slice sortMethod
                       (gather range_keys user s)) ->
    c ∈ content_heap s ∧ Content.ContentId c ≠ "").
  { intros user c Hin. apply truncate_elem_of in Hin.
    rewrite (rank_perm Log10 sort_Slice sort_Slice_ok) in Hin.
    apply (elem_of_gather range_keys range_keys_ok) in Hin
      as (n & forum & l & _ & _ & _ & Hl).
    apply list_elem_of_lookup_2 in Hl. split; [done|].
    destruct (Hc c Hl) as (_ & _ & hex & ->). discriminate. }
  assert (Heq : getFeed Log10 sort_Slice range_keys username sort s
    = handleFeedRequest Log10 sort_Slice range_keys username sortMethod 50 s).
  { unfold getFeed. fold sortMethod. unfold handleFeedRequest.
    destruct (users s !! username) as [user|]; simpl; [|done].
    unfold ok. f_equal.
    rewrite <- (list_fmap_id (truncate _ _)) at 2.
    apply list_fmap_ext. intros i c Hi.
    apply list_elem_of_lookup_2, Hstored in Hi as [_ Hid].
    unfold name_unknown. by rewrite decide_False. }
  rewrite Heq. split; [done|]. unfold handleFeedRequest.
  destruct (users s !! username) as [user|]; simpl.
  - split; [|apply Hstored].
    pose proof (truncate_length 50 (rank Log10 sort_Slice sortMethod
                  (gather range_keys user s))). lia.
  - split; [lia|]. intros c Hin. by apply elem_of_nil in Hin.
Qed.
End RestFeed.

Lemma rest_feed_is_engine_feed_witness :
  getFeed log10 insertionSort keys_in_order "bob" "" demo
  = handleFeedRequest log10 insertionSort keys_in_order "bob" "hot" 50 demo.
Proof.
  exact (proj1 (rest_feed_is_engine_feed log10 insertionSort keys_in_order
                  insertionSort_spec keys_in_order_spec demo "bob" ""
                  reachable_demo)).
Defined.

Lemma Receive_rest_no_feedback_vote now hex r s :
  Forall (λ f, Feedback.Reactions f = ∅ ∧ Feedback.Points f = 0)
         (feedback_heap s) ->
  Forall (λ f, Feedback.Reactions f = ∅ ∧ Feedback.Points f = 0)
         (feedback_heap (Receive now hex (rest.message r) s)).
Proof.
  intros H. destruct r; simpl; try done.
  - unfold handleOnboarding. repeat case_match; done.
  - unfold handleActivityUpdate. repeat case_match; done.
  - unfold handleForumCreation. repeat case_match; done.
  - unfold handleForumJoin. repeat case_match; done.
  - unfold handleForumLeave. repeat case_match; done.
  - unfold handleContentCreation. repeat case_match; done.
  - unfold handleFeedbackCreation.
    destruct (users s !! _); [|done].
    destruct (contents s !! _); [|done].
    assert (Forall (λ f, Feedback.Reactions f = ∅ ∧ Feedback.Points f = 0)
              (feedback_heap s ++
               [Feedback.mk (utils.GenerateID "fdb" hex) postId Username
                            Content (time.Unix now) ParentId [] ∅ 0])).
    { apply Forall_app. split; [done|]. by apply Forall_singleton. }
    case_decide; simpl; [done|].
    destruct (_ !! ParentId); simpl; [|done].
    apply Forall_alter; [done|]. by intros f _ [? ?].
  - unfold handleReaction. repeat case_match; simplify_eq/=; done.
  - unfold handleChatDelivery. repeat case_match; done.
  - unfold handleChatRetrieval. repeat case_match; done.
Qed.

(** The REST server never votes on a comment: its vote endpoint always
    names its target a content. So in a store built from the empty one by
    requests to the server and sweeps of the engine alone, every feedback
    has no reaction and no points. *)
Theorem rest_never_votes_on_feedback tr :
  rest.served tr ->
  Forall (λ f, Feedback.Reactions f = ∅ ∧ Feedback.Points f = 0)
         (feedback_heap (run tr NewSocialEngine)).
Proof.
  assert (Hgen : ∀ tr s,
    rest.served tr ->
    Forall (λ f, Feedback.Reactions f = ∅ ∧ Feedback.Points f = 0)
           (feedback_heap s) ->
    Forall (λ f, Feedback.Reactions f = ∅ ∧ Feedback.Points f = 0)
           (feedback_heap (run tr s))).
  { clear tr. induction tr as [|e tr IH]; intros s Htr Hs; [done|].
    apply Forall_cons in Htr as [He Htr].
    change (run (e :: tr) s) with (run tr (exec e s)).
    apply IH; [done|].
    destruct He as [(now & hex & r & ->)|(now & now' & ->)].
    - by apply Receive_rest_no_feedback_vote.
    - done. }
  intros Htr. apply Hgen; [done|]. apply Forall_nil_2.
Qed.

Lemma rest_never_votes_on_feedback_witness :
  let tr :=
    [ Received t0 "" (rest.message (rest.registerUser "alice"));
      Received t0 "" (rest.message (rest.createForum "go" "about go"));
      Received t0 "" (rest.message (rest.joinForum "go" "alice"));
      Received t0 "01"
        (rest.message (rest.createPost "alice" "go" "hi" "first" false ""));
      Received t1 "02"
        (rest.message (rest.createComment "cnt_01" "alice" "nice" ""));
      Received t1 "" (rest.message (rest.vote "fdb_02" "alice" true));
      Swept t1 t1 ] in
  length (feedback_heap (run tr NewSocialEngine)) = 1%nat ∧
  Forall (λ f, Feedback.Reactions f = ∅ ∧ Feedback.Points f = 0)
         (feedback_heap (run tr NewSocialEngine)).
Proof.
  cbv zeta. split; [vm_compute; reflexivity|].
  apply rest_never_votes_on_feedback. unfold rest.served.
  repeat (apply Forall_cons; split;
          [first [left; by eexists _, _, _ | right; by eexists _, _]|]).
  apply Forall_nil_2.
Defined.

(** ** Reading the inbox again *)

(** Reading an inbox twice is reading it once: the second [GetChats] of a
    user leaves the store that the first one left and answers what the
    first one answered. Every message of the answer is marked as seen,
    and the inboxes of the other users are not touched. *)
Theorem retrieval_is_idempotent s h :
  let first := handleChatRetrieval h s in
  handleChatRetrieval h first.1 = first ∧
  Forall (λ m, DirectChat.Seen m = true) (Data first.2) ∧
  ∀ h', h' ≠ h -> inbox first.1 h' = inbox s h'.
Proof.
  cbv zeta. unfold handleChatRetrieval.
  destruct (users s !! h) as [u|] eqn:Hu; simpl.
  - rewrite Hu. split_and!.
    + unfold inbox, set_chats. simpl. f_equal.
      * f_equal. rewrite alter_alter_eq. apply alter_ext.
        intros msgs _. simpl. rewrite <- list_fmap_compose.
        apply list_fmap_ext. by intros ? [].
      * f_equal. rewrite lookup_alter_eq.
        destruct (chats s !! h) as [msgs|]; simpl; [|done].
        rewrite <- list_fmap_compose. apply list_fmap_ext. by intros ? [].
    + apply Forall_fmap, Forall_true. done.
    + intros h' Hne. unfold inbox. simpl. by rewrite lookup_alter_ne.
  - rewrite Hu. split_and!; [done|done|done].
Qed.
